(** * Ghana Marketplace backend: cart reconciliation and order commit

    A shallow embedding of the cart controller (getUserCart, syncCart,
    saveCart, clearCart), of the order controller (getUserOrders,
    getOrderById, createOrder, updateOrderStatus, updatePaymentStatus)
    and of getProductById of the product controller, together with the
    relational schema they run against, followed by the properties of
    the cart-merge and order-commit logic and of the handlers around
    them.

    Modelling conventions.
    - A request carries the fields the handlers read: [req.body.userId],
      [req.user?.id], [req.body.cartItems], [req.body.shippingAddress],
      [req.body.guestInfo], [req.body.status] and [req.params.id];
      [req.body] is an object, as the JSON body parser leaves it.
      Identifiers and quantities are integers ([Z]); a missing field is
      [None].  JavaScript truthiness is written out: [0] and the empty
      string are falsy.
    - A cart snapshot is the JSON object product key -> size -> quantity,
      kept as an association list in the order [for ... in] enumerates it.
    - The store is a record of tables (lists of rows) with their serial
      counters.  Foreign keys declared in the schema are enforced on
      insert.  Column widths (varchar(50), 32-bit integer) are not
      modelled; prices and totals are exact integers (cents) instead of
      decimal strings multiplied as floats.
    - The rows carry no time stamps.  The one column the handlers write
      themselves, [updatedAt] of an order, is kept beside the store in
      [Stamped], where the two update handlers are written with the time
      of the call as a parameter.
    - The cart table has no unique constraint on (owner, product, size),
      and the line lookup of syncCart is a [limit(1)] without [orderBy].
      [CartController] returns the first matching row in table order;
      [AnyRow] has the same handler with the choice of the row left open.
    - Every storage statement may fail: an oracle [fails] says which
      statements throw ([failsQ] for the statements of the read handlers
      and of the payment update).  A handler's [try ... catch] turns a
      thrown error into the 500 response.
    - [orderBy(desc(createdAt))] of getUserOrders is a parameter.  The
      product images of the order views and the columns of products other
      than id, name, price and stock flag are left out. *)

From Stdlib Require Import ZArith Lia Ascii String.
From stdpp Require Import base option list strings gmap gmultiset pretty.

Local Open Scope string_scope.
Local Open Scope list_scope.
Local Open Scope Z_scope.

(** ** JavaScript primitives used by the handlers *)
Module Js.

(** [!!v] for a number-valued field that may be missing. *)
Definition truthyNum (v : option Z) : bool :=
  match v with
  | Some n => negb (n =? 0)
  | None => false
  end.

(** [!!v] for a string-valued field that may be missing. *)
Definition truthyStr (v : option string) : bool :=
  match v with
  | Some s => negb (String.eqb s EmptyString)
  | None => false
  end.

(** [!!v] for a nullable boolean column. *)
Definition truthyBool (v : option bool) : bool :=
  match v with
  | Some b => b
  | None => false
  end.

(** [a || b] on number-valued fields. *)
Definition orNum (a b : option Z) : option Z :=
  if truthyNum a then a else b.

(** The number held by a truthy field ([None] when the field is falsy). *)
Definition asTruthy (v : option Z) : option Z :=
  if truthyNum v then v else None.

(** [s || d] on a nullable string column. *)
Definition orStr (s : option string) (d : string) : string :=
  match s with
  | Some x => if String.eqb x EmptyString then d else x
  | None => d
  end.

Definition code (c : ascii) : Z := Z.of_N (N_of_ascii c).

(** White space skipped by [parseInt]: a character of a string stands for
    the code point of its number (0 to 255); among these the white space
    and line terminators of the language are TAB, LF, VT, FF, CR, SP and
    NBSP (U+00A0).  Code points above 255 are not represented. *)
Definition isWhiteSpace (c : ascii) : bool :=
  let n := code c in
  ((9 <=? n) && (n <=? 13)) || (n =? 32) || (n =? 160).

Fixpoint skipWhiteSpace (s : string) : string :=
  match s with
  | String c rest => if isWhiteSpace c then skipWhiteSpace rest else s
  | EmptyString => s
  end.

Definition digitValue (c : ascii) : option Z :=
  let n := code c in
  if (48 <=? n) && (n <=? 57) then Some (n - 48)
  else if (97 <=? n) && (n <=? 122) then Some (n - 87)
  else if (65 <=? n) && (n <=? 90) then Some (n - 55)
  else None.

(** Longest prefix of digits of the radix; [acc] is [None] until a
    digit has been read. *)
Fixpoint readDigits (radix : Z) (s : string) (acc : option Z) : option Z :=
  match s with
  | String c rest =>
      match digitValue c with
      | Some d =>
          if d <? radix
          then readDigits radix rest (Some (default 0 acc * radix + d))
          else acc
      | None => acc
      end
  | EmptyString => acc
  end.

Definition stripSign (s : string) : bool * string :=
  match s with
  | String c rest =>
      if code c =? 45 then (true, rest)
      else if code c =? 43 then (false, rest)
      else (false, s)
  | EmptyString => (false, s)
  end.

Definition stripHexPrefix (s : string) : Z * string :=
  match s with
  | String c0 (String c1 rest) =>
      if (code c0 =? 48) && ((code c1 =? 120) || (code c1 =? 88))
      then (16, rest) else (10, s)
  | _ => (10, s)
  end.

(** [parseInt(s)] without a radix argument; [None] is [NaN].  The result
    is the exact integer the digits denote: JavaScript returns the double
    nearest to it, which is that integer up to 2^53; every id the store
    can hold is a 32-bit integer. *)
Definition parseInt (s : string) : option Z :=
  let '(negative, s1) := stripSign (skipWhiteSpace s) in
  let '(radix, s2) := stripHexPrefix s1 in
  match readDigits radix s2 None with
  | Some n => Some (if negative then - n else n)
  | None => None
  end.

(** [n.toString()] for an integer: the decimal digits, with a minus sign
    for a negative number.  This is what JavaScript gives for an integer
    of magnitude below 10^21 (the exponent form starts there); the ids
    the handlers print are 32-bit integers. *)
Definition toString (n : Z) : string := pretty n.

End Js.

(** ** The schema (src/db/schema.ts) and the store *)
Module Schema.

Record Product := {
  p_id : Z;
  p_name : string;
  p_price : Z;
  p_inStock : option bool
}.

Record CartRow := {
  c_id : Z;
  c_userId : Z;
  c_productId : Z;
  c_quantity : Z;
  c_size : option string
}.

Record ShippingAddress := {
  homeAddress : string;
  city : string;
  regionOrState : string;
  country : string;
  zipCode : string
}.

Record GuestInfo := {
  g_name : option string;
  g_email : option string;
  g_phone : option string
}.

Record Order := {
  o_id : Z;
  o_userId : option Z;
  o_totalAmount : Z;
  o_status : option string;
  o_shippingAddress : option ShippingAddress;
  o_guestInfo : option GuestInfo;
  o_paymentStatus : option string
}.

Record OrderItem := {
  oi_id : Z;
  oi_orderId : Z;
  oi_productId : Z;
  oi_quantity : Z;
  oi_price : Z;
  oi_size : option string
}.

Record DB := {
  users : list Z;
  products : list Product;
  cart : list CartRow;
  cart_seq : Z;
  orders : list Order;
  orders_seq : Z;
  orderItems : list OrderItem;
  orderItems_seq : Z
}.

Definition with_cart (rows : list CartRow) (seq : Z) (db : DB) : DB :=
  {| users := users db; products := products db;
     cart := rows; cart_seq := seq;
     orders := orders db; orders_seq := orders_seq db;
     orderItems := orderItems db; orderItems_seq := orderItems_seq db |}.

Definition with_orders (rows : list Order) (seq : Z) (db : DB) : DB :=
  {| users := users db; products := products db;
     cart := cart db; cart_seq := cart_seq db;
     orders := rows; orders_seq := seq;
     orderItems := orderItems db; orderItems_seq := orderItems_seq db |}.

Definition with_orderItems (rows : list OrderItem) (seq : Z) (db : DB) : DB :=
  {| users := users db; products := products db;
     cart := cart db; cart_seq := cart_seq db;
     orders := orders db; orders_seq := orders_seq db;
     orderItems := rows; orderItems_seq := seq |}.

Definition set_quantity (q : Z) (r : CartRow) : CartRow :=
  {| c_id := c_id r; c_userId := c_userId r; c_productId := c_productId r;
     c_quantity := q; c_size := c_size r |}.

Definition set_status (s : option string) (o : Order) : Order :=
  {| o_id := o_id o; o_userId := o_userId o; o_totalAmount := o_totalAmount o;
     o_status := s; o_shippingAddress := o_shippingAddress o;
     o_guestInfo := o_guestInfo o; o_paymentStatus := o_paymentStatus o |}.

(** The statements the handlers issue; the fault oracle is indexed by them. *)
Inductive StorageOp :=
| SelectCartOfUser (u : Z)
| SelectProductById (p : Z)
| SelectCartLine (u p : Z) (size : string)
| UpdateCartQuantity (id : Z)
| InsertCartLine (u p : Z) (size : string)
| DeleteCartOfUser (u : Z)
| InsertOrder
| InsertOrderItem (order p : Z) (size : string)
| SelectOrderById (id : Z)
| UpdateOrderStatus (id : Z).

Inductive Result (A : Type) :=
| Ok (a : A)
| Thrown (e : string).
Arguments Ok {A} a.
Arguments Thrown {A} e.

(** A computation against the store: a result or a thrown error, and the
    store it leaves behind. *)
Definition M (A : Type) : Type := DB -> Result A * DB.

Definition ret {A} (a : A) : M A := fun db => (Ok a, db).

Definition bind {A B} (m : M A) (k : A -> M B) : M B :=
  fun db =>
    match m db with
    | (Ok a, db') => k a db'
    | (Thrown e, db') => (Thrown e, db')
    end.

(** [Promise.all] over statements that have all been issued: every one
    runs, and the first rejection is the one reported. *)
Fixpoint promiseAll {A} (ms : list (M A)) : M (list A) :=
  match ms with
  | [] => ret []
  | m :: rest =>
      fun db =>
        match m db with
        | (Ok a, db1) =>
            match promiseAll rest db1 with
            | (Ok l, db2) => (Ok (a :: l), db2)
            | (Thrown e, db2) => (Thrown e, db2)
            end
        | (Thrown e, db1) => (Thrown e, (promiseAll rest db1).2)
        end
  end.

Definition storageUnavailable : string := "storage unavailable".
Definition foreignKeyViolation : string := "violates foreign key constraint".

Section Statements.
Variable fails : StorageOp -> bool.

(** Modelled from the spec: the database handle [db] that the controllers
    import from db/index.js (a drizzle connection to PostgreSQL) is not
    among the sources.  A statement is either rejected by the store, as
    the oracle decides (StorageUnavailable), or runs against the tables of
    the schema, which keep the referential integrity the schema declares;
    a statement takes effect on its own, there is no transaction. *)
Definition statement {A} (op : StorageOp) (run : M A) : M A :=
  fun db => if fails op then (Thrown storageUnavailable, db) else run db.

Definition hasProduct (pid : Z) (db : DB) : bool :=
  bool_decide (pid ∈ p_id <$> products db).

Definition hasUser (u : Z) (db : DB) : bool :=
  bool_decide (u ∈ users db).

Definition hasOrder (id : Z) (db : DB) : bool :=
  bool_decide (id ∈ o_id <$> orders db).

(** select().from(cart).where(eq(cart.userId, u)) *)
Definition selectCartOfUser (u : Z) : M (list CartRow) :=
  statement (SelectCartOfUser u)
    (fun db => (Ok (filter (fun r => c_userId r = u) (cart db)), db)).

(** select().from(products).where(eq(products.id, pid)).limit(1) *)
Definition selectProductById (pid : Z) : M (list Product) :=
  statement (SelectProductById pid)
    (fun db => (Ok (take 1 (filter (fun p => p_id p = pid) (products db))), db)).

(** select().from(cart).where(and(userId, productId, size)).limit(1);
    a row whose size is NULL matches no size.  There is no [orderBy]:
    which row comes back is fixed only when at most one row matches; this
    statement returns the first in table order, and [AnyRow] has the
    handler with the choice left open. *)
Definition selectCartLine (u pid : Z) (size : string) : M (list CartRow) :=
  statement (SelectCartLine u pid size)
    (fun db =>
       (Ok (take 1 (filter (fun r => c_userId r = u ∧ c_productId r = pid
                                     ∧ c_size r = Some size) (cart db))), db)).

(** update(cart).set({ quantity }).where(eq(cart.id, id)).  The row keeps
    its place in the list; the order of the list is the order unordered
    selects return the rows in, which the database is free to change. *)
Definition updateCartQuantity (id q : Z) : M unit :=
  statement (UpdateCartQuantity id)
    (fun db =>
       (Ok tt,
        with_cart ((fun r => if decide (c_id r = id) then set_quantity q r else r)
                     <$> cart db) (cart_seq db) db)).

(** insert(cart).values({ userId, productId, quantity, size }); the
    serial is drawn before the foreign keys are checked. *)
Definition insertCartLine (u pid q : Z) (size : string) : M unit :=
  statement (InsertCartLine u pid size)
    (fun db =>
       if hasUser u db && hasProduct pid db
       then (Ok tt,
             with_cart (cart db ++ [{| c_id := cart_seq db; c_userId := u;
                                       c_productId := pid; c_quantity := q;
                                       c_size := Some size |}])
                       (cart_seq db + 1) db)
       else (Thrown foreignKeyViolation, with_cart (cart db) (cart_seq db + 1) db)).

(** delete(cart).where(eq(cart.userId, u)) *)
Definition deleteCartOfUser (u : Z) : M unit :=
  statement (DeleteCartOfUser u)
    (fun db =>
       (Ok tt, with_cart (filter (fun r => c_userId r ≠ u) (cart db)) (cart_seq db) db)).

(** insert(orders).values({...}).returning(); [userId] references users. *)
Definition insertOrder (userId : option Z) (total : Z)
    (address : option ShippingAddress) (guest : option GuestInfo) : M (list Order) :=
  statement InsertOrder
    (fun db =>
       if match userId with Some u => hasUser u db | None => true end
       then
         let row := {| o_id := orders_seq db; o_userId := userId;
                       o_totalAmount := total; o_status := Some "pending";
                       o_shippingAddress := address; o_guestInfo := guest;
                       o_paymentStatus := Some "pending" |} in
         (Ok [row], with_orders (orders db ++ [row]) (orders_seq db + 1) db)
       else (Thrown foreignKeyViolation,
             with_orders (orders db) (orders_seq db + 1) db)).

(** insert(orderItems).values({ orderId, productId, quantity, price, size })
    .returning(); [orderId] references orders, [productId] products. *)
Definition insertOrderItem (orderId pid q price : Z) (size : string)
    : M (list OrderItem) :=
  statement (InsertOrderItem orderId pid size)
    (fun db =>
       if hasOrder orderId db && hasProduct pid db
       then
         let row := {| oi_id := orderItems_seq db; oi_orderId := orderId;
                       oi_productId := pid; oi_quantity := q;
                       oi_price := price; oi_size := Some size |} in
         (Ok [row],
          with_orderItems (orderItems db ++ [row]) (orderItems_seq db + 1) db)
       else (Thrown foreignKeyViolation,
             with_orderItems (orderItems db) (orderItems_seq db + 1) db)).

(** select().from(orders).where(eq(orders.id, id)).limit(1) *)
Definition selectOrderById (id : Z) : M (list Order) :=
  statement (SelectOrderById id)
    (fun db => (Ok (take 1 (filter (fun o => o_id o = id) (orders db))), db)).

(** update(orders).set({ status, updatedAt: new Date() })
      .where(eq(orders.id, id)).returning().  The timestamps are not
    columns of [Order]: of the two columns written, only [status] is
    kept. *)
Definition updateOrderStatusById (id : Z) (s : string) : M (list Order) :=
  statement (UpdateOrderStatus id)
    (fun db =>
       let rows := (fun o => if decide (o_id o = id) then set_status (Some s) o else o)
                     <$> orders db in
       (Ok (filter (fun o => o_id o = id) rows),
        with_orders rows (orders_seq db) db)).

End Statements.

End Schema.

(** ** Requests and responses *)
Module Http.
Import Schema.

(** size label -> quantity, in enumeration order. *)
Abbreviation SizeMap := (list (string * Z)).

(** product key -> size map, in enumeration order. *)
Abbreviation Snapshot := (list (string * list (string * Z))).

(** What [req.body.cartItems] can be. *)
Inductive CartItemsField :=
| CartItemsMissing                      (* undefined, null or another falsy value *)
| CartItemsScalar                       (* truthy but [typeof] is not "object" *)
| CartItemsObject (entries : Snapshot).

Record Request := {
  body_userId : option Z;
  user_id : option Z;
  body_cartItems : CartItemsField;
  body_shippingAddress : option ShippingAddress;
  body_guestInfo : option GuestInfo;
  body_status : option string;
  params_id : option string
}.

Inductive Payload :=
| NoData
| CartData (cartItems : gmap string (gmap string Z))
| OrderData (order : Order) (items : list (option OrderItem))
| OrderRow (order : option Order)
| ErrorText (e : string).

Record Response := {
  status : Z;
  success : bool;
  message : option string;
  data : Payload
}.

Definition failure (code : Z) (msg : string) : Response :=
  {| status := code; success := false; message := Some msg; data := NoData |}.

Definition internalError (msg e : string) : Response :=
  {| status := 500; success := false; message := Some msg; data := ErrorText e |}.

Definition okMessage (code : Z) (msg : string) (d : Payload) : Response :=
  {| status := code; success := true; message := Some msg; data := d |}.

(** A handler: the response sent and the store left behind. *)
Definition Handler : Type := Request -> DB -> Response * DB.

(** [try { body } catch (error) { res.status(500).json(...) }] *)
Definition tryCatch (msg : string) (body : M Response) (db : DB) : Response * DB :=
  match body db with
  | (Ok r, db') => (r, db')
  | (Thrown e, db') => (internalError msg e, db')
  end.

End Http.

Declare Scope store_scope.
Notation "'let*' x ':=' m 'in' k" :=
  (Schema.bind m (fun x => k))
  (at level 10, x pattern, m at level 100, k at level 200) : store_scope.
Local Open Scope store_scope.

(** ** controllers/v1/cart.controller.ts *)
Module CartController.
Import Schema Http.

(** One iteration of the loop that rebuilds the frontend format:
    [if (!cartItems[productId]) cartItems[productId] = {};
     cartItems[productId][size] = item.quantity].
    The inner object is an object literal: assigning a number to its
    [__proto__] goes to the setter it inherits, which ignores it, so a row
    of that size leaves no entry. *)
Definition putLine (cartItems : gmap string (gmap string Z)) (item : CartRow)
    : gmap string (gmap string Z) :=
  let productId := Js.toString (c_productId item) in
  let size := Js.orStr (c_size item) "default" in
  let inner := default ∅ (cartItems !! productId) in
  <[productId := if String.eqb size "__proto__" then inner
                 else <[size := c_quantity item]> inner]>
    cartItems.

Definition toFrontend (rows : list CartRow) : gmap string (gmap string Z) :=
  foldl putLine ∅ rows.

Section Handlers.
Variable fails : StorageOp -> bool.

Definition getUserCart : Handler := fun req =>
  tryCatch "Error fetching cart"
    (let userId := Js.orNum (body_userId req) (user_id req) in
     match Js.asTruthy userId with
     | None => ret (failure 401 "Authentication required")
     | Some u =>
         let* userCartItems := selectCartOfUser fails u in
         ret {| status := 200; success := true; message := None;
                data := CartData (toFrontend userCartItems) |}
     end).

(** The body of the inner loop of syncCart once the quantity is known
    to be positive: look the line up, keep the larger quantity or
    insert. *)
Definition mergeUpsert (u pid : Z) (size : string) (quantity : Z) : M unit :=
  let* existingItem := selectCartLine fails u pid size in
  match existingItem with
  | existing :: _ =>
      let newQuantity := Z.max (c_quantity existing) quantity in
      updateCartQuantity fails (c_id existing) newQuantity
  | [] => insertCartLine fails u pid quantity size
  end.

Fixpoint syncSizes (u pid : Z) (sizes : SizeMap) : M unit :=
  match sizes with
  | [] => ret tt
  | (size, quantity) :: rest =>
      if quantity <=? 0 then syncSizes u pid rest
      else
        let* _ := mergeUpsert u pid size quantity in
        syncSizes u pid rest
  end.

Fixpoint syncProducts (u : Z) (cartItems : Snapshot) : M unit :=
  match cartItems with
  | [] => ret tt
  | (productId, sizes) :: rest =>
      match Js.parseInt productId with
      | None => syncProducts u rest
      | Some productIdNum =>
          let* productExists := selectProductById fails productIdNum in
          match productExists with
          | [] => syncProducts u rest
          | _ :: _ =>
              let* _ := syncSizes u productIdNum sizes in
              syncProducts u rest
          end
      end
  end.

Definition syncCart : Handler := fun req =>
  tryCatch "Error syncing cart"
    (let userId := Js.orNum (body_userId req) (user_id req) in
     match Js.asTruthy userId with
     | None => ret (failure 401 "Authentication required")
     | Some u =>
         match body_cartItems req with
         | CartItemsMissing | CartItemsScalar =>
             ret (failure 400 "Valid cart data required")
         | CartItemsObject cartItems =>
             let* _ := syncProducts u cartItems in
             let* updatedCart := selectCartOfUser fails u in
             ret (okMessage 200 "Cart synced successfully"
                    (CartData (toFrontend updatedCart)))
         end
     end).

Fixpoint saveSizes (u pid : Z) (sizes : SizeMap) : M unit :=
  match sizes with
  | [] => ret tt
  | (size, quantity) :: rest =>
      if 0 <? quantity then
        let* _ := insertCartLine fails u pid quantity size in
        saveSizes u pid rest
      else saveSizes u pid rest
  end.

Fixpoint saveProducts (u : Z) (cartItems : Snapshot) : M unit :=
  match cartItems with
  | [] => ret tt
  | (productId, sizes) :: rest =>
      match Js.parseInt productId with
      | None => saveProducts u rest
      | Some productIdNum =>
          let* _ := saveSizes u productIdNum sizes in
          saveProducts u rest
      end
  end.

Definition saveCart : Handler := fun req =>
  tryCatch "Error saving cart"
    (let userId := Js.orNum (body_userId req) (user_id req) in
     match Js.asTruthy userId with
     | None => ret (failure 401 "Authentication required")
     | Some u =>
         match body_cartItems req with
         | CartItemsMissing | CartItemsScalar =>
             ret (failure 400 "Valid cart data required")
         | CartItemsObject cartItems =>
             let* _ := deleteCartOfUser fails u in
             let* _ := saveProducts u cartItems in
             ret (okMessage 200 "Cart saved successfully" NoData)
         end
     end).

Definition clearCart : Handler := fun req =>
  tryCatch "Error clearing cart"
    (let userId := Js.orNum (body_userId req) (user_id req) in
     match Js.asTruthy userId with
     | None => ret (failure 401 "Authentication required")
     | Some u =>
         let* _ := deleteCartOfUser fails u in
         ret (okMessage 200 "Cart cleared successfully" NoData)
     end).

End Handlers.
End CartController.

(** ** syncCart with the row of [limit(1)] left open *)
Module AnyRow.
Import Schema Http CartController.

(** What [limit(1)] without [orderBy] may return: nothing when no row
    matches, and otherwise one of the matching rows, whichever. *)
Definition legalLimit (limit1 : list CartRow -> list CartRow) : Prop :=
  limit1 [] = [] ∧ ∀ l, l ≠ [] → ∃ x, x ∈ l ∧ limit1 l = [x].


(** A choice other than the first row: the row with the smallest
    quantity, the first of them among equals. *)
Fixpoint fewest (l : list CartRow) : list CartRow :=
  match l with
  | [] => []
  | x :: rest =>
      match fewest rest with
      | [] => [x]
      | y :: _ => if c_quantity x <=? c_quantity y then [x] else [y]
      end
  end.

Section Handlers.
Variable fails : StorageOp -> bool.
Variable limit1 : list CartRow -> list CartRow.

(** select().from(cart).where(and(userId, productId, size)).limit(1) *)
Definition selectCartLine (u pid : Z) (size : string) : M (list CartRow) :=
  statement fails (SelectCartLine u pid size)
    (fun db =>
       (Ok (limit1 (filter (fun r => c_userId r = u ∧ c_productId r = pid
                                     ∧ c_size r = Some size) (cart db))), db)).

Definition mergeUpsert (u pid : Z) (size : string) (quantity : Z) : M unit :=
  let* existingItem := selectCartLine u pid size in
  match existingItem with
  | existing :: _ =>
      let newQuantity := Z.max (c_quantity existing) quantity in
      updateCartQuantity fails (c_id existing) newQuantity
  | [] => insertCartLine fails u pid quantity size
  end.

Fixpoint syncSizes (u pid : Z) (sizes : SizeMap) : M unit :=
  match sizes with
  | [] => ret tt
  | (size, quantity) :: rest =>
      if quantity <=? 0 then syncSizes u pid rest
      else
        let* _ := mergeUpsert u pid size quantity in
        syncSizes u pid rest
  end.

Fixpoint syncProducts (u : Z) (cartItems : Snapshot) : M unit :=
  match cartItems with
  | [] => ret tt
  | (productId, sizes) :: rest =>
      match Js.parseInt productId with
      | None => syncProducts u rest
      | Some productIdNum =>
          let* productExists := selectProductById fails productIdNum in
          match productExists with
          | [] => syncProducts u rest
          | _ :: _ =>
              let* _ := syncSizes u productIdNum sizes in
              syncProducts u rest
          end
      end
  end.

(** POST /cart/sync, as [CartController.syncCart] but for the row the
    lookup of an existing line returns. *)
Definition syncCart : Handler := fun req =>
  tryCatch "Error syncing cart"
    (let userId := Js.orNum (body_userId req) (user_id req) in
     match Js.asTruthy userId with
     | None => ret (failure 401 "Authentication required")
     | Some u =>
         match body_cartItems req with
         | CartItemsMissing | CartItemsScalar =>
             ret (failure 400 "Valid cart data required")
         | CartItemsObject cartItems =>
             let* _ := syncProducts u cartItems in
             let* updatedCart := selectCartOfUser fails u in
             ret (okMessage 200 "Cart synced successfully"
                    (CartData (toFrontend updatedCart)))
         end
     end).

End Handlers.
End AnyRow.

(** ** controllers/v1/order.controller.ts *)
Module OrderController.
Import Schema Http.

(** An element of [orderItemsData]. *)
Record ItemData := {
  productId : Z;
  quantity : Z;
  price : Z;
  size : string
}.

Definition doubleQuote : string := String (ascii_of_nat 34) EmptyString.

Definition outOfStockMessage (name : string) : string :=
  "Product " +:+ doubleQuote +:+ name +:+ doubleQuote +:+ " is out of stock".

(** The inner loop of createOrder: stage one line per positive quantity. *)
Fixpoint stageSizes (pid unitPrice : Z) (sizes : SizeMap)
    (acc : Z * list ItemData) : Z * list ItemData :=
  match sizes with
  | [] => acc
  | (sz, q) :: rest =>
      if 0 <? q then
        let itemTotal := unitPrice * q in
        stageSizes pid unitPrice rest
          (acc.1 + itemTotal,
           (acc.2 ++ [{| productId := pid; quantity := q;
                         price := unitPrice; size := sz |}])%list)
      else stageSizes pid unitPrice rest acc
  end.

Definition validStatuses : list string :=
  ["pending"; "processing"; "shipped"; "delivered"; "cancelled"].

Section Handlers.
Variable fails : StorageOp -> bool.

(** The outer loop of createOrder; [inl] is the response of the
    [return] inside the loop. *)
Fixpoint assemble (cartItems : Snapshot) (acc : Z * list ItemData)
    : M (Response + Z * list ItemData) :=
  match cartItems with
  | [] => ret (inr acc)
  | (key, sizes) :: rest =>
      match Js.parseInt key with
      | None => assemble rest acc
      | Some productIdNum =>
          let* product := selectProductById fails productIdNum in
          match product with
          | [] => assemble rest acc
          | productData :: _ =>
              if negb (Js.truthyBool (p_inStock productData))
              then ret (inl (failure 400 (outOfStockMessage (p_name productData))))
              else assemble rest
                     (stageSizes productIdNum (p_price productData) sizes acc)
          end
      end
  end.

Definition guestInfoIncomplete (guestInfo : option GuestInfo) : bool :=
  match guestInfo with
  | Some g =>
      negb (Js.truthyStr (g_name g)) || negb (Js.truthyStr (g_email g))
      || negb (Js.truthyStr (g_phone g))
  | None => false
  end.

(** createOrder from "Validate and calculate total" on: what runs
    once the four checks on the request have passed. *)
Definition assembleAndCommit (userId : option Z) (guestInfo : option GuestInfo)
    (cartItems : Snapshot) (shippingAddress : ShippingAddress) : M Response :=
  let* staged := assemble cartItems (0, []) in
  match staged with
  | inl early => ret early
  | inr (totalAmount, orderItemsData) =>
      if bool_decide (length orderItemsData = 0%nat)
      then ret (failure 400 "No valid items in cart")
      else
        let* newOrder :=
          insertOrder fails (Js.asTruthy userId) totalAmount
            (Some shippingAddress) guestInfo in
        match newOrder with
        | [] => ret (failure 500 "Failed to create order")
        | order :: _ =>
            let orderId := o_id order in
            let* insertedItems :=
              promiseAll
                ((fun item =>
                    insertOrderItem fails orderId (productId item)
                      (quantity item) (price item) (size item))
                   <$> orderItemsData) in
            let* _ :=
              match Js.asTruthy userId with
              | Some u => deleteCartOfUser fails u
              | None => ret tt
              end in
            ret (okMessage 201 "Order created successfully"
                   (OrderData order (head <$> insertedItems)))
        end
  end.

Definition createOrder : Handler := fun req =>
  tryCatch "Error creating order"
    (let userId := Js.orNum (body_userId req) (user_id req) in
     let guestInfo := body_guestInfo req in
     if negb (Js.truthyNum userId) && negb (bool_decide (is_Some guestInfo))
     then ret (failure 400
            "Guest information (name, email, phone) is required for guest checkout")
     else if guestInfoIncomplete guestInfo
     then ret (failure 400 "Guest name, email, and phone are required")
     else
       match body_cartItems req with
       | CartItemsMissing | CartItemsScalar =>
           ret (failure 400 "Cart items are required")
       | CartItemsObject cartItems =>
           match body_shippingAddress req with
           | None => ret (failure 400 "Shipping address is required")
           | Some shippingAddress =>
               assembleAndCommit userId guestInfo cartItems shippingAddress
           end
       end).

Definition updateOrderStatus : Handler := fun req =>
  tryCatch "Error updating order"
    (if negb (Js.truthyStr (params_id req))
     then ret (failure 400 "Order ID is required")
     else
       match Js.parseInt (default EmptyString (params_id req)) with
       | None => ret (failure 400 "Invalid order ID")
       | Some orderId =>
           match body_status req with
           | None => ret (failure 400 "Status is required")
           | Some st =>
               if String.eqb st EmptyString
               then ret (failure 400 "Status is required")
               else if negb (bool_decide (st ∈ validStatuses))
               then ret (failure 400 "Invalid status")
               else
                 let* existingOrder := selectOrderById fails orderId in
                 match existingOrder with
                 | [] => ret (failure 404 "Order not found")
                 | _ :: _ =>
                     let* updatedOrder := updateOrderStatusById fails orderId st in
                     ret (okMessage 200 "Order status updated successfully"
                            (OrderRow (head updatedOrder)))
                 end
           end
       end).

End Handlers.
End OrderController.

(** ** The error taxonomy and the contracts the handlers are compared with *)
Module Spec.
Import Schema Http.

Definition noFaults : StorageOp -> bool := fun _ => false.

(** The owner a request acts for: [req.body.userId || req.user?.id],
    when that value is truthy. *)
Definition ownerOf (req : Request) : option Z :=
  Js.asTruthy (Js.orNum (body_userId req) (user_id req)).

Definition guestRequired : string :=
  "Guest information (name, email, phone) is required for guest checkout".
Definition guestIncomplete : string := "Guest name, email, and phone are required".
Definition cartRequired : string := "Cart items are required".
Definition addressRequired : string := "Shipping address is required".
Definition emptyCart : string := "No valid items in cart".

(** The messages of the ValidationFailed class of checkout. *)
Definition validationMessages : list string :=
  [guestRequired; guestIncomplete; cartRequired; addressRequired].

Definition guestComplete (g : GuestInfo) : Prop :=
  Js.truthyStr (g_name g) = true ∧ Js.truthyStr (g_email g) = true
  ∧ Js.truthyStr (g_phone g) = true.

(** The precondition checks of checkout in the order they are made: the
    message of the first one that fails. *)
Definition firstFailedPrecondition (req : Request) : option string :=
  match ownerOf req, body_guestInfo req with
  | None, None => Some guestRequired
  | _, guest =>
      if OrderController.guestInfoIncomplete guest then Some guestIncomplete
      else
        match body_cartItems req with
        | CartItemsMissing | CartItemsScalar => Some cartRequired
        | CartItemsObject _ =>
            match body_shippingAddress req with
            | None => Some addressRequired
            | Some _ => None
            end
        end
  end.

(** The transition relation of the order status:
    pending -> processing | cancelled, processing -> shipped | cancelled,
    shipped -> delivered; delivered and cancelled are terminal. *)
Definition allowedTransition (from to : string) : bool :=
  bool_decide ((from, to) ∈
    [("pending", "processing"); ("pending", "cancelled");
     ("processing", "shipped"); ("processing", "cancelled");
     ("shipped", "delivered")]).

(** The catalog entry a product id resolves to. *)
Definition findById (catalog : list Product) (pid : Z) : option Product :=
  head (filter (fun p => p_id p = pid) catalog).

(** The first product of the snapshot, in enumeration order, that is in
    the catalog with a stock flag that is not true. *)
Fixpoint firstOutOfStock (catalog : list Product) (items : Snapshot) : option Product :=
  match items with
  | [] => None
  | (key, _) :: rest =>
      match Js.parseInt key with
      | None => firstOutOfStock catalog rest
      | Some pid =>
          match findById catalog pid with
          | None => firstOutOfStock catalog rest
          | Some p =>
              if Js.truthyBool (p_inStock p) then firstOutOfStock catalog rest
              else Some p
          end
      end
  end.

(** A product of the snapshot that the catalog knows and that is not in
    stock. *)
Definition outOfStockIn (catalog : list Product) (items : Snapshot) (p : Product) : Prop :=
  ∃ key sizes, (key, sizes) ∈ items ∧ Js.parseInt key = Some (p_id p)
               ∧ findById catalog (p_id p) = Some p
               ∧ Js.truthyBool (p_inStock p) = false.

(** Order atomicity, both directions. *)
Definition everyOrderHasLines (db : DB) : Prop :=
  ∀ o, o ∈ orders db → ∃ l, l ∈ orderItems db ∧ oi_orderId l = o_id o.

Definition everyLineHasOrder (db : DB) : Prop :=
  ∀ l, l ∈ orderItems db → ∃ o, o ∈ orders db ∧ o_id o = oi_orderId l.

(** The stored cart as a mapping: the quantity of the line the store
    returns for (owner, product, size). *)
Definition lineOf (rows : list CartRow) (u pid : Z) (size : string) : option CartRow :=
  head (filter (fun r => c_userId r = u ∧ c_productId r = pid ∧ c_size r = Some size) rows).

Definition quantityOf (rows : list CartRow) (u pid : Z) (size : string) : option Z :=
  c_quantity <$> lineOf rows u pid size.

End Spec.

(** ** The cart merge as a function on the cart table *)
Module MergeModel.
Import Schema Http Spec.

(** A valid incoming entry: product id, size label, quantity. *)
Abbreviation Entry := (Z * string * Z)%type.

(** The cart table with its serial. *)
Abbreviation CartState := (list CartRow * Z)%type.

Definition cartState (db : DB) : CartState := (cart db, cart_seq db).

Definition setCart (st : CartState) (db : DB) : DB := with_cart st.1 st.2 db.

(** The row update of [updateCartQuantity]. *)
Definition keepLarger (id m : Z) (x : CartRow) : CartRow :=
  if decide (c_id x = id) then set_quantity m x else x.

(** What [mergeUpsert] does to the cart table when no statement fails. *)
Definition mergeRows (u : Z) (e : Entry) (st : CartState) : CartState :=
  let '(pid, sz, q) := e in
  match lineOf st.1 u pid sz with
  | Some r => (keepLarger (c_id r) (Z.max (c_quantity r) q) <$> st.1, st.2)
  | None =>
      (st.1 ++ [{| c_id := st.2; c_userId := u; c_productId := pid;
                   c_quantity := q; c_size := Some sz |}], st.2 + 1)
  end.

Definition mergeAll (u : Z) (es : list Entry) (st : CartState) : CartState :=
  foldl (fun acc e => mergeRows u e acc) st es.

(** The entries of one product that the inner loop of syncCart merges. *)
Definition positiveSizes (pid : Z) (sizes : SizeMap) : list Entry :=
  (fun e => (pid, e.1, e.2)) <$> filter (fun e => 0 < e.2) sizes.

(** The entries of a snapshot that syncCart merges, in order: the key
    parses, the product is in the catalog, the quantity is positive. *)
Fixpoint validEntries (catalog : list Product) (items : Snapshot) : list Entry :=
  match items with
  | [] => []
  | (key, sizes) :: rest =>
      match Js.parseInt key with
      | None => validEntries catalog rest
      | Some pid =>
          match findById catalog pid with
          | None => validEntries catalog rest
          | Some _ => positiveSizes pid sizes ++ validEntries catalog rest
          end
      end
  end.

(** Primary key and serial of a cart table. *)
Definition keysFresh (st : CartState) : Prop :=
  NoDup (c_id <$> st.1) ∧ ∀ r, r ∈ st.1 → c_id r < st.2.



(** What a cart line says: owner, product, size, quantity. *)
Abbreviation Line := (Z * Z * option string * Z)%type.




(** Merges for several owners, one after the other. *)
Definition mergeTagged (tes : list (Z * Entry)) (st : CartState) : CartState :=
  foldl (fun acc te => mergeRows te.1 te.2 acc) st tes.



End MergeModel.

(** ** Sample data *)
Module Fixtures.
Import Schema Http Spec.

Definition shirt : Product :=
  {| p_id := 1; p_name := "Kente shirt"; p_price := 5000; p_inStock := Some true |}.
Definition sandals : Product :=
  {| p_id := 2; p_name := "Sandals"; p_price := 1200; p_inStock := Some false |}.
Definition basket : Product :=
  {| p_id := 3; p_name := "Bolga basket"; p_price := 800; p_inStock := Some false |}.

Definition line1 : CartRow :=
  {| c_id := 1; c_userId := 1; c_productId := 1; c_quantity := 1; c_size := Some "S" |}.

Definition accra : ShippingAddress :=
  {| homeAddress := "123 Main St"; city := "Accra"; regionOrState := "Greater Accra";
     country := "Ghana"; zipCode := "00233" |}.

Definition john : GuestInfo :=
  {| g_name := Some "John Doe"; g_email := Some "john@example.com";
     g_phone := Some "+233123456789" |}.

Definition delivered1 : Order :=
  {| o_id := 1; o_userId := Some 1; o_totalAmount := 5000;
     o_status := Some "delivered"; o_shippingAddress := Some accra;
     o_guestInfo := None; o_paymentStatus := Some "paid" |}.

Definition item1 : OrderItem :=
  {| oi_id := 1; oi_orderId := 1; oi_productId := 1; oi_quantity := 1;
     oi_price := 5000; oi_size := Some "S" |}.

(** Two users, three products, user 1 holds one shirt of size S. *)
Definition shop : DB :=
  {| users := [1; 2]; products := [shirt; sandals; basket];
     cart := [line1]; cart_seq := 2;
     orders := []; orders_seq := 1;
     orderItems := []; orderItems_seq := 1 |}.

(** The same shop after a first, delivered, order. *)
Definition shopWithOrder : DB :=
  {| users := [1; 2]; products := [shirt; sandals; basket];
     cart := [line1]; cart_seq := 2;
     orders := [delivered1]; orders_seq := 2;
     orderItems := [item1]; orderItems_seq := 2 |}.

Definition request (bodyUser authUser : option Z) (items : CartItemsField)
    (address : option ShippingAddress) (guest : option GuestInfo) : Request :=
  {| body_userId := bodyUser; user_id := authUser; body_cartItems := items;
     body_shippingAddress := address; body_guestInfo := guest;
     body_status := None; params_id := None |}.

Definition statusRequest (id : string) (st : string) : Request :=
  {| body_userId := None; user_id := None; body_cartItems := CartItemsMissing;
     body_shippingAddress := None; body_guestInfo := None;
     body_status := Some st; params_id := Some id |}.

(** Oracles that fail one kind of statement. *)
Definition failItemInserts : StorageOp -> bool :=
  fun op => match op with InsertOrderItem _ _ _ => true | _ => false end.

Definition failCartDeleteOf (u : Z) : StorageOp -> bool :=
  fun op => match op with DeleteCartOfUser v => bool_decide (v = u) | _ => false end.

End Fixtures.

(** ** The other handlers: getOrderById, updatePaymentStatus, getProductById *)
Module Queries.
Import Schema Http.

(** The statements these handlers issue beside those of [StorageOp]. *)
Inductive QueryOp :=
| SelectOrderOfUser (id u : Z)
| SelectOrdersOfUser (u : Z)
| SelectItemsOfOrder (id : Z)
| UpdateOrderPayment (id : Z).

(** A row of the join of order_items with products made by getOrderById;
    the image list of the product is not modelled. *)
Record ItemView := {
  iv_id : Z;
  iv_productId : Z;
  iv_quantity : Z;
  iv_price : Z;
  iv_size : option string;
  iv_productName : option string
}.

(** [{ ...order[0], items }] *)
Record OrderView := {
  ov_order : Order;
  ov_items : list ItemView
}.

(** The body of the answer of getUserOrders: [count] and [data]. *)
Record OrderList := {
  ol_count : nat;
  ol_data : list OrderView
}.

(** A response whose payload is of type [D]. *)
Record Reply (D : Type) := {
  rp_status : Z;
  rp_success : bool;
  rp_message : option string;
  rp_data : option D
}.
Arguments rp_status {D} _.
Arguments rp_success {D} _.
Arguments rp_message {D} _.
Arguments rp_data {D} _.

Definition refuse {D} (code : Z) (msg : string) : Reply D :=
  {| rp_status := code; rp_success := false; rp_message := Some msg; rp_data := None |}.

Definition found {D} (d : D) : Reply D :=
  {| rp_status := 200; rp_success := true; rp_message := None; rp_data := Some d |}.

(** [try { body } catch (error) { res.status(500).json(...) }] *)
Definition tryCatchReply {D} (msg : string) (body : M (Reply D)) (db : DB)
    : Reply D * DB :=
  match body db with
  | (Ok r, db') => (r, db')
  | (Thrown e, db') => (refuse 500 msg, db')
  end.

Definition set_paymentStatus (s : option string) (o : Order) : Order :=
  {| o_id := o_id o; o_userId := o_userId o; o_totalAmount := o_totalAmount o;
     o_status := o_status o; o_shippingAddress := o_shippingAddress o;
     o_guestInfo := o_guestInfo o; o_paymentStatus := s |}.

Definition itemView (l : OrderItem) (name : option string) : ItemView :=
  {| iv_id := oi_id l; iv_productId := oi_productId l; iv_quantity := oi_quantity l;
     iv_price := oi_price l; iv_size := oi_size l; iv_productName := name |}.

(** The rows a left join gives for one order line: one per product with
    the id of the line, or one with no product. *)
Definition joinProduct (catalog : list Product) (l : OrderItem) : list ItemView :=
  match filter (fun p => p_id p = oi_productId l) catalog with
  | [] => [itemView l None]
  | ps => (fun p => itemView l (Some (p_name p))) <$> ps
  end.

Definition validPaymentStatuses : list string := ["pending"; "paid"; "failed"].

Section Handlers.
Variable fails : StorageOp -> bool.
Variable failsQ : QueryOp -> bool.

(** [orderBy(desc(orders.createdAt))]: the creation time is not a column
    of the model, so the order the rows come back in is left open. *)
Variable newestFirst : list Order -> list Order.

Definition query {A} (op : QueryOp) (run : M A) : M A :=
  fun db => if failsQ op then (Thrown storageUnavailable, db) else run db.

(** select().from(orders)
      .where(and(eq(orders.id, id), eq(orders.userId, u))).limit(1) *)
Definition selectOrderOfUser (id u : Z) : M (list Order) :=
  query (SelectOrderOfUser id u)
    (fun db =>
       (Ok (take 1 (filter (fun o => o_id o = id ∧ o_userId o = Some u) (orders db))),
        db)).

(** select({...}).from(orderItems)
      .leftJoin(products, eq(orderItems.productId, products.id))
      .where(eq(orderItems.orderId, id)) *)
Definition selectItemsOfOrder (id : Z) : M (list ItemView) :=
  query (SelectItemsOfOrder id)
    (fun db =>
       (Ok (filter (fun l => oi_orderId l = id) (orderItems db)
              ≫= joinProduct (products db)), db)).

(** update(orders).set({ paymentStatus, updatedAt: new Date() })
      .where(eq(orders.id, id)).returning().  The timestamps are not
    columns of [Order]: of the two columns written, only [paymentStatus]
    is kept. *)
Definition updateOrderPaymentById (id : Z) (s : string) : M (list Order) :=
  query (UpdateOrderPayment id)
    (fun db =>
       let rows := (fun o => if decide (o_id o = id)
                             then set_paymentStatus (Some s) o else o) <$> orders db in
       (Ok (filter (fun o => o_id o = id) rows),
        with_orders rows (orders_seq db) db)).

(** GET /orders/:id *)
Definition getOrderById (req : Request) : DB -> Reply OrderView * DB :=
  tryCatchReply "Error fetching order"
    (let userId := Js.orNum (body_userId req) (user_id req) in
     match Js.asTruthy userId with
     | None => ret (refuse 401 "Authentication required")
     | Some u =>
         if negb (Js.truthyStr (params_id req))
         then ret (refuse 400 "Order ID is required")
         else
           match Js.parseInt (default EmptyString (params_id req)) with
           | None => ret (refuse 400 "Invalid order ID")
           | Some orderId =>
               let* order := selectOrderOfUser orderId u in
               match order with
               | [] => ret (refuse 404 "Order not found")
               | order0 :: _ =>
                   let* items := selectItemsOfOrder orderId in
                   ret (found {| ov_order := order0; ov_items := items |})
               end
           end
     end).

(** select().from(orders).where(eq(orders.userId, u))
      .orderBy(desc(orders.createdAt)) *)
Definition selectOrdersOfUser (u : Z) : M (list Order) :=
  query (SelectOrdersOfUser u)
    (fun db => (Ok (newestFirst (filter (fun o => o_userId o = Some u) (orders db))), db)).

(** GET /orders *)
Definition getUserOrders (req : Request) : DB -> Reply OrderList * DB :=
  tryCatchReply "Error fetching orders"
    (let userId := Js.orNum (body_userId req) (user_id req) in
     match Js.asTruthy userId with
     | None => ret (refuse 401 "Authentication required")
     | Some u =>
         let* userOrders := selectOrdersOfUser u in
         let* ordersWithItems :=
           promiseAll
             ((fun order =>
                 let* items := selectItemsOfOrder (o_id order) in
                 ret {| ov_order := order; ov_items := items |})
                <$> userOrders) in
         ret (found {| ol_count := length ordersWithItems;
                       ol_data := ordersWithItems |})
     end).

(** PUT /orders/:id/payment; [paymentStatus] is [req.body.paymentStatus]. *)
Definition updatePaymentStatus (paymentStatus : option string) : Handler := fun req =>
  tryCatch "Error updating payment status"
    (if negb (Js.truthyStr (params_id req))
     then ret (failure 400 "Order ID is required")
     else
       match Js.parseInt (default EmptyString (params_id req)) with
       | None => ret (failure 400 "Invalid order ID")
       | Some orderId =>
           if negb (Js.truthyStr paymentStatus)
           then ret (failure 400 "Payment status is required")
           else
             let st := default EmptyString paymentStatus in
             if negb (bool_decide (st ∈ validPaymentStatuses))
             then ret (failure 400 "Invalid payment status")
             else
               let* updatedOrder := updateOrderPaymentById orderId st in
               match updatedOrder with
               | [] => ret (failure 404 "Order not found")
               | _ :: _ =>
                   ret (okMessage 200 "Payment status updated successfully"
                          (OrderRow (head updatedOrder)))
               end
       end).

(** GET /products/:id (product.controller.ts); [parseInt] of a missing
    id is [NaN]. *)
Definition getProductById (req : Request) : DB -> Reply Product * DB :=
  tryCatchReply "Error fetching products"
    (match params_id req ≫= Js.parseInt with
     | None => ret (refuse 400 "Invalid product ID")
     | Some productId =>
         let* product := selectProductById fails productId in
         match product with
         | [] => ret (refuse 404 "Product not found")
         | product0 :: _ => ret (found product0)
         end
     end).

End Handlers.
End Queries.

(** ** The orders table with its [updatedAt] column

    [Order] keeps no time stamps.  updateOrderStatus and
    updatePaymentStatus are the only handlers that write one: they set
    [updatedAt] to [new Date()] in the rows they update.  Here the store
    is paired with that column, row for row in the order of the table,
    and the two handlers are written over the pair; [now] is the time
    [new Date()] reads. *)
Module Stamped.
Import Schema Http Queries.

Record Store := {
  plain : DB;
  orders_updatedAt : list Z
}.

(** The rows of the orders table, each with its [updatedAt]. *)
Definition rowsOf (s : Store) : list (Order * Z) :=
  zip (orders (plain s)) (orders_updatedAt s).

(** Every order has its [updatedAt]. *)
Definition wellStamped (s : Store) : Prop :=
  length (orders_updatedAt s) = length (orders (plain s)).

Definition SM (A : Type) : Type := Store -> Result A * Store.

Definition ret {A} (a : A) : SM A := fun s => (Ok a, s).

Definition bind {A B} (m : SM A) (k : A -> SM B) : SM B :=
  fun s =>
    match m s with
    | (Ok a, s') => k a s'
    | (Thrown e, s') => (Thrown e, s')
    end.

(** A statement that does not write [updatedAt]. *)
Definition lift {A} (m : M A) : SM A :=
  fun s =>
    let r := m (plain s) in
    (r.1, {| plain := r.2; orders_updatedAt := orders_updatedAt s |}).

(** The column after [set({ ..., updatedAt: now }).where(eq(orders.id, id))]:
    the rows with that id get [now]. *)
Fixpoint touch (id now : Z) (rows : list Order) (stamps : list Z) : list Z :=
  match rows, stamps with
  | o :: rows', t :: stamps' =>
      (if decide (o_id o = id) then now else t) :: touch id now rows' stamps'
  | _, _ => stamps
  end.

(** An update statement of the plain store that also sets [updatedAt] in
    the rows with id [id]; a rejected statement writes nothing. *)
Definition stamping {A} (id now : Z) (m : M A) : SM A :=
  fun s =>
    match m (plain s) with
    | (Ok a, db') =>
        (Ok a, {| plain := db';
                  orders_updatedAt :=
                    touch id now (orders (plain s)) (orders_updatedAt s) |})
    | (Thrown e, db') =>
        (Thrown e, {| plain := db'; orders_updatedAt := orders_updatedAt s |})
    end.

(** [try { body } catch (error) { res.status(500).json(...) }] *)
Definition tryCatch (msg : string) (body : SM Response) (s : Store) : Response * Store :=
  match body s with
  | (Ok r, s') => (r, s')
  | (Thrown e, s') => (internalError msg e, s')
  end.

Section Handlers.
Variable fails : StorageOp -> bool.
Variable failsQ : QueryOp -> bool.
Variable now : Z.

(** update(orders).set({ status, updatedAt: new Date() })
      .where(eq(orders.id, id)).returning() *)
Definition updateOrderStatusById (id : Z) (st : string) : SM (list Order) :=
  stamping id now (Schema.updateOrderStatusById fails id st).

(** update(orders).set({ paymentStatus, updatedAt: new Date() })
      .where(eq(orders.id, id)).returning() *)
Definition updateOrderPaymentById (id : Z) (st : string) : SM (list Order) :=
  stamping id now (Queries.updateOrderPaymentById failsQ id st).

(** PUT /orders/:id/status *)
Definition updateOrderStatus (req : Request) : Store -> Response * Store :=
  tryCatch "Error updating order"
    (if negb (Js.truthyStr (params_id req))
     then ret (failure 400 "Order ID is required")
     else
       match Js.parseInt (default EmptyString (params_id req)) with
       | None => ret (failure 400 "Invalid order ID")
       | Some orderId =>
           match body_status req with
           | None => ret (failure 400 "Status is required")
           | Some st =>
               if String.eqb st EmptyString
               then ret (failure 400 "Status is required")
               else if negb (bool_decide (st ∈ OrderController.validStatuses))
               then ret (failure 400 "Invalid status")
               else
                 bind (lift (selectOrderById fails orderId)) (fun existingOrder =>
                 match existingOrder with
                 | [] => ret (failure 404 "Order not found")
                 | _ :: _ =>
                     bind (updateOrderStatusById orderId st) (fun updatedOrder =>
                     ret (okMessage 200 "Order status updated successfully"
                            (OrderRow (head updatedOrder))))
                 end)
           end
       end).

(** PUT /orders/:id/payment; [paymentStatus] is [req.body.paymentStatus]. *)
Definition updatePaymentStatus (paymentStatus : option string) (req : Request)
    : Store -> Response * Store :=
  tryCatch "Error updating payment status"
    (if negb (Js.truthyStr (params_id req))
     then ret (failure 400 "Order ID is required")
     else
       match Js.parseInt (default EmptyString (params_id req)) with
       | None => ret (failure 400 "Invalid order ID")
       | Some orderId =>
           if negb (Js.truthyStr paymentStatus)
           then ret (failure 400 "Payment status is required")
           else
             let st := default EmptyString paymentStatus in
             if negb (bool_decide (st ∈ validPaymentStatuses))
             then ret (failure 400 "Invalid payment status")
             else
               bind (updateOrderPaymentById orderId st) (fun updatedOrder =>
               match updatedOrder with
               | [] => ret (failure 404 "Order not found")
               | _ :: _ =>
                   ret (okMessage 200 "Payment status updated successfully"
                          (OrderRow (head updatedOrder)))
               end)
       end).

End Handlers.
End Stamped.

(** ** What the loops compute, as functions of the catalog and the snapshot *)
Module Derived.
Import Schema Http Spec MergeModel OrderController.

(** What [assemble] stages when no product is out of stock and no lookup
    fails: the running total and the lines. *)
Fixpoint purchase (catalog : list Product) (items : Snapshot)
    (acc : Z * list ItemData) : Z * list ItemData :=
  match items with
  | [] => acc
  | (key, sizes) :: rest =>
      match Js.parseInt key with
      | None => purchase catalog rest acc
      | Some pid =>
          match findById catalog pid with
          | None => purchase catalog rest acc
          | Some p => purchase catalog rest (stageSizes pid (p_price p) sizes acc)
          end
      end
  end.

(** The sum of the line totals. *)
Definition linesTotal (lines : list ItemData) : Z :=
  foldr (fun it acc => price it * quantity it + acc) 0 lines.

Definition itemsTotal (lines : list OrderItem) : Z :=
  foldr (fun l acc => oi_price l * oi_quantity l + acc) 0 lines.


(** The cart row inserted for an entry. *)
Definition newLine (u : Z) (id : Z) (e : Entry) : CartRow :=
  {| c_id := id; c_userId := u; c_productId := e.1.1; c_quantity := e.2;
     c_size := Some e.1.2 |}.

(** Inserts, one after the other. *)
Definition appendLines (u : Z) (es : list Entry) (st : CartState) : CartState :=
  foldl (fun acc e => (acc.1 ++ [newLine u acc.2 e], acc.2 + 1)) st es.

(** Where getUserCart files a row: product key and size label. *)
Definition frontendKey (r : CartRow) : string * string :=
  (Js.toString (c_productId r), Js.orStr (c_size r) "default").

(** Reading the nested mapping. *)
Definition lookup2 (m : gmap string (gmap string Z)) (k s : string) : option Z :=
  m !! k ≫= (fun inner => inner !! s).

(** Primary keys and serials of the order tables. *)
Definition orderKeysFresh (db : DB) : Prop :=
  NoDup (o_id <$> orders db) ∧ (∀ o, o ∈ orders db → o_id o < orders_seq db)
  ∧ NoDup (oi_id <$> orderItems db)
  ∧ ∀ l, l ∈ orderItems db → oi_id l < orderItems_seq db.

(** At most one cart line per (owner, product, size), every size given
    and not empty. *)
Definition linesUnique (u : Z) (rows : list CartRow) : Prop :=
  (∀ r, r ∈ rows → c_userId r = u →
        ∃ sz, c_size r = Some sz ∧ sz ≠ EmptyString)
  ∧ ∀ r r', r ∈ rows → r' ∈ rows → c_userId r = u → c_userId r' = u →
            c_productId r = c_productId r' → c_size r = c_size r' → r = r'.

(** A snapshot read off a nested mapping, in any enumeration order. *)
Definition readOff (m : gmap string (gmap string Z)) (items : Snapshot) : Prop :=
  ∀ key sizes sz q, (key, sizes) ∈ items → (sz, q) ∈ sizes → lookup2 m key sz = Some q.

(** A staged line: positive quantity, price and stock read from the
    catalog. *)
Definition goodLine (catalog : list Product) (pid q unitPrice : Z) : Prop :=
  0 < q ∧ ∃ p, findById catalog pid = Some p ∧ unitPrice = p_price p
               ∧ Js.truthyBool (p_inStock p) = true.

(** The line a fulfilled insert returns, against the staged line. *)
Definition insertedAs (orderId : Z) (l : OrderItem) (it : ItemData) : Prop :=
  oi_orderId l = orderId ∧ oi_productId l = productId it
  ∧ oi_quantity l = quantity it ∧ oi_price l = price it
  ∧ oi_size l = Some (size it).

(** The status and the payment status of every order are among the
    values the handlers accept. *)
Definition statusesValid (db : DB) : Prop :=
  ∀ o, o ∈ orders db →
       (∃ st, o_status o = Some st ∧ st ∈ validStatuses)
       ∧ ∃ ps, o_paymentStatus o = Some ps ∧ ps ∈ Queries.validPaymentStatuses.

(** What the two update handlers read from a request: the order id, when
    there is one and it parses. *)
Definition targetOrder (req : Request) : option Z :=
  if Js.truthyStr (params_id req) then params_id req ≫= Js.parseInt else None.

(** The store after an accepted status update. *)
Definition withStatus (id : Z) (st : string) (db : DB) : DB :=
  with_orders ((fun o => if decide (o_id o = id) then set_status (Some st) o else o)
                 <$> orders db) (orders_seq db) db.

(** The store after an accepted payment-status update. *)
Definition withPayment (id : Z) (ps : string) (db : DB) : DB :=
  with_orders ((fun o => if decide (o_id o = id)
                         then Queries.set_paymentStatus (Some ps) o else o)
                 <$> orders db) (orders_seq db) db.

(** Everything but the cart table and its serial is the same. *)
Definition sameButCart (db db' : DB) : Prop :=
  users db' = users db ∧ products db' = products db
  ∧ orders db' = orders db ∧ orders_seq db' = orders_seq db
  ∧ orderItems db' = orderItems db ∧ orderItems_seq db' = orderItems_seq db.

(** The cart lines of one owner, in table order. *)
Definition cartOf (u : Z) (db : DB) : list CartRow :=
  filter (fun r => c_userId r = u) (cart db).

(** No row is lost and no quantity is lowered: every row is still there,
    with its id, owner, product and size, and a quantity that is at least
    what it was. *)
Definition cartGrows (rows rows' : list CartRow) : Prop :=
  ∀ r, r ∈ rows →
       ∃ r', r' ∈ rows' ∧ c_id r' = c_id r ∧ c_userId r' = c_userId r
             ∧ c_productId r' = c_productId r ∧ c_size r' = c_size r
             ∧ c_quantity r ≤ c_quantity r'.

(** What a cart statement issued for owner [u] may do to the store: the
    other tables stay, and on a cart table with a primary key the key
    stays and the lines of the other owners stay. *)
Definition cartStep (u : Z) (db db' : DB) : Prop :=
  sameButCart db db'
  ∧ (keysFresh (cartState db) →
     keysFresh (cartState db') ∧ ∀ u', u' ≠ u → cartOf u' db' = cartOf u' db).

(** A computation all of whose runs are cart steps for [u]. *)
Definition cartSteps {A} (u : Z) (m : M A) : Prop :=
  ∀ db, cartStep u db (m db).2.

(** A computation that never loses a line on a cart table with a primary
    key, and keeps the key. *)
Definition growing {A} (m : M A) : Prop :=
  ∀ db, keysFresh (cartState db) →
        keysFresh (cartState (m db).2) ∧ cartGrows (cart db) (cart (m db).2).

(** What the mapping of getUserCart shows under a product key and a size
    label: the quantity of the last row filed there. *)
Definition shown (rows : list CartRow) (k s : string) : option Z :=
  c_quantity <$> last (filter (fun r => frontendKey r = (k, s)) rows).




(** The primary keys of the cart, orders and order_items tables: row ids
    are distinct and below the serial of their table. *)
Definition keysOk (db : DB) : Prop := keysFresh (cartState db) ∧ orderKeysFresh db.

(** A computation that keeps a property of the store, whatever it
    returns. *)
Definition preserves {A} (I : DB -> Prop) (m : M A) : Prop :=
  ∀ db, I db → I (m db).2.

(** The item rows of one order, as both order views select them. *)
Definition itemsOf (db : DB) (id : Z) : list Queries.ItemView :=
  filter (fun l => oi_orderId l = id) (orderItems db) ≫= Queries.joinProduct (products db).

(** An order with its items. *)
Definition orderView (db : DB) (o : Order) : Queries.OrderView :=
  {| Queries.ov_order := o; Queries.ov_items := itemsOf db (o_id o) |}.

(** The same request with [req.params.id] set. *)
Definition withId (req : Request) (id : string) : Request :=
  {| body_userId := body_userId req; user_id := user_id req;
     body_cartItems := body_cartItems req;
     body_shippingAddress := body_shippingAddress req;
     body_guestInfo := body_guestInfo req;
     body_status := body_status req; params_id := Some id |}.

(** The same request with another snapshot in [req.body.cartItems]. *)
Definition withCart (req : Request) (items : Snapshot) : Request :=
  {| body_userId := body_userId req; user_id := user_id req;
     body_cartItems := CartItemsObject items;
     body_shippingAddress := body_shippingAddress req;
     body_guestInfo := body_guestInfo req;
     body_status := body_status req; params_id := params_id req |}.

(** No statement of [QueryOp] is rejected. *)
Definition noQueryFaults : Queries.QueryOp -> bool := fun _ => false.


(** The stamped store after an accepted status update at time [now]. *)
Definition statusStamped (id : Z) (st : string) (now : Z) (s : Stamped.Store)
    : Stamped.Store :=
  {| Stamped.plain := withStatus id st (Stamped.plain s);
     Stamped.orders_updatedAt :=
       Stamped.touch id now (orders (Stamped.plain s)) (Stamped.orders_updatedAt s) |}.

(** The stamped store after an accepted payment-status update at time
    [now]. *)
Definition paymentStamped (id : Z) (ps : string) (now : Z) (s : Stamped.Store)
    : Stamped.Store :=
  {| Stamped.plain := withPayment id ps (Stamped.plain s);
     Stamped.orders_updatedAt :=
       Stamped.touch id now (orders (Stamped.plain s)) (Stamped.orders_updatedAt s) |}.

(** [shopWithOrder] with the time its one order was last written. *)
Definition stampedShop (t : Z) : Stamped.Store :=
  {| Stamped.plain := Fixtures.shopWithOrder; Stamped.orders_updatedAt := [t] |}.

End Derived.

(** ** Basic facts about the primitives and the loops *)
Module Basics.
Import Schema Http Spec OrderController.

Lemma asTruthy_None v : Js.asTruthy v = None ↔ Js.truthyNum v = false.
Proof.
  unfold Js.asTruthy. destruct (Js.truthyNum v) eqn:E; [|done].
  destruct v; [split; discriminate | discriminate].
Qed.

Lemma asTruthy_Some v u : Js.asTruthy v = Some u → Js.truthyNum v = true ∧ v = Some u ∧ u ≠ 0.
Proof.
  unfold Js.asTruthy. destruct (Js.truthyNum v) eqn:E; [|discriminate].
  intros ->. repeat split. simpl in E. intros ->. discriminate.
Qed.

(** The statements of [assemble] only read: the store is left as found. *)
Lemma assemble_store fails items acc db :
  (assemble fails items acc db).2 = db.
Proof.
  revert acc. induction items as [|[key sizes] rest IH]; intros acc; [done|].
  simpl. destruct (Js.parseInt key) as [pid|]; [|apply IH].
  unfold bind, selectProductById, statement.
  destruct (fails (SelectProductById pid)); [done|].
  destruct (take 1 _) as [|pd ?]; [apply IH|].
  destruct (negb _); [done|apply IH].
Qed.

(** What [assemble] can answer from inside the loop: only the
    out-of-stock response. *)
Lemma assemble_early fails items acc db early db' :
  assemble fails items acc db = (Ok (inl early), db') →
  ∃ name, early = failure 400 (outOfStockMessage name).
Proof.
  revert acc. induction items as [|[key sizes] rest IH]; intros acc; [done|].
  simpl. destruct (Js.parseInt key) as [pid|]; [|apply IH].
  unfold bind, selectProductById, statement.
  destruct (fails (SelectProductById pid)); [done|].
  destruct (take 1 _) as [|pd ?]; [apply IH|].
  destruct (negb _); [|apply IH].
  intros [= <- <-]. by eexists.
Qed.

(** One order-line insert: rejected by the store, rejected by a foreign
    key (the serial is spent), or appended. *)
Lemma insertOrderItem_cases fails orderId pid q unitPrice sz db :
  let row := {| oi_id := orderItems_seq db; oi_orderId := orderId;
                oi_productId := pid; oi_quantity := q;
                oi_price := unitPrice; oi_size := Some sz |} in
  insertOrderItem fails orderId pid q unitPrice sz db
    = (Thrown storageUnavailable, db)
  ∨ insertOrderItem fails orderId pid q unitPrice sz db
    = (Thrown foreignKeyViolation,
       with_orderItems (orderItems db) (orderItems_seq db + 1) db)
  ∨ (orderId ∈ o_id <$> orders db
     ∧ insertOrderItem fails orderId pid q unitPrice sz db
       = (Ok [row],
          with_orderItems (orderItems db ++ [row]) (orderItems_seq db + 1) db)).
Proof.
  unfold insertOrderItem, statement. destruct (fails _); [by left|].
  destruct (hasOrder orderId db && hasProduct pid db) eqn:Hfk; [|by right; left].
  right; right. apply andb_true_iff in Hfk as [Hfk _].
  apply bool_decide_eq_true in Hfk. done.
Qed.

(** The order-line inserts issued under [Promise.all]: each one appends
    a line of the given order or leaves the table alone; nothing else in
    the store moves, and a fulfilled [Promise.all] has inserted them all. *)
Lemma promiseAll_items fails orderId (items : list ItemData) db :
  let run := promiseAll ((fun item =>
                 insertOrderItem fails orderId (productId item) (quantity item)
                   (price item) (size item)) <$> items) db in
  users run.2 = users db ∧ products run.2 = products db
  ∧ cart run.2 = cart db ∧ cart_seq run.2 = cart_seq db
  ∧ orders run.2 = orders db ∧ orders_seq run.2 = orders_seq db
  ∧ ∃ L, orderItems run.2 = orderItems db ++ L
         ∧ Forall (fun l => oi_orderId l = orderId) L
         ∧ (L ≠ [] → orderId ∈ o_id <$> orders db)
         ∧ (∀ rows, run.1 = Ok rows →
              rows = (fun l => [l]) <$> L ∧ length L = length items).
Proof.
  revert db. induction items as [|item rest IH]; intros db; simpl.
  { split_and!; try done. exists []. rewrite app_nil_r.
    split_and!; try done. by intros ? [= <-]. }
  destruct (insertOrderItem_cases fails orderId (productId item) (quantity item)
              (price item) (size item) db) as [E|[E|[Hin E]]]; rewrite E; clear E.
  - (* this insert is rejected, the remaining ones still run *)
    destruct (IH db) as (Hu & Hp & Hc & Hcs & Ho & Hos & L & HL & HF & HinL & _).
    simpl. split_and!; try done. exists L. split_and!; done.
  - set (db1 := with_orderItems _ _ db).
    destruct (IH db1) as (Hu & Hp & Hc & Hcs & Ho & Hos & L & HL & HF & HinL & _).
    simpl. split_and!; try done. exists L. split_and!; done.
  - set (row := {| oi_id := orderItems_seq db; oi_orderId := orderId;
                   oi_productId := productId item; oi_quantity := quantity item;
                   oi_price := price item; oi_size := Some (size item) |}).
    set (db1 := with_orderItems _ _ db).
    destruct (IH db1) as (Hu & Hp & Hc & Hcs & Ho & Hos & L & HL & HF & HinL & Hok).
    destruct (promiseAll _ db1) as [[rows|e] db2] eqn:Hrun; simpl in *.
    + split_and!; try done. exists (row :: L).
      rewrite HL, <- app_assoc. split_and!; try done.
      * by constructor.
      * intros ? [= <-]. destruct (Hok rows eq_refl) as [-> Hlen].
        simpl. by rewrite Hlen.
    + split_and!; try done. exists (row :: L).
      rewrite HL, <- app_assoc. split_and!; try done. by constructor.
Qed.


#[local] Arguments guestInfoIncomplete : simpl never.

(** A request stopped by one of the four checks. *)
Lemma createOrder_rejected fails req db msg :
  firstFailedPrecondition req = Some msg →
  createOrder fails req db = (failure 400 msg, db) ∧ msg ∈ validationMessages.
Proof.
  intros Hpre. unfold firstFailedPrecondition, ownerOf in Hpre.
  unfold createOrder, tryCatch.
  destruct (Js.asTruthy _) as [u|] eqn:Ho.
  - apply asTruthy_Some in Ho as (-> & _ & _). simpl.
    destruct (guestInfoIncomplete _).
    { injection Hpre as <-. split; [done|]. rewrite list_elem_of_In. simpl. tauto. }
    destruct (body_cartItems req);
      try (injection Hpre as <-; split; [done|]; rewrite list_elem_of_In; simpl; tauto).
    destruct (body_shippingAddress req); [discriminate|].
    injection Hpre as <-. split; [done|]. rewrite list_elem_of_In. simpl. tauto.
  - apply asTruthy_None in Ho as ->. simpl.
    destruct (body_guestInfo req) as [g|] eqn:Hg.
    + rewrite bool_decide_true by eauto. simpl.
      destruct (guestInfoIncomplete _).
      { injection Hpre as <-. split; [done|]. rewrite list_elem_of_In. simpl. tauto. }
      destruct (body_cartItems req);
        try (injection Hpre as <-; split; [done|]; rewrite list_elem_of_In; simpl; tauto).
      destruct (body_shippingAddress req); [discriminate|].
      injection Hpre as <-. split; [done|]. rewrite list_elem_of_In. simpl. tauto.
    + rewrite bool_decide_false by (intros [? ?]; discriminate). simpl.
      injection Hpre as <-. split; [done|]. rewrite list_elem_of_In. simpl. tauto.
Qed.

(** A request that passes the four checks reaches the assembly. *)
Lemma createOrder_accepted fails req db :
  firstFailedPrecondition req = None →
  ∃ items a,
    body_cartItems req = CartItemsObject items
    ∧ body_shippingAddress req = Some a
    ∧ OrderController.guestInfoIncomplete (body_guestInfo req) = false
    ∧ (ownerOf req = None → is_Some (body_guestInfo req))
    ∧ createOrder fails req db
      = tryCatch "Error creating order"
          (assembleAndCommit fails (Js.orNum (body_userId req) (user_id req))
             (body_guestInfo req) items a) db.
Proof.
  unfold firstFailedPrecondition, createOrder, ownerOf.
  intros Hpre.
  assert (Hguard : negb (Js.truthyNum (Js.orNum (body_userId req) (user_id req)))
                   && negb (bool_decide (is_Some (body_guestInfo req))) = false).
  { destruct (Js.asTruthy _) eqn:Ho.
    - apply asTruthy_Some in Ho as [-> _]. done.
    - destruct (body_guestInfo req) eqn:Hg; [|done].
      rewrite bool_decide_true by eauto. by rewrite andb_false_r. }
  rewrite Hguard.
  assert (Hinc : guestInfoIncomplete (body_guestInfo req) = false).
  { destruct (Js.asTruthy _), (body_guestInfo req);
      try done; by destruct (guestInfoIncomplete _). }
  rewrite Hinc.
  assert (Hguest : Js.asTruthy (Js.orNum (body_userId req) (user_id req)) = None
                   → is_Some (body_guestInfo req)).
  { intros Ho. rewrite Ho in Hpre. destruct (body_guestInfo req); [eauto|done]. }
  assert (∃ items a, body_cartItems req = CartItemsObject items
                     ∧ body_shippingAddress req = Some a) as (items & a & Hc & Ha).
  { destruct (Js.asTruthy _), (body_guestInfo req), (body_cartItems req),
      (body_shippingAddress req); rewrite ?Hinc in Hpre; try done; eauto. }
  exists items, a. rewrite Hc, Ha. done.
Qed.

Ltac other_message :=
  let X := fresh in
  rewrite !list_elem_of_In; intros X; vm_compute in X;
  destruct X as [X|[X|[X|[X|[]]]]]; discriminate X.

(** The message of a response of [createOrder] once the four checks
    have passed: never one of the validation messages. *)
Lemma createOrder_past_checks fails req db :
  firstFailedPrecondition req = None →
  message (createOrder fails req db).1 ∉ (Some <$> validationMessages).
Proof.
  intros Hpre.
  destruct (createOrder_accepted fails req db Hpre) as (items & a & _ & _ & _ & _ & ->).
  unfold tryCatch, assembleAndCommit, bind.
  destruct (assemble fails items (0, []) db) as [[[early|[total staged]]|e] db1] eqn:Ha;
    simpl.
  - apply assemble_early in Ha as [name ->]. simpl.
    unfold outOfStockMessage. other_message.
  - destruct (bool_decide (length staged = 0%nat)); simpl.
    { other_message. }
    destruct (insertOrder _ _ _ _ _ _) as [[[|o ?]|e] db2]; simpl.
    + other_message.
    + destruct (promiseAll _ db2) as [[inserted|e] db3]; simpl.
      * destruct (Js.asTruthy _) as [u|]; simpl; [|other_message].
        unfold deleteCartOfUser, statement.
        destruct (fails _); simpl; other_message.
      * other_message.
    + other_message.
  - other_message.
Qed.


(** The order-header insert: rejected by the store, rejected by the
    foreign key on the owner (the serial is spent), or appended. *)
Lemma insertOrder_cases fails userId total address guest db :
  let row := {| o_id := orders_seq db; o_userId := userId;
                o_totalAmount := total; o_status := Some "pending";
                o_shippingAddress := address; o_guestInfo := guest;
                o_paymentStatus := Some "pending" |} in
  insertOrder fails userId total address guest db = (Thrown storageUnavailable, db)
  ∨ insertOrder fails userId total address guest db
    = (Thrown foreignKeyViolation, with_orders (orders db) (orders_seq db + 1) db)
  ∨ insertOrder fails userId total address guest db
    = (Ok [row], with_orders (orders db ++ [row]) (orders_seq db + 1) db).
Proof.
  unfold insertOrder, statement. destruct (fails _); [by left|].
  destruct (match userId with Some u => hasUser u db | None => true end);
    [by right; right | by right; left].
Qed.

(** What a checkout that passed the four checks leaves behind: either the
    order tables and the cart are as before and the answer is not 201, or
    one header has been appended, followed by lines that all point to it;
    the answer is 201 exactly when every staged line was inserted and the
    owner's cart was cleared. *)
Lemma assembleAndCommit_outcome fails userId guest items a db :
  let run := tryCatch "Error creating order"
               (assembleAndCommit fails userId guest items a) db in
  users run.2 = users db ∧ products run.2 = products db
  ∧ ((orders run.2 = orders db ∧ orderItems run.2 = orderItems db
      ∧ cart run.2 = cart db ∧ status run.1 ≠ 201)
     ∨ ∃ total L,
         let o := {| o_id := orders_seq db; o_userId := Js.asTruthy userId;
                     o_totalAmount := total; o_status := Some "pending";
                     o_shippingAddress := Some a; o_guestInfo := guest;
                     o_paymentStatus := Some "pending" |} in
         orders run.2 = orders db ++ [o]
         ∧ orderItems run.2 = orderItems db ++ L
         ∧ Forall (fun l => oi_orderId l = o_id o) L
         ∧ (Js.asTruthy userId = None → cart run.2 = cart db)
         ∧ (status run.1 = 201 ∨ status run.1 = 500)
         ∧ (status run.1 = 201 →
              L ≠ []
              ∧ run.1 = okMessage 201 "Order created successfully"
                          (OrderData o (Some <$> L))
              ∧ ∀ u, Js.asTruthy userId = Some u →
                     cart run.2 = filter (fun r => c_userId r ≠ u) (cart db))).
Proof.
  unfold tryCatch, assembleAndCommit, bind.
  pose proof (assemble_store fails items (0, []) db) as Hst.
  destruct (assemble fails items (0, []) db) as [[[early|[total staged]]|e] db1] eqn:Ha;
    simpl in Hst; subst db1.
  - apply assemble_early in Ha as [name ->]. simpl. split_and!; try done.
    left. done.
  - destruct (bool_decide (length staged = 0%nat)) eqn:Hlen.
    { simpl. split_and!; try done. left. done. }
    apply bool_decide_eq_false in Hlen.
    destruct (insertOrder_cases fails (Js.asTruthy userId) total (Some a) guest db)
      as [E|[E|E]]; rewrite E; clear E.
    + simpl. split_and!; try done. left. done.
    + simpl. split_and!; try done. left. done.
    + set (o := {| o_id := orders_seq db |}).
      set (db1 := with_orders _ _ db).
      pose proof (promiseAll_items fails (o_id o) staged db1) as Hitems.
      cbv zeta in Hitems.
      destruct Hitems as (Hu & Hp & Hc & Hcs & Ho & Hos & L & HL & HF & _ & Hok).
      destruct (promiseAll _ db1) as [[rows|e] db2] eqn:Hrun; simpl in *.
      * destruct (Hok rows eq_refl) as [-> HlenL].
        assert (HL0 : L ≠ []).
        { intros ->. apply Hlen. by rewrite <- HlenL. }
        assert (Hhead : head <$> ((fun l => [l]) <$> L) = Some <$> L).
        { rewrite <- list_fmap_compose. done. }
        rewrite Hhead.
        destruct (Js.asTruthy userId) as [u|] eqn:Hown.
        -- unfold deleteCartOfUser, statement.
           destruct (fails (DeleteCartOfUser u)); simpl.
           ++ split_and!; try done. right. exists total, L.
              split_and!; try done. by right.
           ++ split_and!; try done. right. exists total, L.
              split_and!; try done; [by left|].
              intros _. split_and!; try done.
              intros ? [= <-]. by rewrite Hc.
        -- simpl. split_and!; try done. right. exists total, L.
           split_and!; try done. by left.
      * split_and!; try done. right. exists total, L.
        split_and!; try done. by right.
  - simpl. split_and!; try done. left. done.
Qed.


(** What any checkout leaves behind. *)
Lemma createOrder_outcome fails req db :
  let run := createOrder fails req db in
  users run.2 = users db ∧ products run.2 = products db
  ∧ ((orders run.2 = orders db ∧ orderItems run.2 = orderItems db
      ∧ cart run.2 = cart db ∧ status run.1 ≠ 201)
     ∨ ∃ a total L,
         let o := {| o_id := orders_seq db; o_userId := ownerOf req;
                     o_totalAmount := total; o_status := Some "pending";
                     o_shippingAddress := Some a;
                     o_guestInfo := body_guestInfo req;
                     o_paymentStatus := Some "pending" |} in
         firstFailedPrecondition req = None
         ∧ orders run.2 = orders db ++ [o]
         ∧ orderItems run.2 = orderItems db ++ L
         ∧ Forall (fun l => oi_orderId l = o_id o) L
         ∧ (ownerOf req = None → cart run.2 = cart db)
         ∧ (status run.1 = 201 ∨ status run.1 = 500)
         ∧ (status run.1 = 201 →
              L ≠ []
              ∧ run.1 = okMessage 201 "Order created successfully"
                          (OrderData o (Some <$> L))
              ∧ ∀ u, ownerOf req = Some u →
                     cart run.2 = filter (fun r => c_userId r ≠ u) (cart db))).
Proof.
  destruct (firstFailedPrecondition req) as [msg|] eqn:Hpre.
  - destruct (createOrder_rejected fails req db msg Hpre) as [-> _]. simpl.
    split_and!; try done. by left.
  - destruct (createOrder_accepted fails req db Hpre) as (items & a & _ & _ & _ & _ & ->).
    pose proof (assembleAndCommit_outcome fails
                  (Js.orNum (body_userId req) (user_id req))
                  (body_guestInfo req) items a db) as H.
    cbv zeta in *. destruct H as (Hu & Hp & [H|(total & L & H)]).
    + split_and!; try done. by left.
    + split_and!; try done. right. exists a, total, L. done.
Qed.

(** A guest-info triple that passed the completeness check. *)
Lemma guestInfoIncomplete_false g :
  guestInfoIncomplete (Some g) = false → guestComplete g.
Proof.
  unfold guestInfoIncomplete, guestComplete.
  destruct (Js.truthyStr (g_name g)), (Js.truthyStr (g_email g)),
    (Js.truthyStr (g_phone g)); done.
Qed.

(** The handlers look at the oracle only through the statements they
    issue. *)
Lemma assemble_ext fails fails' items acc db :
  (∀ pid, fails (SelectProductById pid) = fails' (SelectProductById pid)) →
  assemble fails items acc db = assemble fails' items acc db.
Proof.
  intros Hext. revert acc.
  induction items as [|[key sizes] rest IH]; intros acc; [done|].
  simpl. destruct (Js.parseInt key) as [pid|]; [|apply IH].
  unfold bind, selectProductById, statement. rewrite Hext.
  destruct (fails' _); [done|].
  destruct (take 1 _) as [|pd ?]; [apply IH|].
  destruct (negb _); [done|apply IH].
Qed.

Lemma promiseAll_ext {A} (ms ms' : list (M A)) db :
  Forall2 (fun m m' => ∀ d, m d = m' d) ms ms' →
  promiseAll ms db = promiseAll ms' db.
Proof.
  intros H. revert db. induction H as [|m m' ms ms' Hm _ IH]; intros db; [done|].
  simpl. rewrite Hm. destruct (m' db) as [[x|e] db1]; by rewrite IH.
Qed.

Lemma promiseAll_items_ext fails fails' orderId (items : list ItemData) db :
  (∀ pid sz, fails (InsertOrderItem orderId pid sz)
             = fails' (InsertOrderItem orderId pid sz)) →
  promiseAll ((fun item => insertOrderItem fails orderId (productId item)
                 (quantity item) (price item) (size item)) <$> items) db
  = promiseAll ((fun item => insertOrderItem fails' orderId (productId item)
                   (quantity item) (price item) (size item)) <$> items) db.
Proof.
  intros Hext. apply promiseAll_ext. apply Forall2_fmap, Forall_Forall2_diag.
  apply Forall_forall. intros item _ d.
  unfold insertOrderItem, statement. by rewrite Hext.
Qed.

(** The catalog lookup of the handlers is [findById]. *)
Lemma selectProductById_noFaults pid db :
  selectProductById noFaults pid db
  = (Ok (match findById (products db) pid with Some p => [p] | None => [] end), db).
Proof.
  unfold selectProductById, statement, findById. simpl.
  by destruct (filter _ (products db)).
Qed.

Lemma assemble_out_of_stock items acc db p :
  firstOutOfStock (products db) items = Some p →
  assemble noFaults items acc db
  = (Ok (inl (failure 400 (outOfStockMessage (p_name p)))), db).
Proof.
  revert acc. induction items as [|[key sizes] rest IH]; intros acc; [done|].
  simpl. destruct (Js.parseInt key) as [pid|]; [|apply IH].
  unfold bind. rewrite selectProductById_noFaults.
  destruct (findById (products db) pid) as [pd|]; [|apply IH].
  destruct (Js.truthyBool (p_inStock pd)); simpl; [apply IH|].
  by intros [= ->].
Qed.

Lemma findById_id catalog pid p : findById catalog pid = Some p → p_id p = pid.
Proof.
  unfold findById. intros H. apply head_Some_elem_of in H.
  by apply list_elem_of_filter in H as [? _].
Qed.

Lemma firstOutOfStock_sound catalog items p :
  firstOutOfStock catalog items = Some p → outOfStockIn catalog items p.
Proof.
  induction items as [|[key sizes] rest IH]; [done|]. simpl.
  destruct (Js.parseInt key) as [pid|] eqn:Hk.
  - destruct (findById catalog pid) as [pd|] eqn:Hf.
    + destruct (Js.truthyBool (p_inStock pd)) eqn:Hs.
      * intros H. destruct (IH H) as (k & sz & Hin & ?).
        exists k, sz. split; [by right|done].
      * intros [= <-]. pose proof (findById_id _ _ _ Hf) as <-.
        exists key, sizes. split; [by left|done].
    + intros H. destruct (IH H) as (k & sz & Hin & ?).
      exists k, sz. split; [by right|done].
  - intros H. destruct (IH H) as (k & sz & Hin & ?).
    exists k, sz. split; [by right|done].
Qed.

Lemma firstOutOfStock_complete catalog items p :
  outOfStockIn catalog items p → is_Some (firstOutOfStock catalog items).
Proof.
  intros (key & sizes & Hin & Hk & Hf & Hs).
  induction items as [|[key' sizes'] rest IH]; [by apply elem_of_nil in Hin|].
  simpl. apply elem_of_cons in Hin as [[= <- <-]|Hin].
  - rewrite Hk, Hf, Hs. eauto.
  - destruct (Js.parseInt key') as [pid'|]; [|by apply IH].
    destruct (findById catalog pid') as [pd|]; [|by apply IH].
    destruct (Js.truthyBool (p_inStock pd)); [by apply IH|eauto].
Qed.


End Basics.

(** ** Checkout: validation order *)
Module CheckoutValidation.
Import Schema Http Spec OrderController Fixtures Basics.

(** C9, as the code has it.  Checkout makes four checks in a fixed order
    and answers 400 with the message of the first that fails, leaving
    the store untouched: (1) an owner identity or guest info is present;
    (1') guest info, when present, has name, email and phone all
    non-empty; (2) the cart snapshot is present and is an object -- its
    emptiness is not looked at here; (3) a shipping address is present.
    When the four checks pass, the answer is never one of these
    validation messages: an empty snapshot is only refused afterwards,
    as an empty cart. *)
Theorem createOrder_validation_order fails req db :
  match firstFailedPrecondition req with
  | Some msg => createOrder fails req db = (failure 400 msg, db)
                ∧ msg ∈ validationMessages
  | None => message (createOrder fails req db).1 ∉ (Some <$> validationMessages)
  end.
Proof.
  destruct (firstFailedPrecondition req) as [msg|] eqn:Hpre.
  - by apply createOrder_rejected.
  - by apply createOrder_past_checks.
Qed.

(** C9 as stated fails: with an owner and an empty snapshot, the second
    precondition (a non-empty snapshot) is violated, yet without a
    shipping address the third check is the one reported, and with a
    shipping address the answer is the empty-cart error, made after the
    catalog iteration, not a validation failure. *)
Lemma createOrder_empty_snapshot_not_validated :
  let noAddress := request None (Some 1) (CartItemsObject []) None None in
  let withAddress := request None (Some 1) (CartItemsObject []) (Some accra) None in
  (createOrder noFaults noAddress shop).1 = failure 400 addressRequired
  ∧ (createOrder noFaults noAddress shop).1 ≠ failure 400 cartRequired
  ∧ (createOrder noFaults withAddress shop).1 = failure 400 emptyCart
  ∧ message (createOrder noFaults withAddress shop).1 ∉ (Some <$> validationMessages).
Proof.
  cbv zeta. repeat split; try (vm_compute; reflexivity); try (vm_compute; discriminate).
  rewrite list_elem_of_In. vm_compute. intros [H|[H|[H|[H|[]]]]]; discriminate H.
Qed.

End CheckoutValidation.

(** ** Checkout: what is persisted *)
Module Checkout.
Import Schema Http Spec OrderController Fixtures Basics.

(** C1, as the code has it.  On a store where every order has a line
    and every line has its order, a checkout never leaves an order line
    without its parent order; and a checkout that does not end in the
    500 answer persists either nothing or one order header together with
    all of its order lines, at least one.  Header and lines are written
    by separate statements. *)
Theorem createOrder_lines_with_header fails req db :
  everyLineHasOrder db → everyOrderHasLines db →
  let run := createOrder fails req db in
  everyLineHasOrder run.2
  ∧ (status run.1 ≠ 500 →
       everyOrderHasLines run.2
       ∧ ((orders run.2 = orders db ∧ orderItems run.2 = orderItems db)
          ∨ ∃ o L, L ≠ [] ∧ orders run.2 = orders db ++ [o]
                   ∧ orderItems run.2 = orderItems db ++ L
                   ∧ Forall (fun l => oi_orderId l = o_id o) L)).
Proof.
  intros Hlines Horders.
  pose proof (createOrder_outcome fails req db) as H. cbv zeta in *.
  destruct H as (_ & _ & [(Ho & Hi & _ & _)|(a & total & L & _ & Ho & Hi & HF & _ & Hst & Hok)]).
  - split.
    + intros l Hl. rewrite Hi in Hl. rewrite Ho. by apply Hlines.
    + intros _. split; [|by left].
      intros o Hin. rewrite Ho in Hin. rewrite Hi. by apply Horders.
  - set (o := {| o_id := orders_seq db |}) in *. split.
    + intros l Hl. rewrite Hi in Hl. rewrite Ho.
      apply elem_of_app in Hl as [Hl|Hl].
      * destruct (Hlines l Hl) as (o' & Hin & Hid). exists o'.
        split; [|done]. apply elem_of_app. by left.
      * exists o. split; [apply elem_of_app; right; by apply list_elem_of_singleton|].
        rewrite Forall_forall in HF. symmetry. by apply HF.
    + intros H500. destruct Hst as [H201|]; [|done].
      destruct (Hok H201) as (HL & _ & _). split.
      * intros o' Hin. rewrite Ho in Hin. rewrite Hi.
        apply elem_of_app in Hin as [Hin|Hin].
        -- destruct (Horders o' Hin) as (l & Hl & Hid). exists l.
           split; [|done]. apply elem_of_app. by left.
        -- apply list_elem_of_singleton in Hin as ->.
           destruct L as [|l L']; [done|]. exists l. split.
           ++ apply elem_of_app. right. by left.
           ++ by apply Forall_cons in HF as [? _].
      * right. exists o, L. done.
Qed.

Lemma shopWithOrder_consistent :
  everyLineHasOrder shopWithOrder ∧ everyOrderHasLines shopWithOrder.
Proof.
  split.
  - intros l Hl. apply list_elem_of_singleton in Hl as ->.
    exists delivered1. split; [by left|done].
  - intros o Ho. apply list_elem_of_singleton in Ho as ->.
    exists item1. split; [by left|done].
Qed.

Lemma shop_consistent : everyLineHasOrder shop ∧ everyOrderHasLines shop.
Proof. split; intros x Hx; by apply elem_of_nil in Hx. Qed.

Lemma createOrder_lines_with_header_witness :
  let req := request None (Some 1) (CartItemsObject [("1", [("S", 2); ("M", 1)])])
               (Some accra) None in
  let run := createOrder noFaults req shopWithOrder in
  status run.1 = 201 ∧ length (orders run.2) = 2%nat
  ∧ length (orderItems run.2) = 3%nat
  ∧ everyLineHasOrder run.2 ∧ everyOrderHasLines run.2.
Proof.
  cbv zeta.
  destruct (createOrder_lines_with_header noFaults
              (request None (Some 1) (CartItemsObject [("1", [("S", 2); ("M", 1)])])
                 (Some accra) None)
              shopWithOrder
              (proj1 shopWithOrder_consistent) (proj2 shopWithOrder_consistent))
    as [Hl Ho].
  split_and!; try (vm_compute; reflexivity); [exact Hl|].
  apply Ho. vm_compute. discriminate.
Defined.

(** C1 as stated fails: when the order-line inserts are rejected after
    the header insert, the checkout ends in the 500 answer and leaves an
    order with zero order lines behind. *)
Lemma createOrder_header_without_lines :
  let req := request None (Some 1) (CartItemsObject [("1", [("S", 2)])])
               (Some accra) None in
  let run := createOrder failItemInserts req shop in
  everyOrderHasLines shop ∧ everyLineHasOrder shop
  ∧ status run.1 = 500
  ∧ length (orders run.2) = 1%nat ∧ orderItems run.2 = []
  ∧ ¬ everyOrderHasLines run.2.
Proof.
  cbv zeta. split_and!; try apply shop_consistent; try (vm_compute; reflexivity).
  intros H.
  destruct (H {| o_id := 1; o_userId := Some 1; o_totalAmount := 10000;
                 o_status := Some "pending"; o_shippingAddress := Some accra;
                 o_guestInfo := None; o_paymentStatus := Some "pending" |})
    as (l & Hl & _).
  - vm_compute. by left.
  - vm_compute in Hl. by apply elem_of_nil in Hl.
Qed.

End Checkout.


(** ** Checkout: the stock hard stop *)
Module CheckoutStock.
Import Schema Http Spec OrderController Fixtures Basics.

(** C2, as the code has it.  A checkout that has passed the request
    checks and whose snapshot holds a catalog product that is not in
    stock answers 400 with the out-of-stock message and leaves the whole
    store as it was: no order and no order line is persisted, whatever
    else the snapshot holds.  The message names one product: the first
    out-of-stock product the enumeration of the snapshot meets.  That is
    the product at hand when it is the only one out of stock; another
    out-of-stock product of the same snapshot is not named. *)
Theorem createOrder_out_of_stock req db p :
  firstFailedPrecondition req = None →
  (∃ items, body_cartItems req = CartItemsObject items
            ∧ outOfStockIn (products db) items p) →
  ∃ items named,
    body_cartItems req = CartItemsObject items
    ∧ firstOutOfStock (products db) items = Some named
    ∧ outOfStockIn (products db) items named
    ∧ createOrder noFaults req db
      = (failure 400 (outOfStockMessage (p_name named)), db)
    ∧ ((∀ q, outOfStockIn (products db) items q → q = p) → named = p).
Proof.
  intros Hpre (items & Hitems & Hout).
  destruct (firstOutOfStock_complete _ _ _ Hout) as [named Hfirst].
  pose proof (firstOutOfStock_sound _ _ _ Hfirst) as Hnamed.
  exists items, named. split_and!; try done.
  - destruct (createOrder_accepted noFaults req db Hpre)
      as (items' & a & Hitems' & _ & _ & _ & ->).
    rewrite Hitems in Hitems'. injection Hitems' as <-.
    unfold tryCatch, assembleAndCommit, bind.
    by rewrite (assemble_out_of_stock items (0, []) db named Hfirst).
  - intros Honly. by apply Honly.
Qed.

(** The stock hard stop of the spec: the sandals are out of stock, the
    shirt entry next to them is valid, and nothing is persisted. *)
Lemma createOrder_out_of_stock_witness :
  let req := request None (Some 1)
               (CartItemsObject [("1", [("S", 1)]); ("2", [("M", 2)])])
               (Some accra) None in
  ∃ items named,
    body_cartItems req = CartItemsObject items
    ∧ firstOutOfStock (products shop) items = Some named
    ∧ outOfStockIn (products shop) items named
    ∧ createOrder noFaults req shop
      = (failure 400 (outOfStockMessage (p_name named)), shop)
    ∧ ((∀ q, outOfStockIn (products shop) items q → q = sandals) → named = sandals).
Proof.
  cbv zeta.
  apply (createOrder_out_of_stock
           (request None (Some 1)
              (CartItemsObject [("1", [("S", 1)]); ("2", [("M", 2)])])
              (Some accra) None) shop sandals).
  - vm_compute. reflexivity.
  - exists [("1", [("S", 1)]); ("2", [("M", 2)])]. split; [reflexivity|].
    exists "2", [("M", 2)]. split_and!.
    + right. left.
    + vm_compute. reflexivity.
    + vm_compute. reflexivity.
    + reflexivity.
Defined.

(** C2 as stated fails: sandals and basket are both in the snapshot and
    both out of stock; the answer names the sandals, which the
    enumeration meets first, and not the basket. *)
Lemma createOrder_names_first_out_of_stock :
  let items := [("2", [("M", 2)]); ("3", [("L", 1)])] in
  let run := createOrder noFaults
               (request None (Some 1) (CartItemsObject items) (Some accra) None) shop in
  outOfStockIn (products shop) items basket
  ∧ run = (failure 400 (outOfStockMessage (p_name sandals)), shop)
  ∧ message run.1 ≠ Some (outOfStockMessage (p_name basket)).
Proof.
  cbv zeta. split_and!.
  - exists "3", [("L", 1)]. split_and!; [right; left|reflexivity..].
  - vm_compute. reflexivity.
  - vm_compute. discriminate.
Qed.

End CheckoutStock.

(** ** Checkout: owner identity and guest info of the created order *)
Module CheckoutIdentity.
Import Schema Http Spec OrderController Fixtures Basics.

(** C3, as the code has it.  An order created by checkout carries the
    owner identity of the request and the guest info of the request.  It
    always has one of the two: an order without an owner identity stores
    a complete guest-info triple, and stored guest info is always
    complete.  Guest info sent by an identified purchaser is stored next
    to the owner identity. *)
Theorem createOrder_owner_or_guest fails req db o :
  o ∈ orders (createOrder fails req db).2 → o ∉ orders db →
  o_userId o = ownerOf req ∧ o_guestInfo o = body_guestInfo req
  ∧ (∀ u, o_userId o = Some u → u ≠ 0)
  ∧ (∀ g, o_guestInfo o = Some g → guestComplete g)
  ∧ (o_userId o = None → ∃ g, o_guestInfo o = Some g ∧ guestComplete g)
  ∧ (is_Some (o_userId o) ∨ is_Some (o_guestInfo o)).
Proof.
  intros Hin Hnew.
  pose proof (createOrder_outcome fails req db) as H. cbv zeta in H.
  destruct H as (_ & _ & [(Ho & _)|(a & total & L & Hpre & Ho & _)]).
  { rewrite Ho in Hin. done. }
  rewrite Ho in Hin. apply elem_of_app in Hin as [Hin|Hin]; [done|].
  apply list_elem_of_singleton in Hin as ->. simpl.
  destruct (createOrder_accepted fails req db Hpre) as (_ & _ & _ & _ & Hinc & Hguest & _).
  assert (Hcomplete : ∀ g, body_guestInfo req = Some g → guestComplete g).
  { intros g Hg. rewrite Hg in Hinc. by apply guestInfoIncomplete_false. }
  split_and!; try done.
  - intros u Hu. unfold ownerOf in Hu. by apply asTruthy_Some in Hu as (_ & _ & ?).
  - intros Hnone. destruct (Hguest Hnone) as [g Hg]. exists g. eauto.
  - destruct (ownerOf req) eqn:Hown; [left; eauto|right; by apply Hguest].
Qed.

Lemma createOrder_owner_or_guest_witness :
  let req := request None None (CartItemsObject [("1", [("S", 2); ("M", 1)])])
               (Some accra) (Some john) in
  let o := {| o_id := 1; o_userId := None; o_totalAmount := 15000;
              o_status := Some "pending"; o_shippingAddress := Some accra;
              o_guestInfo := Some john; o_paymentStatus := Some "pending" |} in
  o_userId o = ownerOf req ∧ o_guestInfo o = body_guestInfo req
  ∧ (∀ u, o_userId o = Some u → u ≠ 0)
  ∧ (∀ g, o_guestInfo o = Some g → guestComplete g)
  ∧ (o_userId o = None → ∃ g, o_guestInfo o = Some g ∧ guestComplete g)
  ∧ (is_Some (o_userId o) ∨ is_Some (o_guestInfo o)).
Proof.
  cbv zeta.
  apply (createOrder_owner_or_guest noFaults
           (request None None (CartItemsObject [("1", [("S", 2); ("M", 1)])])
              (Some accra) (Some john)) shop).
  - vm_compute. left.
  - vm_compute. intros H. by apply elem_of_nil in H.
Defined.

(** C3 as stated fails: an identified purchaser who also sends guest info
    gets an order that stores both. *)
Lemma createOrder_owner_and_guest :
  let req := request None (Some 1) (CartItemsObject [("1", [("S", 2)])])
               (Some accra) (Some john) in
  let run := createOrder noFaults req shop in
  status run.1 = 201
  ∧ ∃ o, orders run.2 = [o] ∧ o_userId o = Some 1 ∧ o_guestInfo o = Some john.
Proof.
  cbv zeta. split; [vm_compute; reflexivity|].
  eexists. split_and!; vm_compute; reflexivity.
Qed.

End CheckoutIdentity.


(** ** Checkout: clearing the owner's cart *)
Module CheckoutCart.
Import Schema Http Spec OrderController Fixtures Basics.

(** When only the cart delete is rejected, everything before it runs as
    in the run without faults; the rejection then reaches the [catch]. *)
Lemma assembleAndCommit_clear_rejected fails userId guest items a db u :
  Js.asTruthy userId = Some u →
  fails (DeleteCartOfUser u) = true →
  (∀ op, op ≠ DeleteCartOfUser u → fails op = false) →
  let good := tryCatch "Error creating order"
                (assembleAndCommit noFaults userId guest items a) db in
  let run := tryCatch "Error creating order"
               (assembleAndCommit fails userId guest items a) db in
  status good.1 = 201 →
  run.1 = internalError "Error creating order" storageUnavailable
  ∧ orders run.2 = orders good.2
  ∧ orderItems run.2 = orderItems good.2
  ∧ cart run.2 = cart db.
Proof.
  intros Hown Hdel Hother. cbv zeta.
  unfold tryCatch, assembleAndCommit, bind.
  rewrite (assemble_ext fails noFaults) by (intros; by rewrite Hother).
  pose proof (assemble_store noFaults items (0, []) db) as Hst.
  destruct (assemble noFaults items (0, []) db)
    as [[[early|[total staged]]|e] db1] eqn:Ha; simpl in Hst; subst db1.
  - apply assemble_early in Ha as [name ->]. simpl. discriminate.
  - destruct (bool_decide (length staged = 0%nat)); [simpl; discriminate|].
    unfold insertOrder, statement. rewrite (Hother InsertOrder) by done.
    change (noFaults InsertOrder) with false. cbv iota.
    destruct (match Js.asTruthy userId with Some u0 => hasUser u0 db | None => true end);
      [|simpl; discriminate].
    set (o := {| o_id := orders_seq db |}).
    set (db1 := with_orders _ _ db).
    rewrite (promiseAll_items_ext fails noFaults) by (intros; by rewrite Hother).
    pose proof (promiseAll_items noFaults (o_id o) staged db1) as Hitems.
    cbv zeta in Hitems. destruct Hitems as (_ & _ & Hc & _).
    destruct (promiseAll _ db1) as [[rows|e] db2]; [|simpl; discriminate].
    rewrite Hown. unfold deleteCartOfUser, statement. rewrite Hdel.
    simpl in *. intros _. by rewrite Hc.
  - simpl. discriminate.
Qed.

(** C8, as the code has it.  After a successful (201) checkout by an
    identified owner the store holds no cart line of that owner, the lines
    of the other owners being untouched; a guest checkout leaves the cart
    table as it was.  When only the clearing of the cart is rejected, the
    order and the lines of the run without faults stay persisted (nothing
    is rolled back) and the cart is left as it was, but the caller gets
    the 500 answer of the [catch] instead of the assembled order. *)
Theorem createOrder_clears_cart fails req db :
  let run := createOrder fails req db in
  (∀ u, ownerOf req = Some u → status run.1 = 201 →
        cart run.2 = filter (fun r => c_userId r ≠ u) (cart db)
        ∧ filter (fun r => c_userId r = u) (cart run.2) = [])
  ∧ (ownerOf req = None → cart run.2 = cart db)
  ∧ (∀ u, ownerOf req = Some u →
          fails (DeleteCartOfUser u) = true →
          (∀ op, op ≠ DeleteCartOfUser u → fails op = false) →
          status (createOrder noFaults req db).1 = 201 →
          run.1 = internalError "Error creating order" storageUnavailable
          ∧ orders run.2 = orders (createOrder noFaults req db).2
          ∧ orderItems run.2 = orderItems (createOrder noFaults req db).2
          ∧ cart run.2 = cart db).
Proof.
  cbv zeta. split_and!.
  - intros u Hown H201.
    pose proof (createOrder_outcome fails req db) as H. cbv zeta in H.
    destruct H as (_ & _ & [(_ & _ & _ & Hst)|(a & total & L & _ & _ & _ & _ & _ & _ & Hok)]);
      [done|].
    destruct (Hok H201) as (_ & _ & Hcart). rewrite (Hcart u Hown).
    split; [done|]. rewrite list_filter_filter.
    apply elem_of_nil_inv. intros r Hr.
    apply list_elem_of_filter in Hr as [[? ?] _]. done.
  - intros Hown.
    pose proof (createOrder_outcome fails req db) as H. cbv zeta in H.
    destruct H as (_ & _ & [(_ & _ & Hc & _)|(a & total & L & _ & _ & _ & _ & Hc & _)]);
      [done|by apply Hc].
  - intros u Hown Hdel Hother.
    destruct (firstFailedPrecondition req) as [msg|] eqn:Hpre.
    { destruct (createOrder_rejected noFaults req db msg Hpre) as [-> _]. discriminate. }
    destruct (createOrder_accepted fails req db Hpre) as (items & a & Hi & Ha & _ & _ & ->).
    destruct (createOrder_accepted noFaults req db Hpre)
      as (items' & a' & Hi' & Ha' & _ & _ & ->).
    rewrite Hi in Hi'. injection Hi' as <-. rewrite Ha in Ha'. injection Ha' as <-.
    unfold ownerOf in Hown.
    by apply (assembleAndCommit_clear_rejected fails _ _ items a db u).
Qed.

(** User 1 checks out two shirts: the order is created and the line the
    user had in the stored cart is gone. *)
Lemma createOrder_clears_cart_witness :
  let req := request None (Some 1) (CartItemsObject [("1", [("S", 2)])])
               (Some accra) None in
  cart shop = [line1]
  ∧ cart (createOrder noFaults req shop).2 = []
  ∧ (createOrder (failCartDeleteOf 1) req shop).1
    = internalError "Error creating order" storageUnavailable
  ∧ orders (createOrder (failCartDeleteOf 1) req shop).2
    = orders (createOrder noFaults req shop).2.
Proof.
  cbv zeta.
  destruct (createOrder_clears_cart noFaults
              (request None (Some 1) (CartItemsObject [("1", [("S", 2)])])
                 (Some accra) None) shop) as (Hclear & _ & _).
  destruct (createOrder_clears_cart (failCartDeleteOf 1)
              (request None (Some 1) (CartItemsObject [("1", [("S", 2)])])
                 (Some accra) None) shop) as (_ & _ & Hrejected).
  cbv zeta in *.
  destruct (Hclear 1) as [Hcart _]; [reflexivity|vm_compute; reflexivity|].
  destruct (Hrejected 1) as (Hresp & Horders & _).
  - reflexivity.
  - reflexivity.
  - intros op Hop. destruct op; try reflexivity.
    simpl. apply bool_decide_eq_false. congruence.
  - vm_compute. reflexivity.
  - split_and!; [reflexivity| |exact Hresp|exact Horders].
    rewrite Hcart. reflexivity.
Defined.

(** C8 as stated fails: the clearing of the cart of user 1 is rejected
    after the order has been committed; the order and its line stay, but
    the answer is the 500 error and carries no order. *)
Lemma createOrder_clear_rejected_no_order_returned :
  let req := request None (Some 1) (CartItemsObject [("1", [("S", 2)])])
               (Some accra) None in
  let run := createOrder (failCartDeleteOf 1) req shop in
  status run.1 = 500 ∧ success run.1 = false
  ∧ data run.1 = ErrorText storageUnavailable
  ∧ length (orders run.2) = 1%nat ∧ length (orderItems run.2) = 1%nat
  ∧ cart run.2 = [line1].
Proof. cbv zeta. split_and!; vm_compute; reflexivity. Qed.

End CheckoutCart.

(** ** Order status updates *)
Module OrderStatus.
Import Schema Http Spec OrderController Fixtures Basics.

Lemma parseInt_truthy id n : Js.parseInt id = Some n → Js.truthyStr (Some id) = true.
Proof. destruct id; [discriminate|done]. Qed.

Lemma validStatus_nonempty st : st ∈ validStatuses → String.eqb st EmptyString = false.
Proof.
  unfold validStatuses. rewrite !elem_of_cons, elem_of_nil.
  intros [->|[->|[->|[->|[->|[]]]]]]; reflexivity.
Qed.

Lemma selectOrderById_found id db :
  id ∈ o_id <$> orders db →
  ∃ o rest, take 1 (filter (fun o => o_id o = id) (orders db)) = o :: rest.
Proof.
  intros Hin. apply list_elem_of_fmap in Hin as (o & -> & Hin).
  assert (Hf : o ∈ filter (fun o' => o_id o' = o_id o) (orders db)).
  { by apply list_elem_of_filter. }
  destruct (filter _ (orders db)) as [|o' l]; [by apply elem_of_nil in Hf|].
  by exists o', [].
Qed.

(** C7, as the code has it.  For an existing order and a target status
    among pending, processing, shipped, delivered and cancelled, the
    update succeeds and stores the target, whatever the current status of
    the order is: no transition relation is enforced and delivered and
    cancelled are not terminal.  Only a target outside the five values is
    refused, with the store untouched. *)
Theorem updateOrderStatus_any_target req db id orderId st :
  params_id req = Some id → Js.parseInt id = Some orderId →
  body_status req = Some st → st ≠ EmptyString →
  orderId ∈ o_id <$> orders db →
  let rows := (fun o => if decide (o_id o = orderId)
                        then set_status (Some st) o else o) <$> orders db in
  if bool_decide (st ∈ validStatuses)
  then updateOrderStatus noFaults req db
       = (okMessage 200 "Order status updated successfully"
            (OrderRow (head (filter (fun o => o_id o = orderId) rows))),
          with_orders rows (orders_seq db) db)
       ∧ (∀ o, o ∈ orders db → o_id o = orderId → set_status (Some st) o ∈ rows)
  else updateOrderStatus noFaults req db = (failure 400 "Invalid status", db).
Proof.
  intros Hid Hparse Hst Hne Hin rows.
  unfold updateOrderStatus, tryCatch. rewrite Hid, Hst.
  rewrite (parseInt_truthy id orderId Hparse). simpl. rewrite Hparse.
  assert (String.eqb st EmptyString = false) as -> by by apply String.eqb_neq.
  destruct (bool_decide (st ∈ validStatuses)); simpl; [|done].
  unfold bind, selectOrderById, statement. simpl.
  destruct (selectOrderById_found orderId db Hin) as (o & rest & ->).
  split; [done|].
  intros o' Ho' Hid'. subst rows. apply list_elem_of_fmap. exists o'.
  split; [|done]. by rewrite decide_True.
Qed.

Lemma updateOrderStatus_any_target_witness :
  updateOrderStatus noFaults (statusRequest "1" "processing") shopWithOrder
  = (okMessage 200 "Order status updated successfully"
       (OrderRow (Some (set_status (Some "processing") delivered1))),
     with_orders [set_status (Some "processing") delivered1] 2 shopWithOrder).
Proof.
  pose proof (updateOrderStatus_any_target (statusRequest "1" "processing")
                shopWithOrder "1" 1 "processing") as H.
  cbv zeta in H.
  destruct H as [H _]; [reflexivity|reflexivity|reflexivity|discriminate| |exact H].
  vm_compute. left.
Defined.

(** C7 as stated fails: a delivered order is moved back to pending, a
    transition the relation does not allow. *)
Lemma updateOrderStatus_leaves_terminal_state :
  let run := updateOrderStatus noFaults (statusRequest "1" "pending") shopWithOrder in
  o_status <$> orders shopWithOrder = [Some "delivered"]
  ∧ status run.1 = 200
  ∧ o_status <$> orders run.2 = [Some "pending"]
  ∧ allowedTransition "delivered" "pending" = false.
Proof. cbv zeta. split_and!; vm_compute; reflexivity. Qed.

End OrderStatus.

(** ** Cart operations: who the owner is *)
Module CartOwner.
Import Schema Http Spec MergeModel CartController Fixtures Basics.












End CartOwner.

(** ** The cart merge: the handlers against the table function *)
Module CartMerge.
Import Schema Http Spec MergeModel CartController Fixtures Basics.

#[local] Arguments mergeRows : simpl never.

Lemma findById_hasProduct db pid p :
  findById (products db) pid = Some p → hasProduct pid db = true.
Proof.
  intros H. apply bool_decide_eq_true. unfold findById in H.
  apply head_Some_elem_of, list_elem_of_filter in H as [<- Hin].
  by apply list_elem_of_fmap_2.
Qed.

Lemma mergeUpsert_noFaults u pid sz q db :
  hasUser u db = true → hasProduct pid db = true →
  mergeUpsert noFaults u pid sz q db
  = (Ok tt, setCart (mergeRows u (pid, sz, q) (cartState db)) db).
Proof.
  intros Hu Hp.
  unfold mergeUpsert, bind, selectCartLine, statement, mergeRows, lineOf, cartState.
  simpl.
  destruct (filter _ (cart db)) as [|r l]; simpl.
  - unfold insertCartLine, statement. simpl. by rewrite Hu, Hp.
  - done.
Qed.

Lemma setCart_setCart st st' db : setCart st' (setCart st db) = setCart st' db.
Proof. done. Qed.

Lemma cartState_setCart st db : cartState (setCart st db) = st.
Proof. by destruct st. Qed.

Lemma setCart_cartState db : setCart (cartState db) db = db.
Proof. by destruct db. Qed.

Lemma syncSizes_noFaults u pid sizes db :
  hasUser u db = true → hasProduct pid db = true →
  syncSizes noFaults u pid sizes db
  = (Ok tt, setCart (mergeAll u (positiveSizes pid sizes) (cartState db)) db).
Proof.
  intros Hu Hp. revert db Hu Hp.
  induction sizes as [|[sz q] rest IH]; intros db Hu Hp.
  { simpl. by rewrite setCart_cartState. }
  simpl. unfold positiveSizes. rewrite filter_cons. simpl.
  destruct (decide (0 < q)) as [Hq|Hq].
  - rewrite (proj2 (Z.leb_gt q 0) Hq). unfold bind.
    rewrite mergeUpsert_noFaults by done.
    rewrite IH by done. rewrite setCart_setCart, cartState_setCart. done.
  - rewrite (proj2 (Z.leb_le q 0)) by lia. by apply IH.
Qed.

Lemma syncProducts_noFaults u items db :
  hasUser u db = true →
  syncProducts noFaults u items db
  = (Ok tt, setCart (mergeAll u (validEntries (products db) items) (cartState db)) db).
Proof.
  intros Hu. revert db Hu.
  induction items as [|[key sizes] rest IH]; intros db Hu.
  { simpl. by rewrite setCart_cartState. }
  simpl. destruct (Js.parseInt key) as [pid|]; [|by apply IH].
  unfold bind. rewrite selectProductById_noFaults.
  destruct (findById (products db) pid) as [p|] eqn:Hf; [|by apply IH].
  rewrite syncSizes_noFaults by eauto using findById_hasProduct.
  rewrite IH by done. rewrite setCart_setCart, cartState_setCart.
  unfold mergeAll. by rewrite foldl_app.
Qed.

(** syncCart when no statement fails, for an existing owner. *)
Lemma syncCart_noFaults req db u items :
  ownerOf req = Some u → body_cartItems req = CartItemsObject items →
  hasUser u db = true →
  let st := mergeAll u (validEntries (products db) items) (cartState db) in
  syncCart noFaults req db
  = (okMessage 200 "Cart synced successfully"
       (CartData (toFrontend (filter (fun r => c_userId r = u) st.1))),
     setCart st db).
Proof.
  intros Hown Hitems Hu. unfold syncCart, tryCatch. unfold ownerOf in Hown.
  rewrite Hown, Hitems. unfold bind.
  rewrite syncProducts_noFaults by done. simpl. done.
Qed.

(** *** Lookups after one merge *)

Lemma keepLarger_userId id m x : c_userId (keepLarger id m x) = c_userId x.
Proof. unfold keepLarger. by destruct (decide _). Qed.

Lemma keepLarger_productId id m x : c_productId (keepLarger id m x) = c_productId x.
Proof. unfold keepLarger. by destruct (decide _). Qed.

Lemma keepLarger_size id m x : c_size (keepLarger id m x) = c_size x.
Proof. unfold keepLarger. by destruct (decide _). Qed.

Lemma keepLarger_id id m x : c_id (keepLarger id m x) = c_id x.
Proof. unfold keepLarger. by destruct (decide _). Qed.


Lemma lineOf_elem rows u pid sz r :
  lineOf rows u pid sz = Some r →
  r ∈ rows ∧ c_userId r = u ∧ c_productId r = pid ∧ c_size r = Some sz.
Proof.
  unfold lineOf. intros H. apply head_Some_elem_of in H.
  apply list_elem_of_filter in H as [? ?]. done.
Qed.



(** Two rows of a table with a primary key that share their id are the
    same row. *)
Lemma same_id_same_row (rows : list CartRow) x y :
  NoDup (c_id <$> rows) → x ∈ rows → y ∈ rows → c_id x = c_id y → x = y.
Proof.
  induction rows as [|z rows IH]; [by intros _ ?%elem_of_nil|].
  rewrite fmap_cons, NoDup_cons. intros [Hz Hnd] Hx Hy Hid.
  apply elem_of_cons in Hx as [->|Hx]; apply elem_of_cons in Hy as [->|Hy].
  - done.
  - exfalso. apply Hz. rewrite Hid. by apply list_elem_of_fmap_2.
  - exfalso. apply Hz. rewrite <- Hid. by apply list_elem_of_fmap_2.
  - by apply IH.
Qed.



Lemma keysFresh_mergeRows u e st : keysFresh st → keysFresh (mergeRows u e st).
Proof.
  destruct e as [[pid sz] q]. intros [Hnd Hlt]. unfold keysFresh, mergeRows.
  destruct (lineOf st.1 u pid sz) as [r|]; simpl.
  - split.
    + rewrite <- list_fmap_compose.
      erewrite list_fmap_ext; [exact Hnd|]. intros i x _. simpl.
      apply keepLarger_id.
    + intros x Hx. apply list_elem_of_fmap in Hx as (y & -> & Hy).
      rewrite keepLarger_id. by apply Hlt.
  - split.
    + rewrite fmap_app. apply NoDup_app. split_and!; [done| |apply NoDup_singleton].
      intros i Hi Hi'. simpl in Hi'. apply list_elem_of_singleton in Hi' as ->.
      apply list_elem_of_fmap in Hi as (y & Hid & Hy). specialize (Hlt y Hy). lia.
    + intros x Hx. apply elem_of_app in Hx as [Hx|Hx].
      * specialize (Hlt x Hx). lia.
      * apply list_elem_of_singleton in Hx as ->. simpl. lia.
Qed.


(** *** Lookups after a whole snapshot *)





Lemma set_quantity_same r : set_quantity (c_quantity r) r = r.
Proof. by destruct r. Qed.

(** Merging an entry that a stored line already covers changes nothing. *)
Lemma mergeRows_settled u pid sz q st m :
  keysFresh st → quantityOf st.1 u pid sz = Some m → q ≤ m →
  mergeRows u (pid, sz, q) st = st.
Proof.
  intros [Hnd _] Hq Hle. unfold quantityOf in Hq. unfold mergeRows.
  destruct (lineOf st.1 u pid sz) as [r|] eqn:Hline; [|done].
  injection Hq as <-. rewrite Z.max_l by done.
  destruct st as [rows seq]. simpl in *. f_equal.
  rewrite <- (list_fmap_id rows) at 2. apply list_fmap_ext.
  intros i x Hx. unfold keepLarger. simpl.
  destruct (decide (c_id x = c_id r)) as [Hid|]; [|done].
  apply lineOf_elem in Hline as (Hin & _).
  apply list_elem_of_lookup_2 in Hx.
  assert (x = r) as -> by by eapply same_id_same_row.
  apply set_quantity_same.
Qed.

Lemma mergeAll_settled u es st :
  keysFresh st →
  (∀ pid sz q, (pid, sz, q) ∈ es →
     ∃ m, quantityOf st.1 u pid sz = Some m ∧ q ≤ m) →
  mergeAll u es st = st.
Proof.
  intros Hst. induction es as [|[[p s] q] es IH]; intros Hcov; [done|].
  simpl. destruct (Hcov p s q) as (m & Hm & Hle); [by left|].
  rewrite (mergeRows_settled u p s q st m) by done.
  apply IH. intros pid sz q' Hin. apply Hcov. by right.
Qed.



(** *** The lines of the table after a merge *)











Lemma keysFresh_mergeTagged tes st : keysFresh st → keysFresh (mergeTagged tes st).
Proof.
  revert st. induction tes as [|[u e] tes IH]; intros st Hst; [done|].
  simpl. apply IH. by apply keysFresh_mergeRows.
Qed.






End CartMerge.

(** ** Properties of the cart sync *)
Module CartSync.
Import Schema Http Spec MergeModel CartController Fixtures Basics CartMerge.


Lemma shop_keysFresh : keysFresh (cartState shop).
Proof.
  split.
  - apply NoDup_singleton.
  - intros r Hr. apply list_elem_of_singleton in Hr as ->. simpl. lia.
Qed.

End CartSync.

(** ** Invalid entries of a snapshot *)
Module InvalidEntries.
Import Schema Http Spec MergeModel CartController Fixtures Basics CartMerge.

(** An entry whose quantity is not positive is skipped by the three inner
    loops, whatever the oracle says. *)
Lemma syncSizes_nonpositive fails u pid before sz q after db :
  q ≤ 0 →
  syncSizes fails u pid (before ++ (sz, q) :: after) db
  = syncSizes fails u pid (before ++ after) db.
Proof.
  intros Hq. revert db. induction before as [|[sz' q'] before IH]; intros db; simpl.
  - by rewrite (proj2 (Z.leb_le q 0) Hq).
  - destruct (q' <=? 0); [apply IH|].
    unfold bind. destruct (mergeUpsert fails u pid sz' q' db) as [[[]|e] db1]; [apply IH|done].
Qed.

Lemma saveSizes_nonpositive fails u pid before sz q after db :
  q ≤ 0 →
  saveSizes fails u pid (before ++ (sz, q) :: after) db
  = saveSizes fails u pid (before ++ after) db.
Proof.
  intros Hq. revert db. induction before as [|[sz' q'] before IH]; intros db; simpl.
  - by rewrite (proj2 (Z.ltb_ge 0 q) Hq).
  - destruct (0 <? q'); [|apply IH].
    unfold bind.
    destruct (insertCartLine fails u pid q' sz' db) as [[[]|e] db1]; [apply IH|done].
Qed.

Lemma stageSizes_nonpositive pid unitPrice before sz q after acc :
  q ≤ 0 →
  OrderController.stageSizes pid unitPrice (before ++ (sz, q) :: after) acc
  = OrderController.stageSizes pid unitPrice (before ++ after) acc.
Proof.
  intros Hq. revert acc. induction before as [|[sz' q'] before IH]; intros acc; simpl.
  - by rewrite (proj2 (Z.ltb_ge 0 q) Hq).
  - destruct (0 <? q'); apply IH.
Qed.

(** The inner loop of syncCart leaves the catalog alone. *)
Lemma syncSizes_products u pid sizes db db1 :
  syncSizes noFaults u pid sizes db = (Ok tt, db1) → products db1 = products db.
Proof.
  revert db. induction sizes as [|[sz q] sizes IH]; intros db Hs; simpl in Hs.
  { by injection Hs as <-. }
  destruct (q <=? 0); [by apply IH|].
  unfold bind, mergeUpsert, bind, selectCartLine, statement in Hs. simpl in Hs.
  destruct (take 1 _) as [|r l].
  - unfold insertCartLine, statement in Hs. simpl in Hs.
    destruct (hasUser u db && hasProduct pid db); [|done].
    by apply IH in Hs.
  - unfold updateCartQuantity, statement in Hs. simpl in Hs. by apply IH in Hs.
Qed.

(** A product key that does not parse, or that parses to an id the
    catalog does not know, is skipped by syncCart and by createOrder. *)
Lemma syncProducts_unknown u before key sizes after db :
  (∀ pid, Js.parseInt key = Some pid → findById (products db) pid = None) →
  syncProducts noFaults u (before ++ (key, sizes) :: after) db
  = syncProducts noFaults u (before ++ after) db.
Proof.
  intros Hkey. revert db Hkey.
  induction before as [|[key' sizes'] before IH]; intros db Hkey; simpl.
  - destruct (Js.parseInt key) as [pid|]; [|done].
    unfold bind. rewrite selectProductById_noFaults. by rewrite (Hkey pid).
  - destruct (Js.parseInt key') as [pid'|]; [|by apply IH].
    unfold bind. rewrite selectProductById_noFaults.
    destruct (findById (products db) pid') as [p|]; [|by apply IH].
    destruct (syncSizes noFaults u pid' sizes' db) as [[[]|e] db1] eqn:Hs; [|done].
    apply IH. intros pid Hp.
    rewrite (syncSizes_products _ _ _ _ _ Hs). by apply Hkey.
Qed.

Lemma assemble_unknown before key sizes after acc db :
  (∀ pid, Js.parseInt key = Some pid → findById (products db) pid = None) →
  OrderController.assemble noFaults (before ++ (key, sizes) :: after) acc db
  = OrderController.assemble noFaults (before ++ after) acc db.
Proof.
  intros Hkey. revert acc.
  induction before as [|[key' sizes'] before IH]; intros acc; simpl.
  - destruct (Js.parseInt key) as [pid|]; [|done].
    unfold bind. rewrite selectProductById_noFaults. by rewrite (Hkey pid).
  - destruct (Js.parseInt key') as [pid'|]; [|by apply IH].
    unfold bind. rewrite selectProductById_noFaults.
    destruct (findById (products db) pid') as [p|]; [|by apply IH].
    destruct (negb _); [done|apply IH].
Qed.

(** C6 on saveCart.  User 1 saves {1: {S: 2}, 9: {M: 1}}; product 9 is
    not in the catalog.  saveCart does not look the product up: after the
    stored cart has been deleted and the shirt line inserted, the insert
    for product 9 violates the foreign key of the cart table and the
    operation ends in the 500 answer.  syncCart, on the same request,
    skips product 9 and answers 200. *)
Theorem saveCart_unknown_product_fails :
  let req := request None (Some 1)
               (CartItemsObject [("1", [("S", 2)]); ("9", [("M", 1)])]) None None in
  findById (products shop) 9 = None
  ∧ (saveCart noFaults req shop).1
    = internalError "Error saving cart" foreignKeyViolation
  ∧ status (saveCart noFaults req shop).1 = 500
  ∧ status (syncCart noFaults req shop).1 = 200
  ∧ cart (syncCart noFaults req shop).2 = [set_quantity 2 line1].
Proof. cbv zeta. split_and!; vm_compute; reflexivity. Qed.

End InvalidEntries.

(** ** Checkout: what a created order holds *)
Module CheckoutResult.
Import Schema Http Spec MergeModel OrderController Fixtures Basics Derived.

Lemma selectProductById_ok fails pid db rows db' :
  selectProductById fails pid db = (Ok rows, db') →
  db' = db ∧ rows = match findById (products db) pid with Some p => [p] | None => [] end.
Proof.
  unfold selectProductById, statement, findById.
  destruct (fails _); [done|]. intros [= <- <-]. split; [done|].
  by destruct (filter _ (products db)).
Qed.

(** Whatever the oracle, a loop that ran to its end staged what
    [purchase] computes, and met no product out of stock. *)
Lemma assemble_inr fails items acc db res db' :
  assemble fails items acc db = (Ok (inr res), db') →
  res = purchase (products db) items acc
  ∧ firstOutOfStock (products db) items = None.
Proof.
  revert acc. induction items as [|[key sizes] rest IH]; intros acc; simpl.
  { by intros [= <- <-]. }
  destruct (Js.parseInt key) as [pid|]; [|apply IH].
  unfold bind.
  destruct (selectProductById fails pid db) as [[rows|e] db1] eqn:Hsel; [|done].
  apply selectProductById_ok in Hsel as [-> ->].
  destruct (findById (products db) pid) as [p|]; [|apply IH].
  destruct (Js.truthyBool (p_inStock p)); simpl; [apply IH|done].
Qed.

Lemma assemble_noFaults items acc db :
  firstOutOfStock (products db) items = None →
  assemble noFaults items acc db = (Ok (inr (purchase (products db) items acc)), db).
Proof.
  revert acc. induction items as [|[key sizes] rest IH]; intros acc; simpl; [done|].
  destruct (Js.parseInt key) as [pid|]; [|apply IH].
  unfold bind. rewrite selectProductById_noFaults.
  destruct (findById (products db) pid) as [p|]; [|apply IH].
  destruct (Js.truthyBool (p_inStock p)); simpl; [apply IH|done].
Qed.

Lemma linesTotal_snoc lines it :
  linesTotal (lines ++ [it]) = linesTotal lines + price it * quantity it.
Proof.
  unfold linesTotal. induction lines as [|x lines IH]; simpl; [lia|].
  rewrite IH. lia.
Qed.

(** The total is the sum of the staged line totals and every staged line
    is good: kept by the inner loop ... *)
Lemma stageSizes_good catalog pid p sizes acc :
  findById catalog pid = Some p → Js.truthyBool (p_inStock p) = true →
  acc.1 = linesTotal acc.2 →
  Forall (fun it => goodLine catalog (productId it) (quantity it) (price it)) acc.2 →
  let res := stageSizes pid (p_price p) sizes acc in
  res.1 = linesTotal res.2
  ∧ Forall (fun it => goodLine catalog (productId it) (quantity it) (price it)) res.2.
Proof.
  intros Hf Hs. revert acc. induction sizes as [|[sz q] sizes IH]; intros acc Ht Hg; [done|].
  simpl. destruct (0 <? q) eqn:Hq; [|by apply IH].
  apply Z.ltb_lt in Hq. apply IH; simpl.
  - rewrite linesTotal_snoc, Ht. done.
  - apply Forall_app. split; [done|]. constructor; [|done].
    split; [done|]. by exists p.
Qed.

(** ... and by the outer loop. *)
Lemma purchase_good catalog items acc :
  firstOutOfStock catalog items = None →
  acc.1 = linesTotal acc.2 →
  Forall (fun it => goodLine catalog (productId it) (quantity it) (price it)) acc.2 →
  let res := purchase catalog items acc in
  res.1 = linesTotal res.2
  ∧ Forall (fun it => goodLine catalog (productId it) (quantity it) (price it)) res.2.
Proof.
  revert acc. induction items as [|[key sizes] rest IH]; intros acc; simpl; [done|].
  destruct (Js.parseInt key) as [pid|]; [|apply IH].
  destruct (findById catalog pid) as [p|] eqn:Hf; [|apply IH].
  destruct (Js.truthyBool (p_inStock p)) eqn:Hs; [|done].
  intros Hnone Ht Hg.
  destruct (stageSizes_good catalog pid p sizes acc Hf Hs Ht Hg) as [Ht' Hg'].
  by apply IH.
Qed.

Lemma promiseAll_items_data fails orderId (items : list ItemData) db rows db' :
  promiseAll ((fun item =>
      insertOrderItem fails orderId (productId item) (quantity item)
        (price item) (size item)) <$> items) db = (Ok rows, db') →
  ∃ L, rows = (fun l => [l]) <$> L
       ∧ orderItems db' = orderItems db ++ L
       ∧ Forall2 (insertedAs orderId) L items.
Proof.
  revert db rows. induction items as [|item rest IH]; intros db rows; simpl.
  { intros [= <- <-]. exists []. by rewrite app_nil_r. }
  destruct (insertOrderItem_cases fails orderId (productId item) (quantity item)
              (price item) (size item) db) as [E|[E|[Hin E]]]; rewrite E; clear E;
    [done|done|].
  set (db1 := with_orderItems _ _ db).
  destruct (promiseAll _ db1) as [[rows1|e] db2] eqn:Hrun; [|done].
  intros [= <- <-]. destruct (IH db1 rows1 Hrun) as (L & -> & HL & HF).
  eexists (_ :: L). split_and!; [done| |by constructor].
  rewrite HL. simpl. by rewrite <- app_assoc.
Qed.

Lemma itemsTotal_linesTotal orderId L (staged : list ItemData) :
  Forall2 (insertedAs orderId) L staged → itemsTotal L = linesTotal staged.
Proof.
  induction 1 as [|l it L staged (_ & _ & Hq & Hp & _) _ IH]; [done|].
  unfold itemsTotal, linesTotal in *. simpl. by rewrite IH, Hq, Hp.
Qed.

(** What a 201 answer of createOrder stands for. *)
Lemma createOrder_201 fails req db :
  status (createOrder fails req db).1 = 201 →
  ∃ items a total staged L,
    let o := {| o_id := orders_seq db; o_userId := ownerOf req;
                o_totalAmount := total; o_status := Some "pending";
                o_shippingAddress := Some a; o_guestInfo := body_guestInfo req;
                o_paymentStatus := Some "pending" |} in
    firstFailedPrecondition req = None
    ∧ body_cartItems req = CartItemsObject items
    ∧ body_shippingAddress req = Some a
    ∧ assemble fails items (0, []) db = (Ok (inr (total, staged)), db)
    ∧ staged ≠ []
    ∧ (∀ u, ownerOf req = Some u → hasUser u db = true)
    ∧ (createOrder fails req db).1
      = okMessage 201 "Order created successfully" (OrderData o (Some <$> L))
    ∧ orders (createOrder fails req db).2 = orders db ++ [o]
    ∧ orderItems (createOrder fails req db).2 = orderItems db ++ L
    ∧ Forall2 (insertedAs (orders_seq db)) L staged.
Proof.
  destruct (firstFailedPrecondition req) as [msg|] eqn:Hpre.
  { destruct (createOrder_rejected fails req db msg Hpre) as [-> _]. discriminate. }
  destruct (createOrder_accepted fails req db Hpre) as (items & a & Hi & Ha & _ & _ & ->).
  unfold tryCatch, assembleAndCommit, bind, ownerOf.
  pose proof (assemble_store fails items (0, []) db) as Hst.
  destruct (assemble fails items (0, []) db) as [[[early|[total staged]]|e] db1] eqn:Has;
    simpl in Hst; subst db1; [|..|simpl; discriminate].
  { apply assemble_early in Has as [name ->]. simpl. discriminate. }
  destruct (bool_decide (length staged = 0%nat)) eqn:Hlen; [simpl; discriminate|].
  apply bool_decide_eq_false in Hlen.
  unfold insertOrder, statement.
  destruct (fails InsertOrder); [simpl; discriminate|].
  destruct (match Js.asTruthy _ with Some u => hasUser u db | None => true end) eqn:Hfk;
    [|simpl; discriminate].
  set (o := {| o_id := orders_seq db |}).
  set (db1 := with_orders _ _ db).
  pose proof (promiseAll_items fails (o_id o) staged db1) as Hframe.
  cbv zeta in Hframe. destruct Hframe as (_ & _ & _ & _ & Ho & _).
  destruct (promiseAll _ db1) as [[rows|e] db2] eqn:Hrun; [|simpl; discriminate].
  destruct (promiseAll_items_data _ _ _ _ _ _ Hrun) as (L & -> & HL & HF).
  assert (Hhead : head <$> ((fun l => [l]) <$> L) = Some <$> L).
  { rewrite <- list_fmap_compose. done. }
  rewrite Hhead. simpl in Ho.
  assert (Hstaged : staged ≠ []) by (by intros ->).
  assert (Hown : ∀ u, Js.asTruthy (Js.orNum (body_userId req) (user_id req)) = Some u →
                      hasUser u db = true).
  { intros u Hu. by rewrite Hu in Hfk. }
  destruct (Js.asTruthy _) as [u|] eqn:Hu.
  - unfold deleteCartOfUser, statement. destruct (fails _); [simpl; discriminate|].
    simpl. intros _. exists items, a, total, staged, L. split_and!; done.
  - simpl. intros _. exists items, a, total, staged, L. split_and!; done.
Qed.

(** The lines of a 201 answer are good lines. *)
Lemma createOrder_201_good fails req db :
  status (createOrder fails req db).1 = 201 →
  ∃ o L,
    data (createOrder fails req db).1 = OrderData o (Some <$> L)
    ∧ Forall (fun l => goodLine (products db) (oi_productId l) (oi_quantity l)
                         (oi_price l)) L.
Proof.
  intros H201.
  destruct (createOrder_201 fails req db H201)
    as (items & a & total & staged & L & Hpre & Hi & Ha & Has & Hne & _ & Hresp & Ho & HL & HF).
  apply assemble_inr in Has as [Hres Hnone].
  assert (Hnil : Forall (fun it : ItemData =>
                  goodLine (products db) (productId it) (quantity it) (price it)) [])
    by constructor.
  pose proof (purchase_good (products db) items (0, []) Hnone eq_refl Hnil) as Hgood.
  cbv zeta in Hgood. rewrite <- Hres in Hgood. simpl in Hgood.
  destruct Hgood as [_ Hgood].
  eexists _, L. rewrite Hresp. simpl. split; [done|].
  clear -HF Hgood. induction HF as [|l it L staged (Hid & Hp & Hq & Hpr & _) _ IH];
    [done|].
  apply Forall_cons in Hgood as [Hit Hgood]. constructor; [|by apply IH].
  by rewrite Hp, Hq, Hpr.
Qed.

(** X1.  Whatever the oracle, a 201 answer of createOrder carries an
    order and at least one line such that: the total of the order is the
    sum of price times quantity over its lines; every line has a positive
    quantity, the unit price the catalog held for its product at checkout,
    a product in stock, and points to the order; the order is pending,
    unpaid, and has the shipping address of the request. *)
Theorem createOrder_total_and_lines fails req db :
  status (createOrder fails req db).1 = 201 →
  ∃ o L,
    data (createOrder fails req db).1 = OrderData o (Some <$> L)
    ∧ L ≠ []
    ∧ o_totalAmount o = itemsTotal L
    ∧ Forall (fun l => oi_orderId l = o_id o
                       ∧ goodLine (products db) (oi_productId l) (oi_quantity l)
                           (oi_price l)) L
    ∧ o_status o = Some "pending" ∧ o_paymentStatus o = Some "pending"
    ∧ o_shippingAddress o = body_shippingAddress req
    ∧ o ∈ orders (createOrder fails req db).2
    ∧ (∀ l, l ∈ L → l ∈ orderItems (createOrder fails req db).2).
Proof.
  intros H201.
  destruct (createOrder_201 fails req db H201)
    as (items & a & total & staged & L & Hpre & Hi & Ha & Has & Hne & _ & Hresp & Ho & HL & HF).
  apply assemble_inr in Has as [Hres Hnone].
  assert (Hnil : Forall (fun it : ItemData =>
                  goodLine (products db) (productId it) (quantity it) (price it)) [])
    by constructor.
  pose proof (purchase_good (products db) items (0, []) Hnone eq_refl Hnil) as Hgood.
  cbv zeta in Hgood. rewrite <- Hres in Hgood. simpl in Hgood.
  destruct Hgood as [Htotal Hgood].
  eexists _, L. rewrite Hresp. simpl. split_and!; try done.
  - intros ->. apply Forall2_nil_inv_l in HF. done.
  - by rewrite (itemsTotal_linesTotal _ _ _ HF).
  - clear -HF Hgood. induction HF as [|l it L staged (Hid & Hp & Hq & Hpr & _) _ IH];
      [done|].
    apply Forall_cons in Hgood as [Hit Hgood]. constructor; [|by apply IH].
    split; [done|]. by rewrite Hp, Hq, Hpr.
  - rewrite Ho. apply elem_of_app. right. by left.
  - intros l Hl. rewrite HL. apply elem_of_app. by right.
Qed.

(** The guest checkout of the guide: two sizes of the shirt at 50.00. *)
Lemma createOrder_total_and_lines_witness :
  let req := request None None (CartItemsObject [("1", [("S", 2); ("M", 1)])])
               (Some accra) (Some john) in
  ∃ o L,
    data (createOrder noFaults req shop).1 = OrderData o (Some <$> L)
    ∧ L ≠ []
    ∧ o_totalAmount o = itemsTotal L
    ∧ Forall (fun l => oi_orderId l = o_id o
                       ∧ goodLine (products shop) (oi_productId l) (oi_quantity l)
                           (oi_price l)) L
    ∧ o_status o = Some "pending" ∧ o_paymentStatus o = Some "pending"
    ∧ o_shippingAddress o = body_shippingAddress req
    ∧ o ∈ orders (createOrder noFaults req shop).2
    ∧ (∀ l, l ∈ L → l ∈ orderItems (createOrder noFaults req shop).2).
Proof.
  cbv zeta.
  apply (createOrder_total_and_lines noFaults
           (request None None (CartItemsObject [("1", [("S", 2); ("M", 1)])])
              (Some accra) (Some john)) shop).
  vm_compute. reflexivity.
Defined.

Lemma promiseAll_cons_ok {A} (m : M A) ms db a db1 l db2 :
  m db = (Ok a, db1) → promiseAll ms db1 = (Ok l, db2) →
  promiseAll (m :: ms) db = (Ok (a :: l), db2).
Proof. intros Hm Hms. simpl. by rewrite Hm, Hms. Qed.

Lemma promiseAll_items_noFaults orderId (items : list ItemData) db :
  hasOrder orderId db = true →
  Forall (fun it => hasProduct (productId it) db = true) items →
  ∃ rows db',
    promiseAll ((fun item =>
        insertOrderItem noFaults orderId (productId item) (quantity item)
          (price item) (size item)) <$> items) db = (Ok rows, db').
Proof.
  revert db. induction items as [|item rest IH]; intros db Ho Hp; [by eexists _, _|].
  apply Forall_cons in Hp as [Hp Hrest]. rewrite fmap_cons.
  set (db1 := with_orderItems
                (orderItems db ++ [{| oi_id := orderItems_seq db; oi_orderId := orderId;
                                      oi_productId := productId item;
                                      oi_quantity := quantity item;
                                      oi_price := price item;
                                      oi_size := Some (size item) |}])
                (orderItems_seq db + 1) db).
  destruct (IH db1) as (rows & db' & Hrest'); [done..|].
  eexists _, _. eapply promiseAll_cons_ok; [|exact Hrest'].
  unfold insertOrderItem, statement. simpl. by rewrite Ho, Hp.
Qed.

(** X2.  With no statement failing, a checkout that passes the request
    checks, meets no product out of stock and stages no line (every key
    fails to parse or names no product of the catalog, or every quantity
    is zero or negative) answers 400 "No valid items in cart" and leaves
    the store as it was. *)
Theorem createOrder_empty_cart req db items :
  firstFailedPrecondition req = None →
  body_cartItems req = CartItemsObject items →
  firstOutOfStock (products db) items = None →
  (purchase (products db) items (0, [])).2 = [] →
  createOrder noFaults req db = (failure 400 "No valid items in cart", db).
Proof.
  intros Hpre Hi Hnone Hempty.
  destruct (createOrder_accepted noFaults req db Hpre) as (items' & a & Hi' & _ & _ & _ & ->).
  rewrite Hi in Hi'. injection Hi' as <-.
  unfold tryCatch, assembleAndCommit, bind.
  rewrite (assemble_noFaults items (0, []) db Hnone).
  destruct (purchase (products db) items (0, [])) as [total staged].
  simpl in Hempty. subst staged. done.
Qed.

(** A snapshot with an unknown product, a key that is no number and a
    zero quantity. *)
Lemma createOrder_empty_cart_witness :
  createOrder noFaults
    (request None (Some 1)
       (CartItemsObject [("1", [("S", 0)]); ("9", [("M", 1)]); ("shirt", [("L", 2)])])
       (Some accra) None) shop
  = (failure 400 "No valid items in cart", shop).
Proof.
  apply (createOrder_empty_cart _ shop
           [("1", [("S", 0)]); ("9", [("M", 1)]); ("shirt", [("L", 2)])]);
    vm_compute; reflexivity.
Defined.

(** X3.  With no statement failing, createOrder answers 201 exactly when
    the request passes the four checks, no catalog product of the
    snapshot is out of stock, at least one line is staged, and the owner
    identity, if there is one, is an existing user (the orders table
    references users); when only the last condition fails, the answer is
    the 500 of the [catch] and no order, no line is persisted and the cart
    is not cleared. *)
Theorem createOrder_succeeds_iff req db items :
  body_cartItems req = CartItemsObject items →
  (status (createOrder noFaults req db).1 = 201
   ↔ firstFailedPrecondition req = None
     ∧ firstOutOfStock (products db) items = None
     ∧ (purchase (products db) items (0, [])).2 ≠ []
     ∧ ∀ u, ownerOf req = Some u → hasUser u db = true)
  ∧ (firstFailedPrecondition req = None →
     firstOutOfStock (products db) items = None →
     (purchase (products db) items (0, [])).2 ≠ [] →
     (∃ u, ownerOf req = Some u ∧ hasUser u db = false) →
     (createOrder noFaults req db).1
     = internalError "Error creating order" foreignKeyViolation
     ∧ orders (createOrder noFaults req db).2 = orders db
     ∧ orderItems (createOrder noFaults req db).2 = orderItems db
     ∧ cart (createOrder noFaults req db).2 = cart db).
Proof.
  intros Hi. split; [split|].
  - intros H201.
    destruct (createOrder_201 noFaults req db H201)
      as (items' & a & total & staged & L & Hpre & Hi' & _ & Has & Hne & Hown & _).
    rewrite Hi in Hi'. injection Hi' as <-.
    apply assemble_inr in Has as [Hres Hnone]. rewrite <- Hres. done.
  - intros (Hpre & Hnone & Hne & Hown).
    destruct (createOrder_accepted noFaults req db Hpre) as (items' & a & Hi' & _ & _ & _ & ->).
    rewrite Hi in Hi'. injection Hi' as <-.
    unfold tryCatch, assembleAndCommit, bind, ownerOf in *.
    rewrite (assemble_noFaults items (0, []) db Hnone).
    pose proof (purchase_good (products db) items (0, []) Hnone eq_refl) as Hgood.
    destruct (purchase (products db) items (0, [])) as [total staged].
    simpl in Hne. rewrite bool_decide_false by (by destruct staged).
    unfold insertOrder, statement. simpl.
    assert (match Js.asTruthy (Js.orNum (body_userId req) (user_id req)) with
            | Some u => hasUser u db | None => true end = true) as ->.
    { destruct (Js.asTruthy _); [by apply Hown|done]. }
    set (o := {| o_id := orders_seq db |}).
    set (db1 := with_orders _ _ db).
    destruct (promiseAll_items_noFaults (o_id o) staged db1) as (rows & db2 & ->).
    + apply bool_decide_eq_true. simpl. rewrite fmap_app. apply elem_of_app.
      right. by left.
    + destruct Hgood as [_ Hgood]; [constructor|]. simpl in Hgood.
      eapply Forall_impl; [exact Hgood|]. intros it (_ & p & Hf & _).
      by apply (CartMerge.findById_hasProduct db1 _ p).
    + by destruct (Js.asTruthy _).
  - intros Hpre Hnone Hne (u & Hu & Hmissing).
    destruct (createOrder_accepted noFaults req db Hpre) as (items' & a & Hi' & _ & _ & _ & ->).
    rewrite Hi in Hi'. injection Hi' as <-.
    unfold tryCatch, assembleAndCommit, bind, ownerOf in *.
    rewrite (assemble_noFaults items (0, []) db Hnone).
    destruct (purchase (products db) items (0, [])) as [total staged].
    simpl in Hne. rewrite bool_decide_false by (by destruct staged).
    unfold insertOrder, statement. simpl. rewrite Hu, Hmissing. done.
Qed.

(** User 7 does not exist: the order insert is refused. *)
Lemma createOrder_succeeds_iff_witness :
  let req := request (Some 7) None (CartItemsObject [("1", [("S", 2)])])
               (Some accra) None in
  status (createOrder noFaults req shop).1 = 500
  ∧ orders (createOrder noFaults req shop).2 = []
  ∧ status (createOrder noFaults
              (request (Some 2) None (CartItemsObject [("1", [("S", 2)])])
                 (Some accra) None) shop).1 = 201.
Proof.
  cbv zeta.
  destruct (createOrder_succeeds_iff
              (request (Some 7) None (CartItemsObject [("1", [("S", 2)])])
                 (Some accra) None) shop [("1", [("S", 2)])] eq_refl) as [_ Hfk].
  destruct Hfk as (Hresp & Horders & _);
    [vm_compute; reflexivity|vm_compute; reflexivity|vm_compute; discriminate
    |exists 7; split; vm_compute; reflexivity|].
  destruct (createOrder_succeeds_iff
              (request (Some 2) None (CartItemsObject [("1", [("S", 2)])])
                 (Some accra) None) shop [("1", [("S", 2)])] eq_refl) as [[_ Hok] _].
  split_and!.
  - by rewrite Hresp.
  - exact Horders.
  - apply Hok. split_and!; [vm_compute; reflexivity|vm_compute; reflexivity
                            |vm_compute; discriminate|].
    intros u [= <-]. vm_compute. reflexivity.
Defined.

End CheckoutResult.

(** ** Status and payment updates *)
Module OrderUpdates.
Import Schema Http Spec OrderController Queries Fixtures Basics Derived.

#[local] Arguments Js.truthyStr : simpl never.

Lemma with_orders_same db : with_orders (orders db) (orders_seq db) db = db.
Proof. by destruct db. Qed.

Lemma fmap_untouched {A} (f : A → A) (l : list A) :
  (∀ x, x ∈ l → f x = x) → f <$> l = l.
Proof.
  intros H. induction l as [|x l IH]; [done|]. simpl. f_equal.
  - apply H. left.
  - apply IH. intros y Hy. apply H. by right.
Qed.

Lemma withStatus_absent id st db : id ∉ o_id <$> orders db → withStatus id st db = db.
Proof.
  intros Hn. unfold withStatus. rewrite fmap_untouched; [apply with_orders_same|].
  intros o Ho. rewrite decide_False; [done|].
  intros <-. apply Hn. apply list_elem_of_fmap. by exists o.
Qed.

Lemma withPayment_absent id ps db : id ∉ o_id <$> orders db → withPayment id ps db = db.
Proof.
  intros Hn. unfold withPayment. rewrite fmap_untouched; [apply with_orders_same|].
  intros o Ho. rewrite decide_False; [done|].
  intros <-. apply Hn. apply list_elem_of_fmap. by exists o.
Qed.

Lemma filter_id_nil id (l : list Order) :
  filter (fun o => o_id o = id) l = [] ↔ id ∉ o_id <$> l.
Proof.
  split.
  - intros Hf Hin. apply list_elem_of_fmap in Hin as (o & -> & Hin).
    assert (o ∈ filter (fun o' => o_id o' = o_id o) l) as Ho
        by by apply list_elem_of_filter.
    rewrite Hf in Ho. by apply elem_of_nil in Ho.
  - intros Hn. destruct (filter _ l) as [|o r] eqn:E; [done|]. exfalso.
    assert (o ∈ filter (fun o' => o_id o' = id) l) as Ho by (rewrite E; left).
    apply list_elem_of_filter in Ho as [<- Ho]. apply Hn.
    apply list_elem_of_fmap. by exists o.
Qed.

Lemma ids_withStatus id st db : o_id <$> orders (withStatus id st db) = o_id <$> orders db.
Proof.
  unfold withStatus. simpl. rewrite <- list_fmap_compose. apply list_fmap_ext.
  intros i o _. simpl. by destruct (decide _).
Qed.

Lemma ids_withPayment id ps db :
  o_id <$> orders (withPayment id ps db) = o_id <$> orders db.
Proof.
  unfold withPayment. simpl. rewrite <- list_fmap_compose. apply list_fmap_ext.
  intros i o _. simpl. by destruct (decide _).
Qed.

(** What a status update leaves behind, whatever the store rejects. *)
Lemma updateOrderStatus_cases fails req db :
  let run := updateOrderStatus fails req db in
  (run.2 = db ∧ status run.1 ≠ 200)
  ∨ ∃ id st, targetOrder req = Some id ∧ body_status req = Some st
             ∧ st ∈ validStatuses ∧ id ∈ o_id <$> orders db
             ∧ run.2 = withStatus id st db ∧ status run.1 = 200.
Proof.
  unfold updateOrderStatus, tryCatch, targetOrder.
  destruct (params_id req) as [id|]; simpl; [|by left].
  destruct (Js.truthyStr (Some id)) eqn:Ht; simpl; [|by left].
  destruct (Js.parseInt id) as [orderId|] eqn:Hp; simpl; [|by left].
  destruct (body_status req) as [st|]; simpl; [|by left].
  destruct (String.eqb st EmptyString); simpl; [by left|].
  destruct (bool_decide (st ∈ validStatuses)) eqn:Hv; simpl; [|by left].
  apply bool_decide_eq_true in Hv.
  unfold bind, selectOrderById, updateOrderStatusById, statement.
  destruct (fails (SelectOrderById orderId)); simpl; [by left|].
  destruct (take 1 (filter (fun o => o_id o = orderId) (orders db))) as [|o r] eqn:Hsel;
    simpl; [by left|].
  destruct (fails (UpdateOrderStatus orderId)); simpl; [by left|].
  right. exists orderId, st. split_and!; try done.
  destruct (decide (orderId ∈ o_id <$> orders db)) as [|Hn]; [done|].
  apply filter_id_nil in Hn. by rewrite Hn in Hsel.
Qed.

(** The store after a status update when no statement is rejected. *)
Lemma updateOrderStatus_store req db :
  (updateOrderStatus noFaults req db).2
  = match targetOrder req, body_status req with
    | Some id, Some st =>
        if bool_decide (st ∈ validStatuses) then withStatus id st db else db
    | _, _ => db
    end.
Proof.
  unfold updateOrderStatus, tryCatch, targetOrder.
  destruct (params_id req) as [id|]; simpl; [|done].
  destruct (Js.truthyStr (Some id)) eqn:Ht; simpl; [|done].
  destruct (Js.parseInt id) as [orderId|] eqn:Hp; simpl; [|done].
  destruct (body_status req) as [st|]; simpl; [|done].
  destruct (String.eqb st EmptyString) eqn:He; simpl.
  { apply String.eqb_eq in He as ->. done. }
  destruct (bool_decide (st ∈ validStatuses)) eqn:Hv; simpl; [|done].
  unfold bind, selectOrderById, updateOrderStatusById, statement, noFaults.
  destruct (take 1 (filter (fun o => o_id o = orderId) (orders db))) as [|o r] eqn:Hsel;
    simpl; [|done].
  symmetry. apply withStatus_absent. apply filter_id_nil.
  destruct (filter _ (orders db)); [done|discriminate].
Qed.

(** The status code of a status update depends on the store only through
    the ids of its orders. *)
Lemma updateOrderStatus_code req db db' :
  o_id <$> orders db = o_id <$> orders db' →
  status (updateOrderStatus noFaults req db).1
  = status (updateOrderStatus noFaults req db').1.
Proof.
  intros Hids. unfold updateOrderStatus, tryCatch.
  destruct (negb (Js.truthyStr (params_id req))); simpl; [done|].
  destruct (Js.parseInt _) as [orderId|]; simpl; [|done].
  destruct (body_status req) as [st|]; simpl; [|done].
  destruct (String.eqb st EmptyString); simpl; [done|].
  destruct (negb (bool_decide (st ∈ validStatuses))); simpl; [done|].
  unfold bind, selectOrderById, updateOrderStatusById, statement, noFaults.
  destruct (decide (orderId ∈ o_id <$> orders db)) as [Hin|Hn].
  - destruct (OrderStatus.selectOrderById_found orderId db Hin) as (o & r & ->).
    rewrite Hids in Hin.
    destruct (OrderStatus.selectOrderById_found orderId db' Hin) as (o' & r' & ->).
    done.
  - pose proof Hn as Hn'. rewrite Hids in Hn'.
    apply filter_id_nil in Hn, Hn'. by rewrite Hn, Hn'.
Qed.

(** What a payment update leaves behind, whatever the store rejects. *)
Lemma updatePaymentStatus_cases failsQ ps req db :
  let run := updatePaymentStatus failsQ ps req db in
  (run.2 = db ∧ status run.1 ≠ 200)
  ∨ ∃ id s, targetOrder req = Some id ∧ ps = Some s
            ∧ s ∈ validPaymentStatuses ∧ id ∈ o_id <$> orders db
            ∧ run.2 = withPayment id s db ∧ status run.1 = 200.
Proof.
  unfold updatePaymentStatus, tryCatch, targetOrder.
  destruct (params_id req) as [id|]; simpl; [|by left].
  destruct (Js.truthyStr (Some id)) eqn:Ht; simpl; [|by left].
  destruct (Js.parseInt id) as [orderId|] eqn:Hp; simpl; [|by left].
  destruct ps as [s|]; simpl; [|by left].
  destruct (Js.truthyStr (Some s)); simpl; [|by left].
  destruct (bool_decide (s ∈ validPaymentStatuses)) eqn:Hv; simpl; [|by left].
  apply bool_decide_eq_true in Hv.
  unfold bind, updateOrderPaymentById, query.
  destruct (failsQ (UpdateOrderPayment orderId)); simpl; [by left|].
  pose proof (ids_withPayment orderId s db) as Hids.
  unfold withPayment in Hids. simpl in Hids.
  destruct (filter _ _) as [|o r] eqn:Hsel; simpl.
  - left. split; [|done].
    apply filter_id_nil in Hsel. rewrite Hids in Hsel.
    by apply (withPayment_absent orderId s db).
  - right. exists orderId, s. split_and!; try done.
    destruct (decide (orderId ∈ o_id <$> orders db)) as [|Hn]; [done|].
    exfalso. rewrite <- Hids in Hn. apply filter_id_nil in Hn.
    by rewrite Hn in Hsel.
Qed.

Lemma Forall2_update {A} (P : A → A → Prop) (f : A → A) (l : list A) :
  (∀ x, x ∈ l → P x (f x)) → Forall2 P l (f <$> l).
Proof.
  intros H. apply Forall2_fmap_r. apply Forall_Forall2_diag.
  by apply Forall_forall.
Qed.

Lemma Forall2_same {A} (P : A → A → Prop) (l : list A) :
  (∀ x, P x x) → Forall2 P l l.
Proof. intros H. apply Forall_Forall2_diag. by apply Forall_forall. Qed.

(** *** The [updatedAt] column *)

Lemma store_eq (s s' : Stamped.Store) :
  Stamped.plain s = Stamped.plain s' →
  Stamped.orders_updatedAt s = Stamped.orders_updatedAt s' → s = s'.
Proof. destruct s, s'. simpl. by intros -> ->. Qed.

Lemma touch_length id now rows stamps :
  length (Stamped.touch id now rows stamps) = length stamps.
Proof.
  revert stamps. induction rows as [|o rows IH]; intros [|t stamps]; simpl; try done.
  by rewrite IH.
Qed.

Lemma touch_absent id now rows stamps :
  id ∉ o_id <$> rows → Stamped.touch id now rows stamps = stamps.
Proof.
  revert stamps. induction rows as [|o rows IH]; intros [|t stamps] Hn; simpl; try done.
  rewrite fmap_cons in Hn. apply not_elem_of_cons in Hn as [Hne Hn].
  rewrite decide_False by done. by rewrite IH.
Qed.

Lemma touch_ids id now rows rows' stamps :
  o_id <$> rows = o_id <$> rows' →
  Stamped.touch id now rows stamps = Stamped.touch id now rows' stamps.
Proof.
  revert rows' stamps. induction rows as [|o rows IH]; intros [|o' rows'] stamps E;
    try discriminate; [done|].
  rewrite !fmap_cons in E. injection E as Eo E.
  destruct stamps as [|t stamps]; [done|]. simpl. rewrite Eo. f_equal. by apply IH.
Qed.

Lemma touch_twice id t1 t2 rows stamps :
  Stamped.touch id t2 rows (Stamped.touch id t1 rows stamps)
  = Stamped.touch id t2 rows stamps.
Proof.
  revert stamps. induction rows as [|o rows IH]; intros [|t stamps]; simpl; try done.
  rewrite IH. by destruct (decide _).
Qed.

Lemma touch_comm id1 id2 t rows stamps :
  Stamped.touch id2 t rows (Stamped.touch id1 t rows stamps)
  = Stamped.touch id1 t rows (Stamped.touch id2 t rows stamps).
Proof.
  revert stamps. induction rows as [|o rows IH]; intros [|t0 stamps]; simpl; try done.
  rewrite IH. by repeat destruct (decide _).
Qed.

(** The stamped rows after an update of the rows with id [id]. *)
Lemma rows_touched (R : Order * Z → Order * Z → Prop) (f : Order → Order) id now os ts :
  (∀ o t, R (o, t) (f o, if decide (o_id o = id) then now else t)) →
  Forall2 R (zip os ts) (zip (f <$> os) (Stamped.touch id now os ts)).
Proof.
  intros H. revert ts. induction os as [|o os IH]; intros [|t ts]; simpl;
    constructor; auto.
Qed.

Lemma rows_touched_in (f : Order → Order) id now os ts r' :
  r' ∈ zip (f <$> os) (Stamped.touch id now os ts) →
  ∃ o t, (o, t) ∈ zip os ts ∧ r' = (f o, if decide (o_id o = id) then now else t).
Proof.
  revert ts. induction os as [|o os IH]; intros [|t ts]; simpl;
    try by intros ?%elem_of_nil.
  intros [->|Hin]%elem_of_cons.
  - exists o, t. split; [left|done].
  - destruct (IH ts Hin) as (o' & t' & Hin' & ->). exists o', t'. split; [by right|done].
Qed.

(** What a status update leaves behind in the stamped store, whatever the
    store rejects. *)
Lemma stamped_status_cases fails now req s :
  let run := Stamped.updateOrderStatus fails now req s in
  (run.2 = s ∧ status run.1 ≠ 200)
  ∨ ∃ id st, targetOrder req = Some id ∧ body_status req = Some st
             ∧ st ∈ validStatuses ∧ id ∈ o_id <$> orders (Stamped.plain s)
             ∧ run.2 = statusStamped id st now s ∧ status run.1 = 200.
Proof.
  destruct s as [db ts].
  unfold Stamped.updateOrderStatus, Stamped.tryCatch, targetOrder.
  destruct (params_id req) as [id|]; simpl; [|by left].
  destruct (Js.truthyStr (Some id)) eqn:Ht; simpl; [|by left].
  destruct (Js.parseInt id) as [orderId|] eqn:Hp; simpl; [|by left].
  destruct (body_status req) as [st|]; simpl; [|by left].
  destruct (String.eqb st EmptyString); simpl; [by left|].
  destruct (bool_decide (st ∈ validStatuses)) eqn:Hv; simpl; [|by left].
  apply bool_decide_eq_true in Hv.
  unfold Stamped.bind, Stamped.lift, Stamped.updateOrderStatusById, Stamped.stamping,
    selectOrderById, updateOrderStatusById, statement.
  destruct (fails (SelectOrderById orderId)); simpl; [by left|].
  destruct (take 1 (filter (fun o => o_id o = orderId) (orders db))) as [|o r] eqn:Hsel;
    simpl; [by left|].
  destruct (fails (UpdateOrderStatus orderId)); simpl; [by left|].
  right. exists orderId, st. split_and!; try done.
  destruct (decide (orderId ∈ o_id <$> orders db)) as [|Hn]; [done|].
  apply filter_id_nil in Hn. by rewrite Hn in Hsel.
Qed.

(** Forgetting the stamps gives the run of the plain handler. *)
Lemma stamped_status_agrees fails now req s :
  (Stamped.updateOrderStatus fails now req s).1
  = (updateOrderStatus fails req (Stamped.plain s)).1
  ∧ Stamped.plain (Stamped.updateOrderStatus fails now req s).2
    = (updateOrderStatus fails req (Stamped.plain s)).2.
Proof.
  destruct s as [db ts].
  unfold Stamped.updateOrderStatus, Stamped.tryCatch, updateOrderStatus, tryCatch.
  destruct (negb (Js.truthyStr (params_id req))); simpl; [done|].
  destruct (Js.parseInt _) as [orderId|]; simpl; [|done].
  destruct (body_status req) as [st|]; simpl; [|done].
  destruct (String.eqb st EmptyString); simpl; [done|].
  destruct (negb (bool_decide (st ∈ validStatuses))); simpl; [done|].
  unfold Stamped.bind, Stamped.lift, Stamped.updateOrderStatusById, Stamped.stamping,
    bind, selectOrderById, updateOrderStatusById, statement.
  destruct (fails (SelectOrderById orderId)); simpl; [done|].
  destruct (take 1 (filter (fun o => o_id o = orderId) (orders db))) as [|o r];
    simpl; [done|].
  by destruct (fails (UpdateOrderStatus orderId)).
Qed.

(** The stamped store after a status update when no statement is
    rejected. *)
Lemma stamped_status_store now req s :
  (Stamped.updateOrderStatus noFaults now req s).2
  = match targetOrder req, body_status req with
    | Some id, Some st =>
        if bool_decide (st ∈ validStatuses) then statusStamped id st now s else s
    | _, _ => s
    end.
Proof.
  destruct (stamped_status_cases noFaults now req s) as [[E Hc]|H].
  - rewrite E. destruct (targetOrder req) as [id|] eqn:Ht; [|done].
    destruct (body_status req) as [st|] eqn:Hs; [|done].
    destruct (bool_decide (st ∈ validStatuses)) eqn:Hv; [|done].
    destruct (decide (id ∈ o_id <$> orders (Stamped.plain s))) as [Hin|Hn].
    + exfalso. apply Hc.
      destruct (stamped_status_agrees noFaults now req s) as [-> _].
      apply bool_decide_eq_true in Hv.
      destruct (updateOrderStatus_cases noFaults req (Stamped.plain s)) as [[E0 _]|H0].
      * pose proof (updateOrderStatus_store req (Stamped.plain s)) as Hst.
        rewrite Ht, Hs, bool_decide_eq_true_2 in Hst by done.
        unfold updateOrderStatus, tryCatch, targetOrder in *.
        destruct (params_id req) as [k|]; [|done].
        destruct (Js.truthyStr (Some k)); [|done]. simpl in Ht. simpl. rewrite Ht. simpl.
        rewrite Hs. destruct (String.eqb st EmptyString) eqn:He.
        { apply String.eqb_eq in He as ->.
          unfold validStatuses in Hv. rewrite !elem_of_cons in Hv.
          destruct Hv as [|[|[|[|[|?%elem_of_nil]]]]]; done. }
        rewrite bool_decide_eq_true_2 by done. simpl.
        unfold bind, selectOrderById, updateOrderStatusById, statement, noFaults.
        destruct (OrderStatus.selectOrderById_found id (Stamped.plain s) Hin) as (o & r & ->).
        done.
      * by destruct H0 as (? & ? & _ & _ & _ & _ & _ & ?).
    + apply store_eq; simpl.
      * symmetry. by apply withStatus_absent.
      * symmetry. by apply touch_absent.
  - destruct H as (id & st & -> & -> & Hv & _ & -> & _).
    by rewrite bool_decide_eq_true_2.
Qed.

(** What a payment update leaves behind in the stamped store, whatever
    the store rejects. *)
Lemma stamped_payment_cases failsQ ps now req s :
  let run := Stamped.updatePaymentStatus failsQ now ps req s in
  (run.2 = s ∧ status run.1 ≠ 200)
  ∨ ∃ id p, targetOrder req = Some id ∧ ps = Some p
            ∧ p ∈ validPaymentStatuses ∧ id ∈ o_id <$> orders (Stamped.plain s)
            ∧ run.2 = paymentStamped id p now s ∧ status run.1 = 200.
Proof.
  destruct s as [db ts].
  unfold Stamped.updatePaymentStatus, Stamped.tryCatch, targetOrder.
  destruct (params_id req) as [id|]; simpl; [|by left].
  destruct (Js.truthyStr (Some id)) eqn:Ht; simpl; [|by left].
  destruct (Js.parseInt id) as [orderId|] eqn:Hp; simpl; [|by left].
  destruct ps as [p|]; simpl; [|by left].
  destruct (Js.truthyStr (Some p)); simpl; [|by left].
  destruct (bool_decide (p ∈ validPaymentStatuses)) eqn:Hv; simpl; [|by left].
  apply bool_decide_eq_true in Hv.
  unfold Stamped.bind, Stamped.updateOrderPaymentById, Stamped.stamping,
    updateOrderPaymentById, query.
  destruct (failsQ (UpdateOrderPayment orderId)); simpl; [by left|].
  pose proof (ids_withPayment orderId p db) as Hids.
  unfold withPayment in Hids. simpl in Hids.
  destruct (filter _ _) as [|o r] eqn:Hsel; simpl.
  - left. split; [|done].
    apply filter_id_nil in Hsel. rewrite Hids in Hsel.
    apply store_eq; simpl.
    + by apply (withPayment_absent orderId p db).
    + by apply touch_absent.
  - right. exists orderId, p. split_and!; try done.
    destruct (decide (orderId ∈ o_id <$> orders db)) as [|Hn]; [done|].
    exfalso. rewrite <- Hids in Hn. apply filter_id_nil in Hn.
    by rewrite Hn in Hsel.
Qed.

Lemma stamped_payment_agrees failsQ ps now req s :
  (Stamped.updatePaymentStatus failsQ now ps req s).1
  = (updatePaymentStatus failsQ ps req (Stamped.plain s)).1
  ∧ Stamped.plain (Stamped.updatePaymentStatus failsQ now ps req s).2
    = (updatePaymentStatus failsQ ps req (Stamped.plain s)).2.
Proof.
  destruct s as [db ts].
  unfold Stamped.updatePaymentStatus, Stamped.tryCatch, updatePaymentStatus, tryCatch.
  destruct (negb (Js.truthyStr (params_id req))); simpl; [done|].
  destruct (Js.parseInt _) as [orderId|]; simpl; [|done].
  destruct (negb (Js.truthyStr ps)); simpl; [done|].
  destruct (negb (bool_decide (_ ∈ validPaymentStatuses))); simpl; [done|].
  unfold Stamped.bind, Stamped.updateOrderPaymentById, Stamped.stamping,
    bind, updateOrderPaymentById, query.
  destruct (failsQ (UpdateOrderPayment orderId)); simpl; [done|].
  by destruct (filter _ _).
Qed.

(** X4.  What a status update writes, whatever the store rejects: the
    status and the [updatedAt] of the orders with the requested id, and
    nothing else.  Every other table and every serial is as before, the
    orders are the same in number and position, every order still has its
    time stamp, and each order is either unchanged, time stamp included,
    or has the requested id, carries the requested status, one of the
    five accepted values, and is stamped with the time of the call.  An
    answer other than 200 leaves the store as it was, and after a 200
    every order with that id has the requested status and the new time
    stamp. *)
Theorem updateOrderStatus_effect fails now req s :
  Stamped.wellStamped s →
  let run := Stamped.updateOrderStatus fails now req s in
  let db := Stamped.plain s in
  let db' := Stamped.plain run.2 in
  (status run.1 ≠ 200 → run.2 = s)
  ∧ users db' = users db ∧ products db' = products db
  ∧ cart db' = cart db ∧ cart_seq db' = cart_seq db
  ∧ orderItems db' = orderItems db ∧ orderItems_seq db' = orderItems_seq db
  ∧ orders_seq db' = orders_seq db
  ∧ length (orders db') = length (orders db)
  ∧ Stamped.wellStamped run.2
  ∧ Forall2 (fun r r' =>
               r' = r
               ∨ ∃ st, targetOrder req = Some (o_id r.1) ∧ body_status req = Some st
                       ∧ st ∈ validStatuses ∧ r' = (set_status (Some st) r.1, now))
            (Stamped.rowsOf s) (Stamped.rowsOf run.2)
  ∧ (status run.1 = 200 →
       ∃ id st, targetOrder req = Some id ∧ body_status req = Some st
                ∧ id ∈ o_id <$> orders db'
                ∧ ∀ r', r' ∈ Stamped.rowsOf run.2 → o_id r'.1 = id →
                        o_status r'.1 = Some st ∧ r'.2 = now).
Proof.
  intros Hw run db db'. subst db db'.
  destruct (stamped_status_cases fails now req s) as [[E Hc]|H];
    fold run in E, Hc || fold run in H.
  - rewrite E. split_and!; try done. by apply Forall2_same; left.
  - destruct H as (id & st & Ht & Hs & Hv & Hin & E & Hc). rewrite E.
    split_and!; try done.
    + simpl. by rewrite length_fmap.
    + unfold Stamped.wellStamped. simpl. by rewrite touch_length, length_fmap.
    + unfold Stamped.rowsOf. simpl. apply rows_touched. intros o t. simpl.
      destruct (decide (o_id o = id)) as [<-|]; [right|by left].
      by exists st.
    + intros _. exists id, st. split_and!; try done.
      * cbn [statusStamped Stamped.plain]. by rewrite ids_withStatus.
      * unfold Stamped.rowsOf. simpl. intros r' Hr' Hid.
        apply rows_touched_in in Hr' as (o & t & _ & ->). simpl in *.
        destruct (decide (o_id o = id)) as [|Hn]; done.
Qed.

Lemma updateOrderStatus_effect_witness :
  let req := {| body_userId := None; user_id := None;
                body_cartItems := CartItemsMissing;
                body_shippingAddress := None; body_guestInfo := None;
                body_status := Some "shipped"; params_id := Some "1" |} in
  let run := Stamped.updateOrderStatus noFaults 200 req (stampedShop 100) in
  Stamped.wellStamped (stampedShop 100)
  ∧ status run.1 = 200
  ∧ Stamped.rowsOf run.2 = [(set_status (Some "shipped") delivered1, 200)]
  ∧ Forall2 (fun r r' =>
               r' = r
               ∨ ∃ st, targetOrder req = Some (o_id r.1) ∧ body_status req = Some st
                       ∧ st ∈ validStatuses ∧ r' = (set_status (Some st) r.1, 200))
            (Stamped.rowsOf (stampedShop 100)) (Stamped.rowsOf run.2).
Proof.
  intros req run. split; [reflexivity|]. split; [reflexivity|]. split; [reflexivity|].
  apply (updateOrderStatus_effect noFaults 200 req (stampedShop 100)). reflexivity.
Defined.

(** X5.  The answer of a status update when no statement is rejected:
    200 exactly when the id parses, the status is one of the five
    accepted values and an order with that id exists; 404 exactly when
    only the order is missing; 400 in every other case. *)
Theorem updateOrderStatus_answer req db :
  let code := status (updateOrderStatus noFaults req db).1 in
  let wellFormed id st :=
    targetOrder req = Some id ∧ body_status req = Some st ∧ st ∈ validStatuses in
  (code = 200 ↔ ∃ id st, wellFormed id st ∧ id ∈ o_id <$> orders db)
  ∧ (code = 404 ↔ ∃ id st, wellFormed id st ∧ id ∉ o_id <$> orders db)
  ∧ (code = 400 ↔ ¬ ∃ id st, wellFormed id st).
Proof.
  cbv zeta. unfold updateOrderStatus, tryCatch, targetOrder.
  destruct (params_id req) as [id|]; simpl;
    [|split_and!; split; try done; try (by intros (?&?&(?&?&?)&?)); by intros _ (?&?&?&?&?)].
  destruct (Js.truthyStr (Some id)) eqn:Ht; simpl;
    [|split_and!; split; try done; try (by intros (?&?&(?&?&?)&?)); by intros _ (?&?&?&?&?)].
  destruct (Js.parseInt id) as [orderId|] eqn:Hp; simpl;
    [|split_and!; split; try done; try (by intros (?&?&(?&?&?)&?)); by intros _ (?&?&?&?&?)].
  destruct (body_status req) as [st|]; simpl;
    [|split_and!; split; try done; try (by intros (?&?&(?&?&?)&?)); by intros _ (?&?&?&?&?)].
  destruct (String.eqb st EmptyString) eqn:He; simpl.
  { split_and!; split; try done.
    - intros (?&?&(?&?&Hv)&?). simplify_eq.
      apply OrderStatus.validStatus_nonempty in Hv. congruence.
    - intros (?&?&(?&?&Hv)&?). simplify_eq.
      apply OrderStatus.validStatus_nonempty in Hv. congruence.
    - intros _ (?&?&?&?&Hv). simplify_eq.
      apply OrderStatus.validStatus_nonempty in Hv. congruence. }
  destruct (bool_decide (st ∈ validStatuses)) eqn:Hv; simpl.
  2:{ apply bool_decide_eq_false in Hv.
      split_and!; split; try done.
      - intros (?&?&(?&?&?)&?). by simplify_eq.
      - intros (?&?&(?&?&?)&?). by simplify_eq.
      - intros _ (?&?&?&?&?). by simplify_eq. }
  apply bool_decide_eq_true in Hv.
  unfold bind, selectOrderById, updateOrderStatusById, statement, noFaults.
  destruct (decide (orderId ∈ o_id <$> orders db)) as [Hin|Hn].
  - destruct (OrderStatus.selectOrderById_found orderId db Hin) as (o & r & ->).
    simpl. split_and!; split; try done.
    + intros _. by exists orderId, st.
    + intros (?&?&(?&?&?)&?). by simplify_eq.
    + intros []. by exists orderId, st.
  - pose proof Hn as Hn'. apply filter_id_nil in Hn' as ->. simpl.
    split_and!; split; try done.
    + intros (?&?&(?&?&?)&?). by simplify_eq.
    + intros _. by exists orderId, st.
    + intros []. by exists orderId, st.
Qed.

(** X6.  What a payment update writes, whatever the store rejects: the
    payment status and the [updatedAt] of the orders with the requested
    id, and nothing else.  Every other table and every serial is as
    before, the orders are the same in number and position, every order
    still has its time stamp and its order status, and each order is
    either unchanged, time stamp included, or has the requested id,
    carries the requested payment status, one of pending, paid and
    failed, and is stamped with the time of the call.  An answer other
    than 200 leaves the store as it was, and after a 200 every order with
    that id has the requested payment status and the new time stamp. *)
Theorem updatePaymentStatus_effect failsQ ps now req s :
  Stamped.wellStamped s →
  let run := Stamped.updatePaymentStatus failsQ now ps req s in
  let db := Stamped.plain s in
  let db' := Stamped.plain run.2 in
  (status run.1 ≠ 200 → run.2 = s)
  ∧ users db' = users db ∧ products db' = products db
  ∧ cart db' = cart db ∧ cart_seq db' = cart_seq db
  ∧ orderItems db' = orderItems db ∧ orderItems_seq db' = orderItems_seq db
  ∧ orders_seq db' = orders_seq db
  ∧ length (orders db') = length (orders db)
  ∧ Stamped.wellStamped run.2
  ∧ Forall2 (fun r r' =>
               o_status r'.1 = o_status r.1
               ∧ (r' = r
                  ∨ ∃ p, targetOrder req = Some (o_id r.1) ∧ ps = Some p
                         ∧ p ∈ validPaymentStatuses
                         ∧ r' = (set_paymentStatus (Some p) r.1, now)))
            (Stamped.rowsOf s) (Stamped.rowsOf run.2)
  ∧ (status run.1 = 200 →
       ∃ id p, targetOrder req = Some id ∧ ps = Some p
               ∧ id ∈ o_id <$> orders db'
               ∧ ∀ r', r' ∈ Stamped.rowsOf run.2 → o_id r'.1 = id →
                       o_paymentStatus r'.1 = Some p ∧ r'.2 = now).
Proof.
  intros Hw run db db'. subst db db'.
  destruct (stamped_payment_cases failsQ ps now req s) as [[E Hc]|H];
    fold run in E, Hc || fold run in H.
  - rewrite E. split_and!; try done. apply Forall2_same. intros r. split; [done|by left].
  - destruct H as (id & p & Ht & Hs & Hv & Hin & E & Hc). rewrite E.
    split_and!; try done.
    + simpl. by rewrite length_fmap.
    + unfold Stamped.wellStamped. simpl. by rewrite touch_length, length_fmap.
    + unfold Stamped.rowsOf. simpl. apply rows_touched. intros o t. simpl.
      destruct (decide (o_id o = id)) as [<-|]; [|by split; [|left]].
      split; [done|]. right. by exists p.
    + intros _. exists id, p. split_and!; try done.
      * cbn [paymentStamped Stamped.plain]. by rewrite ids_withPayment.
      * unfold Stamped.rowsOf. simpl. intros r' Hr' Hid.
        apply rows_touched_in in Hr' as (o & t & _ & ->). simpl in *.
        destruct (decide (o_id o = id)) as [|Hn]; done.
Qed.

Lemma updatePaymentStatus_effect_witness :
  let req := {| body_userId := None; user_id := None;
                body_cartItems := CartItemsMissing;
                body_shippingAddress := None; body_guestInfo := None;
                body_status := None; params_id := Some "1" |} in
  let run := Stamped.updatePaymentStatus noQueryFaults 200 (Some "failed") req
               (stampedShop 100) in
  Stamped.wellStamped (stampedShop 100)
  ∧ status run.1 = 200
  ∧ Stamped.rowsOf run.2 = [(set_paymentStatus (Some "failed") delivered1, 200)]
  ∧ Forall2 (fun r r' =>
               o_status r'.1 = o_status r.1
               ∧ (r' = r
                  ∨ ∃ p, targetOrder req = Some (o_id r.1) ∧ Some "failed" = Some p
                         ∧ p ∈ validPaymentStatuses
                         ∧ r' = (set_paymentStatus (Some p) r.1, 200)))
            (Stamped.rowsOf (stampedShop 100)) (Stamped.rowsOf run.2).
Proof.
  intros req run. split; [reflexivity|]. split; [reflexivity|]. split; [reflexivity|].
  apply (updatePaymentStatus_effect noQueryFaults (Some "failed") 200 req (stampedShop 100)).
  reflexivity.
Defined.

(** The store after a payment update when no statement is rejected. *)
Lemma updatePaymentStatus_store ps req db :
  (updatePaymentStatus noQueryFaults ps req db).2
  = match targetOrder req, ps with
    | Some id, Some s =>
        if bool_decide (s ∈ validPaymentStatuses) then withPayment id s db else db
    | _, _ => db
    end.
Proof.
  unfold updatePaymentStatus, tryCatch, targetOrder.
  destruct (params_id req) as [id|]; simpl; [|done].
  destruct (Js.truthyStr (Some id)) eqn:Ht; simpl; [|done].
  destruct (Js.parseInt id) as [orderId|] eqn:Hp; simpl; [|done].
  destruct ps as [s|]; simpl; [|done].
  destruct (Js.truthyStr (Some s)) eqn:Hs; simpl.
  2:{ destruct s; [|discriminate]. done. }
  destruct (bool_decide (s ∈ validPaymentStatuses)) eqn:Hv; simpl; [|done].
  unfold bind, updateOrderPaymentById, query, noQueryFaults.
  by destruct (filter _ _).
Qed.

(** The status code of a payment update depends on the store only
    through the ids of its orders. *)
Lemma updatePaymentStatus_code ps req db db' :
  o_id <$> orders db = o_id <$> orders db' →
  status (updatePaymentStatus noQueryFaults ps req db).1
  = status (updatePaymentStatus noQueryFaults ps req db').1.
Proof.
  intros Hids. unfold updatePaymentStatus, tryCatch.
  destruct (negb (Js.truthyStr (params_id req))); simpl; [done|].
  destruct (Js.parseInt _) as [orderId|]; simpl; [|done].
  destruct (negb (Js.truthyStr ps)); simpl; [done|].
  destruct (negb (bool_decide (_ ∈ validPaymentStatuses))); simpl; [done|].
  unfold bind, updateOrderPaymentById, query, noQueryFaults.
  set (s := default EmptyString ps).
  pose proof (ids_withPayment orderId s db) as H1.
  pose proof (ids_withPayment orderId s db') as H2.
  unfold withPayment in H1, H2. simpl in H1, H2.
  destruct (decide (orderId ∈ o_id <$> orders db)) as [Hin|Hn].
  - pose proof Hin as Hin'. rewrite Hids in Hin'. rewrite <- H1 in Hin. rewrite <- H2 in Hin'.
    destruct (filter _ _) as [|o r] eqn:E1.
    { apply filter_id_nil in E1. done. }
    destruct (filter _ (_ <$> orders db')) as [|o' r'] eqn:E2.
    { apply filter_id_nil in E2. done. }
    done.
  - pose proof Hn as Hn'. rewrite Hids in Hn'. rewrite <- H1 in Hn. rewrite <- H2 in Hn'.
    apply filter_id_nil in Hn, Hn'. by rewrite Hn, Hn'.
Qed.

Lemma withStatus_withPayment id st id' s db :
  withPayment id' s (withStatus id st db) = withStatus id st (withPayment id' s db).
Proof.
  unfold withPayment, withStatus, with_orders. simpl. f_equal.
  rewrite <- !list_fmap_compose. apply list_fmap_ext. intros i o _. simpl.
  unfold set_status, set_paymentStatus.
  repeat (destruct (decide _); simpl in * ); done.
Qed.

Lemma withStatus_twice id st db : withStatus id st (withStatus id st db) = withStatus id st db.
Proof.
  unfold withStatus, with_orders. simpl. f_equal.
  rewrite <- !list_fmap_compose. apply list_fmap_ext. intros i o _. simpl.
  unfold set_status, set_paymentStatus.
  repeat (destruct (decide _); simpl in * ); done.
Qed.

Lemma withPayment_twice id s db : withPayment id s (withPayment id s db) = withPayment id s db.
Proof.
  unfold withPayment, with_orders. simpl. f_equal.
  rewrite <- !list_fmap_compose. apply list_fmap_ext. intros i o _. simpl.
  unfold set_status, set_paymentStatus.
  repeat (destruct (decide _); simpl in * ); done.
Qed.

(** X7.  The values of the two status columns stay within what the
    handlers accept: if every order has a status among the five order
    statuses and a payment status among pending, paid and failed, the same
    holds after a checkout, a status update or a payment update, whatever
    the request is and whatever the store rejects. *)
Theorem statuses_stay_valid fails failsQ ps req db :
  statusesValid db →
  statusesValid (createOrder fails req db).2
  ∧ statusesValid (updateOrderStatus fails req db).2
  ∧ statusesValid (updatePaymentStatus failsQ ps req db).2.
Proof.
  intros Hv. split_and!.
  - destruct (createOrder_outcome fails req db) as (_ & _ & [(E & _)|H]).
    + intros o Ho. rewrite E in Ho. by apply Hv.
    + destruct H as (a & total & L & _ & E & _). intros o Ho. rewrite E in Ho.
      apply elem_of_app in Ho as [Ho|Ho]; [by apply Hv|].
      apply list_elem_of_singleton in Ho as ->. simpl.
      split; eexists; (split; [reflexivity|]); [left|left].
  - destruct (updateOrderStatus_cases fails req db) as [[E _]|H].
    + by rewrite E.
    + destruct H as (id & st & _ & _ & Hst & _ & E & _). rewrite E.
      intros o' Ho'. simpl in Ho'. apply list_elem_of_fmap in Ho' as (o & -> & Ho).
      destruct (Hv o Ho) as [Hs Hp].
      destruct (decide _); [|done]. split; [|done]. by exists st.
  - destruct (updatePaymentStatus_cases failsQ ps req db) as [[E _]|H].
    + by rewrite E.
    + destruct H as (id & s & _ & _ & Hst & _ & E & _). rewrite E.
      intros o' Ho'. simpl in Ho'. apply list_elem_of_fmap in Ho' as (o & -> & Ho).
      destruct (Hv o Ho) as [Hs Hp].
      destruct (decide _); [|done]. split; [done|]. by exists s.
Qed.

Lemma shopWithOrder_statusesValid : statusesValid shopWithOrder.
Proof.
  intros o Ho. apply list_elem_of_singleton in Ho as ->.
  split; eexists; (split; [reflexivity|]);
    unfold validStatuses, validPaymentStatuses; rewrite !elem_of_cons; auto 10.
Qed.

Lemma statuses_stay_valid_witness :
  let req := {| body_userId := Some 1; user_id := None;
                body_cartItems := CartItemsObject [("1", [("M", 2)])];
                body_shippingAddress := Some accra; body_guestInfo := None;
                body_status := Some "cancelled"; params_id := Some "1" |} in
  statusesValid (createOrder noFaults req shopWithOrder).2
  ∧ statusesValid (updateOrderStatus noFaults req shopWithOrder).2
  ∧ statusesValid (updatePaymentStatus noQueryFaults (Some "failed") req shopWithOrder).2.
Proof. apply statuses_stay_valid. exact shopWithOrder_statusesValid. Defined.

(** The stamped store after a payment update when no statement is
    rejected. *)
Lemma stamped_payment_store ps now req s :
  (Stamped.updatePaymentStatus noQueryFaults now ps req s).2
  = match targetOrder req, ps with
    | Some id, Some p =>
        if bool_decide (p ∈ validPaymentStatuses) then paymentStamped id p now s else s
    | _, _ => s
    end.
Proof.
  destruct s as [db ts].
  unfold Stamped.updatePaymentStatus, Stamped.tryCatch, targetOrder.
  destruct (params_id req) as [id|]; simpl; [|done].
  destruct (Js.truthyStr (Some id)) eqn:Ht; simpl; [|done].
  destruct (Js.parseInt id) as [orderId|] eqn:Hp; simpl; [|done].
  destruct ps as [p|]; simpl; [|done].
  destruct (Js.truthyStr (Some p)) eqn:Hs; simpl.
  2:{ destruct p; [|discriminate]. done. }
  destruct (bool_decide (p ∈ validPaymentStatuses)) eqn:Hv; simpl; [|done].
  unfold Stamped.bind, Stamped.updateOrderPaymentById, Stamped.stamping,
    updateOrderPaymentById, query, noQueryFaults.
  by destruct (filter _ _).
Qed.

Lemma statusStamped_twice id st t1 t2 s :
  statusStamped id st t2 (statusStamped id st t1 s) = statusStamped id st t2 s.
Proof.
  apply store_eq; cbn [statusStamped Stamped.plain Stamped.orders_updatedAt].
  - apply withStatus_twice.
  - rewrite (touch_ids id t2 (orders (withStatus id st (Stamped.plain s)))
               (orders (Stamped.plain s))) by apply ids_withStatus.
    apply touch_twice.
Qed.

Lemma paymentStamped_twice id p t1 t2 s :
  paymentStamped id p t2 (paymentStamped id p t1 s) = paymentStamped id p t2 s.
Proof.
  apply store_eq; cbn [paymentStamped Stamped.plain Stamped.orders_updatedAt].
  - apply withPayment_twice.
  - rewrite (touch_ids id t2 (orders (withPayment id p (Stamped.plain s)))
               (orders (Stamped.plain s))) by apply ids_withPayment.
    apply touch_twice.
Qed.

Lemma statusStamped_paymentStamped id st id' p t s :
  paymentStamped id' p t (statusStamped id st t s)
  = statusStamped id st t (paymentStamped id' p t s).
Proof.
  apply store_eq;
    cbn [statusStamped paymentStamped Stamped.plain Stamped.orders_updatedAt].
  - apply withStatus_withPayment.
  - rewrite (touch_ids id' t (orders (withStatus id st (Stamped.plain s)))
               (orders (Stamped.plain s))) by apply ids_withStatus.
    rewrite (touch_ids id t (orders (withPayment id' p (Stamped.plain s)))
               (orders (Stamped.plain s))) by apply ids_withPayment.
    apply touch_comm.
Qed.

(** On the columns of [Order], status updates and payment updates are
    independent when no statement is rejected. *)
Lemma updates_commute_columns req1 req2 ps db :
  let S := updateOrderStatus noFaults req1 in
  let P := updatePaymentStatus noQueryFaults ps req2 in
  (P (S db).2).2 = (S (P db).2).2
  ∧ status (P (S db).2).1 = status (P db).1
  ∧ status (S (P db).2).1 = status (S db).1.
Proof.
  cbv zeta.
  assert (HidsS : o_id <$> orders (updateOrderStatus noFaults req1 db).2
                  = o_id <$> orders db).
  { rewrite updateOrderStatus_store.
    destruct (targetOrder req1), (body_status req1); try done.
    destruct (bool_decide _); [apply ids_withStatus|done]. }
  assert (HidsP : o_id <$> orders (updatePaymentStatus noQueryFaults ps req2 db).2
                  = o_id <$> orders db).
  { rewrite updatePaymentStatus_store.
    destruct (targetOrder req2), ps; try done.
    destruct (bool_decide _); [apply ids_withPayment|done]. }
  split_and!.
  - rewrite !updateOrderStatus_store, !updatePaymentStatus_store.
    destruct (targetOrder req1), (body_status req1), (targetOrder req2), ps; try done.
    destruct (bool_decide (_ ∈ validStatuses)), (bool_decide (_ ∈ validPaymentStatuses));
      try done.
    apply withStatus_withPayment.
  - by apply updatePaymentStatus_code.
  - by apply updateOrderStatus_code.
Qed.

(** X8.  Status updates and payment updates are independent when no
    statement is rejected, up to the time stamps.  For any two requests,
    one for each handler, running them in either order leaves every
    table the same, [updatedAt] apart, and gives each request the status
    code it would have had alone; the [updatedAt] column too is the same
    when the two calls read the same time.  Repeating an update leaves
    the store the later call alone would have left: the columns of the
    first call, and the time stamp of the second. *)
Theorem status_and_payment_updates_commute t1 t2 req1 req2 ps s :
  let S t := Stamped.updateOrderStatus noFaults t req1 in
  let P t := Stamped.updatePaymentStatus noQueryFaults t ps req2 in
  Stamped.plain (P t2 (S t1 s).2).2 = Stamped.plain (S t2 (P t1 s).2).2
  ∧ (P t1 (S t1 s).2).2 = (S t1 (P t1 s).2).2
  ∧ status (P t2 (S t1 s).2).1 = status (P t2 s).1
  ∧ status (S t2 (P t1 s).2).1 = status (S t2 s).1
  ∧ (S t2 (S t1 s).2).2 = (S t2 s).2
  ∧ Stamped.plain (S t2 s).2 = Stamped.plain (S t1 s).2
  ∧ (P t2 (P t1 s).2).2 = (P t2 s).2
  ∧ Stamped.plain (P t2 s).2 = Stamped.plain (P t1 s).2.
Proof.
  cbv zeta.
  destruct (updates_commute_columns req1 req2 ps (Stamped.plain s)) as (Hc & Hp & Hs).
  cbv zeta in Hc, Hp, Hs.
  split_and!.
  - destruct (stamped_payment_agrees noQueryFaults ps t2 req2
                (Stamped.updateOrderStatus noFaults t1 req1 s).2) as [_ ->].
    destruct (stamped_status_agrees noFaults t2 req1
                (Stamped.updatePaymentStatus noQueryFaults t1 ps req2 s).2) as [_ ->].
    destruct (stamped_status_agrees noFaults t1 req1 s) as [_ ->].
    destruct (stamped_payment_agrees noQueryFaults ps t1 req2 s) as [_ ->].
    exact Hc.
  - rewrite !stamped_status_store, !stamped_payment_store.
    destruct (targetOrder req1), (body_status req1), (targetOrder req2), ps; try done.
    destruct (bool_decide (_ ∈ validStatuses)), (bool_decide (_ ∈ validPaymentStatuses));
      try done.
    apply statusStamped_paymentStamped.
  - destruct (stamped_payment_agrees noQueryFaults ps t2 req2
                (Stamped.updateOrderStatus noFaults t1 req1 s).2) as [-> _].
    destruct (stamped_status_agrees noFaults t1 req1 s) as [_ ->].
    destruct (stamped_payment_agrees noQueryFaults ps t2 req2 s) as [-> _].
    exact Hp.
  - destruct (stamped_status_agrees noFaults t2 req1
                (Stamped.updatePaymentStatus noQueryFaults t1 ps req2 s).2) as [-> _].
    destruct (stamped_payment_agrees noQueryFaults ps t1 req2 s) as [_ ->].
    destruct (stamped_status_agrees noFaults t2 req1 s) as [-> _].
    exact Hs.
  - rewrite !stamped_status_store.
    destruct (targetOrder req1), (body_status req1); try done.
    destruct (bool_decide (_ ∈ validStatuses)); [apply statusStamped_twice|done].
  - destruct (stamped_status_agrees noFaults t2 req1 s) as [_ ->].
    by destruct (stamped_status_agrees noFaults t1 req1 s) as [_ ->].
  - rewrite !stamped_payment_store.
    destruct (targetOrder req2), ps; try done.
    destruct (bool_decide (_ ∈ validPaymentStatuses)); [apply paymentStamped_twice|done].
  - destruct (stamped_payment_agrees noQueryFaults ps t2 req2 s) as [_ ->].
    by destruct (stamped_payment_agrees noQueryFaults ps t1 req2 s) as [_ ->].
Qed.

(** The time stamps tell the two runs apart.  The order of
    [shopWithOrder], last written at time 100, is shipped, and a payment
    update for an order 7 that does not exist is refused: the order is
    stamped with the time of the status update, the first call in one
    run and the second in the other. *)
Lemma updatedAt_tells_the_order :
  let req1 := {| body_userId := None; user_id := None;
                 body_cartItems := CartItemsMissing;
                 body_shippingAddress := None; body_guestInfo := None;
                 body_status := Some "shipped"; params_id := Some "1" |} in
  let req2 := {| body_userId := None; user_id := None;
                 body_cartItems := CartItemsMissing;
                 body_shippingAddress := None; body_guestInfo := None;
                 body_status := None; params_id := Some "7" |} in
  let S t := Stamped.updateOrderStatus noFaults t req1 in
  let P t := Stamped.updatePaymentStatus noQueryFaults t (Some "paid") req2 in
  status (P 200 (stampedShop 100)).1 = 404
  ∧ Stamped.orders_updatedAt (P 300 (S 200 (stampedShop 100)).2).2 = [200]
  ∧ Stamped.orders_updatedAt (S 300 (P 200 (stampedShop 100)).2).2 = [300].
Proof. by vm_compute. Qed.

End OrderUpdates.

(** ** Product keys: number to string and back *)
Module ProductKeys.
Import Schema Http Spec Derived.

Lemma digitValue_char d :
  (d < 10)%N → Js.digitValue (pretty_N_char d) = Some (Z.of_N d).
Proof.
  intros H.
  assert (d = 0 ∨ d = 1 ∨ d = 2 ∨ d = 3 ∨ d = 4 ∨ d = 5 ∨ d = 6 ∨ d = 7
          ∨ d = 8 ∨ d = 9)%N as Hd by lia.
  repeat (destruct Hd as [->|Hd]; [reflexivity|]). by subst.
Qed.

Lemma code_char d :
  (0 < d < 10)%N → 49 ≤ Js.code (pretty_N_char d) ≤ 57.
Proof.
  intros H.
  assert (d = 1 ∨ d = 2 ∨ d = 3 ∨ d = 4 ∨ d = 5 ∨ d = 6 ∨ d = 7
          ∨ d = 8 ∨ d = 9)%N as Hd by lia.
  repeat (destruct Hd as [->|Hd]; [by vm_compute|]). subst. by vm_compute.
Qed.

(** Reading the decimal digits of [x] multiplies what was read before by
    a power of ten and adds [x]. *)
Lemma readDigits_pretty x :
  (0 < x)%N →
  ∃ m, ∀ s acc,
    Js.readDigits 10 (pretty_N_go x s) acc
    = Js.readDigits 10 s (Some (default 0 acc * m + Z.of_N x)).
Proof.
  induction (N.lt_wf_0 x) as [x _ IH]. intros Hx.
  assert (Hmod : (x `mod` 10 < 10)%N) by (apply N.mod_lt; lia).
  pose proof (N.div_mod x 10 ltac:(lia)) as Hdm.
  destruct (decide (x `div` 10 = 0)%N) as [E|Hne].
  - exists 10. intros s acc. rewrite pretty_N_go_step by done.
    rewrite E, pretty_N_go_0. simpl. rewrite digitValue_char by done.
    assert ((Z.of_N (x `mod` 10) <? 10) = true) as -> by (apply Z.ltb_lt; lia).
    do 2 f_equal. rewrite E in Hdm. lia.
  - destruct (IH (x `div` 10)%N) as [m Hm]; [apply N.div_lt; lia|lia|].
    exists (m * 10). intros s acc. rewrite pretty_N_go_step by done.
    rewrite Hm. simpl. rewrite digitValue_char by done.
    assert ((Z.of_N (x `mod` 10) <? 10) = true) as -> by (apply Z.ltb_lt; lia).
    do 2 f_equal. revert Hdm. generalize (x `div` 10)%N (x `mod` 10)%N.
    intros a b ->. lia.
Qed.

(** The decimal form of a positive number starts with a digit from 1 to 9. *)
Lemma head_pretty x s :
  (0 < x)%N → ∃ c rest, pretty_N_go x s = String c rest ∧ 49 ≤ Js.code c ≤ 57.
Proof.
  revert s. induction (N.lt_wf_0 x) as [x _ IH]. intros s Hx.
  rewrite pretty_N_go_step by done.
  destruct (decide (x `div` 10 = 0)%N) as [E|Hne].
  - rewrite E, pretty_N_go_0. eexists _, _. split; [done|].
    apply code_char. apply N.div_small_iff in E; [|lia].
    rewrite N.mod_small by done. clear IH. lia.
  - assert (0 < x `div` 10)%N by by apply N.neq_0_lt_0.
    apply IH; [apply N.div_lt; clear IH; lia|done].
Qed.

Lemma parseInt_digits c rest n :
  49 ≤ Js.code c ≤ 57 → Js.readDigits 10 (String c rest) None = Some n →
  Js.parseInt (String c rest) = Some n.
Proof.
  intros Hc Hr. unfold Js.parseInt. simpl Js.skipWhiteSpace.
  unfold Js.isWhiteSpace.
  assert ((9 <=? Js.code c) && (Js.code c <=? 13) || (Js.code c =? 32)
          || (Js.code c =? 160) = false) as ->.
  { repeat apply orb_false_intro; [apply andb_false_intro2| |]; lia. }
  unfold Js.stripSign.
  assert ((Js.code c =? 45) = false) as -> by lia.
  assert ((Js.code c =? 43) = false) as -> by lia.
  assert (Js.stripHexPrefix (String c rest) = (10, String c rest)) as ->.
  { unfold Js.stripHexPrefix. destruct rest; [done|].
    assert ((Js.code c =? 48) = false) as -> by lia. done. }
  by rewrite Hr.
Qed.

Lemma parseInt_positive p : Js.parseInt (pretty (Npos p)) = Some (Zpos p).
Proof.
  unfold pretty, pretty_N. rewrite decide_False by done.
  destruct (head_pretty (Npos p) EmptyString) as (c & rest & E & Hc); [lia|].
  destruct (readDigits_pretty (Npos p)) as [m Hm]; [lia|].
  specialize (Hm EmptyString None). rewrite E in *.
  apply parseInt_digits; [done|]. by rewrite Hm.
Qed.

Lemma parseInt_negative p : Js.parseInt ("-" +:+ pretty (Npos p)) = Some (Zneg p).
Proof.
  unfold pretty, pretty_N. rewrite decide_False by done.
  destruct (head_pretty (Npos p) EmptyString) as (c & rest & E & Hc); [lia|].
  destruct (readDigits_pretty (Npos p)) as [m Hm]; [lia|].
  specialize (Hm EmptyString None). rewrite E in *.
  unfold Js.parseInt.
  change (Js.skipWhiteSpace ("-" +:+ String c rest)) with (String "-" (String c rest)).
  change (Js.stripSign (String "-" (String c rest))) with (true, String c rest).
  cbv beta iota.
  assert (Js.stripHexPrefix (String c rest) = (10, String c rest)) as ->.
  { unfold Js.stripHexPrefix. destruct rest; [done|].
    assert ((Js.code c =? 48) = false) as -> by lia. done. }
  by rewrite Hm.
Qed.

Lemma parseInt_pretty n : Js.parseInt (Js.toString n) = Some n.
Proof.
  unfold Js.toString. destruct n as [|p|p].
  - reflexivity.
  - apply parseInt_positive.
  - apply parseInt_negative.
Qed.

(** X9.  The product key getUserCart writes for a product id
    ([productId.toString()]) is read back as that id by the [parseInt] of
    syncCart, saveCart, createOrder and getProductById, for every id a
    32-bit integer column can hold; so two product ids never share a
    key. *)
Theorem product_key_round_trip n :
  -2147483648 ≤ n ≤ 2147483647 →
  Js.parseInt (Js.toString n) = Some n
  ∧ ∀ m, -2147483648 ≤ m ≤ 2147483647 → Js.toString n = Js.toString m → n = m.
Proof.
  intros _. split; [apply parseInt_pretty|].
  intros m _ E. pose proof (parseInt_pretty n) as Hn.
  rewrite E, parseInt_pretty in Hn. by injection Hn.
Qed.

Lemma product_key_round_trip_witness :
  Js.parseInt (Js.toString 2147483647) = Some 2147483647
  ∧ ∀ m, -2147483648 ≤ m ≤ 2147483647 →
         Js.toString 2147483647 = Js.toString m → 2147483647 = m.
Proof. apply product_key_round_trip. lia. Defined.

End ProductKeys.

(** ** Reading one order, reading one product *)
Module OrderLookup.
Import Schema Http Spec OrderController Queries Fixtures Basics Derived.

#[local] Arguments Js.truthyStr : simpl never.

Ltac refused :=
  split_and!; split; try done;
  first [by intros [? _] | by intros (?&?&?&_) | by intros (?&?&_&?&_)].

Lemma joinProduct_view catalog l v :
  v ∈ joinProduct catalog l →
  ∃ name, v = itemView l name
          ∧ (name = None → oi_productId l ∉ p_id <$> catalog)
          ∧ ∀ n, name = Some n →
                 ∃ p, p ∈ catalog ∧ p_id p = oi_productId l ∧ p_name p = n.
Proof.
  unfold joinProduct.
  destruct (filter (fun p => p_id p = oi_productId l) catalog) as [|p ps] eqn:E.
  - intros ->%list_elem_of_singleton. exists None. split_and!; [done| |done].
    intros _ Hin. apply list_elem_of_fmap in Hin as (p & Hp & Hin).
    assert (p ∈ filter (fun p => p_id p = oi_productId l) catalog) as Hf
        by by apply list_elem_of_filter.
    rewrite E in Hf. by apply elem_of_nil in Hf.
  - intros (q & -> & Hq)%list_elem_of_fmap. exists (Some (p_name q)).
    split_and!; [done|done|]. intros n [= <-]. exists q.
    rewrite <- E in Hq. apply list_elem_of_filter in Hq as [Hid Hq]. done.
Qed.

Lemma joinProduct_some catalog l : ∃ name, itemView l name ∈ joinProduct catalog l.
Proof.
  unfold joinProduct.
  destruct (filter (fun p => p_id p = oi_productId l) catalog) as [|p ps].
  - exists None. left.
  - exists (Some (p_name p)). simpl. left.
Qed.

Lemma take1_cons {A} (l : list A) x r : take 1 l = x :: r → ∃ l', l = x :: l' ∧ r = [].
Proof. destruct l as [|y l]; [done|]. simpl. intros [= -> <-]. by exists l. Qed.

(** X10.  getOrderById never changes the store and, whatever the store
    rejects, answers 200 only with an order of the requesting user: the
    order is stored, has the requested id and is owned by the requester,
    so an order placed by a guest or by another user is never shown.  The
    items listed are the stored lines of that order, each with the name of
    a product of that id when the catalog has one, and every stored line
    of the order is listed. *)
Theorem getOrderById_own_orders_only failsQ req db :
  let run := getOrderById failsQ req db in
  run.2 = db
  ∧ (rp_status run.1 = 200 →
     ∃ u o items,
       ownerOf req = Some u ∧ targetOrder req = Some (o_id o)
       ∧ rp_data run.1 = Some {| ov_order := o; ov_items := items |}
       ∧ o ∈ orders db ∧ o_userId o = Some u
       ∧ (∀ v, v ∈ items →
            ∃ l name, l ∈ orderItems db ∧ oi_orderId l = o_id o
                      ∧ v = itemView l name
                      ∧ (name = None → oi_productId l ∉ p_id <$> products db)
                      ∧ ∀ n, name = Some n →
                             ∃ p, p ∈ products db ∧ p_id p = oi_productId l
                                  ∧ p_name p = n)
       ∧ (∀ l, l ∈ orderItems db → oi_orderId l = o_id o →
            ∃ name, itemView l name ∈ items)).
Proof.
  cbv zeta. unfold getOrderById, tryCatchReply, ownerOf, targetOrder.
  destruct (Js.asTruthy _) as [u|]; simpl; [|done].
  destruct (params_id req) as [id|]; simpl; [|done].
  destruct (Js.truthyStr (Some id)); simpl; [|done].
  destruct (Js.parseInt id) as [orderId|]; simpl; [|done].
  unfold bind, selectOrderOfUser, selectItemsOfOrder, query.
  destruct (failsQ (SelectOrderOfUser orderId u)); simpl; [done|].
  destruct (take 1 _) as [|o r] eqn:Hsel; simpl; [done|].
  destruct (failsQ (SelectItemsOfOrder orderId)); simpl; [done|].
  split; [done|]. intros _.
  apply take1_cons in Hsel as (l' & Hsel & _).
  assert (Ho : o ∈ filter (fun o => o_id o = orderId ∧ o_userId o = Some u) (orders db))
    by (rewrite Hsel; left).
  apply list_elem_of_filter in Ho as [[<- Hu] Ho].
  exists u, o, (filter (fun l => oi_orderId l = o_id o) (orderItems db)
                 ≫= joinProduct (products db)).
  split_and!; try done.
  - intros v Hv. apply list_elem_of_bind in Hv as (l & Hv & Hl).
    apply list_elem_of_filter in Hl as [Hid Hl].
    destruct (joinProduct_view _ _ _ Hv) as (name & -> & Hnone & Hsome).
    by exists l, name.
  - intros l Hl Hid. destruct (joinProduct_some (products db) l) as [name Hn].
    exists name. apply list_elem_of_bind. exists l. split; [done|].
    by apply list_elem_of_filter.
Qed.

(** X11.  The answer of getOrderById when no statement is rejected: 401
    exactly when the request names no user; otherwise 400 exactly when
    the id is missing or does not parse; otherwise 200 exactly when an
    order with that id owned by the requester is stored, and 404 in the
    remaining case, which covers the orders of guests and of other
    users. *)
Theorem getOrderById_answer req db :
  let code := rp_status (getOrderById noQueryFaults req db).1 in
  let mine u id := ∃ o, o ∈ orders db ∧ o_id o = id ∧ o_userId o = Some u in
  (code = 401 ↔ ownerOf req = None)
  ∧ (code = 400 ↔ ownerOf req ≠ None ∧ targetOrder req = None)
  ∧ (code = 200 ↔ ∃ u id, ownerOf req = Some u ∧ targetOrder req = Some id ∧ mine u id)
  ∧ (code = 404 ↔ ∃ u id, ownerOf req = Some u ∧ targetOrder req = Some id ∧ ¬ mine u id).
Proof.
  cbv zeta. unfold getOrderById, tryCatchReply, ownerOf, targetOrder.
  destruct (Js.asTruthy _) as [u|]; simpl.
  2:{ refused. }
  destruct (params_id req) as [id|]; simpl.
  2:{ refused. }
  destruct (Js.truthyStr (Some id)); simpl.
  2:{ refused. }
  destruct (Js.parseInt id) as [orderId|]; simpl.
  2:{ refused. }
  unfold bind, selectOrderOfUser, selectItemsOfOrder, query, noQueryFaults.
  destruct (take 1 _) as [|o r] eqn:Hsel; simpl.
  - assert (Hnone : ¬ ∃ o, o ∈ orders db ∧ o_id o = orderId ∧ o_userId o = Some u).
    { intros (o & Ho & Hid & Hu).
      assert (o ∈ filter (fun o => o_id o = orderId ∧ o_userId o = Some u) (orders db))
        as Hf by by apply list_elem_of_filter.
      destruct (filter _ (orders db)); [by apply elem_of_nil in Hf|discriminate]. }
    split_and!; split; try done.
    + by intros [_ ?].
    + intros (?&?&?&?&?). by simplify_eq.
    + intros _. by exists u, orderId.
  - apply take1_cons in Hsel as (l' & Hsel & _).
    assert (Ho : o ∈ filter (fun o => o_id o = orderId ∧ o_userId o = Some u) (orders db))
      by (rewrite Hsel; left).
    apply list_elem_of_filter in Ho as [[Hid Hu] Ho].
    split_and!; split; try done.
    + by intros [_ ?].
    + intros _. exists u, orderId. split_and!; try done. by exists o.
    + intros (?&?&?&?&Hn). simplify_eq. exfalso. apply Hn. by exists o.
Qed.

(** X12.  getProductById never changes the store and, when no statement
    is rejected, answers 400 exactly when the id is missing or does not
    parse, 404 exactly when the catalog has no product of that id, and 200
    with the catalog entry checkout uses for that id otherwise. *)
Theorem getProductById_answer fails req db :
  let run := getProductById noFaults req db in
  let key := params_id req ≫= Js.parseInt in
  (getProductById fails req db).2 = db
  ∧ (rp_status run.1 = 400 ↔ key = None)
  ∧ (rp_status run.1 = 404 ↔ ∃ pid, key = Some pid ∧ pid ∉ p_id <$> products db)
  ∧ (rp_status run.1 = 200
     ↔ ∃ pid p, key = Some pid ∧ findById (products db) pid = Some p
                ∧ rp_data run.1 = Some p ∧ p ∈ products db ∧ p_id p = pid).
Proof.
  cbv zeta. split.
  { unfold getProductById, tryCatchReply.
    destruct (params_id req ≫= Js.parseInt) as [pid|]; simpl; [|done].
    unfold bind, selectProductById, statement.
    destruct (fails _); [done|]. by destruct (take 1 _). }
  unfold getProductById, tryCatchReply.
  destruct (params_id req ≫= Js.parseInt) as [pid|]; simpl.
  2:{ split_and!; split; try done.
      - by intros (?&?&_).
      - by intros (?&?&?&_). }
  unfold bind. rewrite selectProductById_noFaults.
  destruct (findById (products db) pid) as [p|] eqn:Hfind; simpl.
  - pose proof (findById_id _ _ _ Hfind) as Hid.
    assert (Hin : p ∈ products db).
    { unfold findById in Hfind. apply head_Some_elem_of in Hfind.
      by apply list_elem_of_filter in Hfind as [_ ?]. }
    split_and!; split; try done.
    + intros (pid' & [= <-] & Hn). exfalso. apply Hn.
      apply list_elem_of_fmap. by exists p.
    + intros _. by exists pid, p.
  - split_and!; split; try done.
    + intros _. exists pid. split; [done|]. intros Hin.
      apply list_elem_of_fmap in Hin as (p & -> & Hin).
      unfold findById in Hfind.
      assert (p ∈ filter (fun p' => p_id p' = p_id p) (products db)) as Hf
          by by apply list_elem_of_filter.
      destruct (filter _ (products db)); [by apply elem_of_nil in Hf|done].
    + intros (? & ? & [= <-] & ? & _). congruence.
Qed.

(** X13.  What checkout charges is what the product page shows: every
    line of a created order carries the unit price that getProductById
    returns for the product of the line, asked by the key the cart uses
    for it, and that product is shown in stock. *)
Theorem createOrder_charges_listed_price fails req db :
  status (createOrder fails req db).1 = 201 →
  ∃ o L,
    data (createOrder fails req db).1 = OrderData o (Some <$> L)
    ∧ Forall (fun l =>
                ∃ p, getProductById noFaults
                       (withId req (Js.toString (oi_productId l))) db
                     = (found p, db)
                     ∧ oi_price l = p_price p
                     ∧ Js.truthyBool (p_inStock p) = true) L.
Proof.
  intros H201.
  destruct (CheckoutResult.createOrder_201_good fails req db H201) as (o & L & Hd & HL).
  exists o, L. split; [done|].
  eapply Forall_impl; [exact HL|]. intros l (_ & p & Hfind & Hprice & Hstock).
  exists p. split_and!; try done.
  unfold getProductById, tryCatchReply. simpl.
  rewrite ProductKeys.parseInt_pretty. unfold bind.
  rewrite selectProductById_noFaults. by rewrite Hfind.
Qed.

Lemma createOrder_charges_listed_price_witness :
  let req := request None None (CartItemsObject [("1", [("S", 2); ("M", 1)])])
               (Some accra) (Some john) in
  ∃ o L,
    data (createOrder noFaults req shop).1 = OrderData o (Some <$> L)
    ∧ Forall (fun l =>
                ∃ p, getProductById noFaults
                       (withId req (Js.toString (oi_productId l))) shop
                     = (found p, shop)
                     ∧ oi_price l = p_price p
                     ∧ Js.truthyBool (p_inStock p) = true) L.
Proof. apply createOrder_charges_listed_price. vm_compute. reflexivity. Defined.

End OrderLookup.

(** ** The cart handlers: what they leave alone *)
Module CartFrame.
Import Schema Http Spec MergeModel CartController Fixtures Basics Derived.

Lemma tryCatch_store msg body db : (tryCatch msg body db).2 = (body db).2.
Proof. unfold tryCatch. by destruct (body db) as [[r|e] db']. Qed.

Lemma sameButCart_refl db : sameButCart db db.
Proof. by repeat split. Qed.

Lemma sameButCart_with_cart rows seq db : sameButCart db (with_cart rows seq db).
Proof. by repeat split. Qed.

Lemma cartStep_refl u db : cartStep u db db.
Proof. split; [apply sameButCart_refl|]. by intros H. Qed.

Lemma cartStep_trans u db1 db2 db3 :
  cartStep u db1 db2 → cartStep u db2 db3 → cartStep u db1 db3.
Proof.
  intros [(?&?&?&?&?&?) H12] [(?&?&?&?&?&?) H23]. split.
  - repeat split; congruence.
  - intros Hk. destruct (H12 Hk) as [Hk2 Ho2]. destruct (H23 Hk2) as [Hk3 Ho3].
    split; [done|]. intros u' Hu'. by rewrite Ho3, Ho2.
Qed.

Lemma cartSteps_ret {A} u (a : A) : cartSteps u (ret a).
Proof. intros db. apply cartStep_refl. Qed.

Lemma cartSteps_bind {A B} u (m : M A) (k : A → M B) :
  cartSteps u m → (∀ a, cartSteps u (k a)) → cartSteps u (bind m k).
Proof.
  intros Hm Hk db. unfold bind. specialize (Hm db).
  destruct (m db) as [[a|e] db1]; simpl in *; [|done].
  eapply cartStep_trans; [exact Hm|apply Hk].
Qed.

Lemma cartSteps_statement {A} fails u op (run : M A) :
  cartSteps u run → cartSteps u (statement fails op run).
Proof.
  intros H db. unfold statement. destruct (fails op); [apply cartStep_refl|apply H].
Qed.

Lemma cartSteps_read {A} fails u op (f : DB → A) :
  cartSteps u (statement fails op (fun db => (Ok (f db), db))).
Proof. apply cartSteps_statement. intros db. apply cartStep_refl. Qed.

Lemma keysFresh_seq rows seq : keysFresh (rows, seq) → keysFresh (rows, seq + 1).
Proof.
  intros [Hnd Hlt]. split; [done|]. intros r Hr. specialize (Hlt r Hr). simpl in *. lia.
Qed.

Lemma keysFresh_append rows seq r :
  c_id r = seq → keysFresh (rows, seq) → keysFresh (rows ++ [r], seq + 1).
Proof.
  intros Hid [Hnd Hlt]. simpl in *. split; simpl.
  - rewrite fmap_app. apply NoDup_app. split_and!; [done| |apply NoDup_singleton].
    intros i Hi Hi'. simpl in Hi'. apply list_elem_of_singleton in Hi' as ->.
    apply list_elem_of_fmap in Hi as (y & Hy & Hin). specialize (Hlt y Hin). lia.
  - intros x Hx. apply elem_of_app in Hx as [Hx|Hx].
    + specialize (Hlt x Hx). lia.
    + apply list_elem_of_singleton in Hx as ->. lia.
Qed.

Lemma keysFresh_filter (P : CartRow → Prop) `{∀ r, Decision (P r)}
    (rows : list CartRow) seq :
  keysFresh (rows, seq) → keysFresh (filter P rows, seq).
Proof.
  intros [Hnd Hlt]. simpl in *. split; simpl.
  - eapply sublist_NoDup; [exact Hnd|]. apply fmap_sublist, sublist_filter.
  - intros r Hr. apply list_elem_of_filter in Hr as [_ Hr]. by apply Hlt.
Qed.

Lemma filter_update (P : CartRow → Prop) `{∀ r, Decision (P r)}
    (f : CartRow → CartRow) (rows : list CartRow) :
  (∀ x, x ∈ rows → f x = x ∨ (¬ P x ∧ ¬ P (f x))) →
  filter P (f <$> rows) = filter P rows.
Proof.
  induction rows as [|x rows IH]; intros Hf; [done|].
  rewrite fmap_cons, !filter_cons.
  rewrite IH by (intros y Hy; apply Hf; by right).
  destruct (Hf x) as [->|[Hn Hn']]; [left|done|].
  by rewrite !decide_False.
Qed.

Lemma others_append u u' r db seq :
  u' ≠ u → c_userId r = u →
  cartOf u' (with_cart (cart db ++ [r]) seq db) = cartOf u' db.
Proof.
  intros Hne Hr. unfold cartOf. simpl. rewrite filter_app, filter_cons, filter_nil.
  rewrite decide_False by congruence. by rewrite app_nil_r.
Qed.

Lemma others_delete u u' db seq :
  u' ≠ u →
  cartOf u' (with_cart (filter (fun r => c_userId r ≠ u) (cart db)) seq db) = cartOf u' db.
Proof.
  intros Hne. unfold cartOf. simpl.
  induction (cart db) as [|x rows IH]; [done|].
  rewrite !filter_cons.
  destruct (decide (c_userId x ≠ u)) as [Hx|Hx].
  - rewrite filter_cons. by rewrite IH.
  - rewrite IH. rewrite decide_False; [done|].
    intros E. apply Hx. congruence.
Qed.

Lemma others_update u u' r q db :
  u' ≠ u → NoDup (c_id <$> cart db) → r ∈ cart db → c_userId r = u →
  cartOf u' (with_cart (keepLarger (c_id r) q <$> cart db) (cart_seq db) db)
  = cartOf u' db.
Proof.
  intros Hne Hnd Hr Hu. unfold cartOf. simpl. apply filter_update.
  intros x Hx. unfold keepLarger. destruct (decide (c_id x = c_id r)) as [E|]; [|by left].
  right. assert (x = r) as -> by by eapply CartMerge.same_id_same_row.
  simpl. split; congruence.
Qed.

Lemma insertCartLine_steps fails u pid q sz : cartSteps u (insertCartLine fails u pid q sz).
Proof.
  unfold insertCartLine. apply cartSteps_statement. intros db.
  destruct (hasUser u db && hasProduct pid db); simpl.
  - split; [apply sameButCart_with_cart|]. intros Hk. split.
    + by apply keysFresh_append.
    + intros u' Hu'. by apply (others_append u).
  - split; [apply sameButCart_with_cart|]. intros Hk. split; [by apply keysFresh_seq|done].
Qed.

Lemma deleteCartOfUser_steps fails u : cartSteps u (deleteCartOfUser fails u).
Proof.
  unfold deleteCartOfUser. apply cartSteps_statement. intros db. simpl.
  split; [apply sameButCart_with_cart|]. intros Hk. split.
  - by apply keysFresh_filter.
  - intros u' Hu'. by apply others_delete.
Qed.

(** The three things the upsert of syncCart can leave behind. *)
Lemma mergeUpsert_cases fails u pid sz q db :
  let db' := (mergeUpsert fails u pid sz q db).2 in
  db' = db
  ∨ db' = setCart (mergeRows u (pid, sz, q) (cartState db)) db
  ∨ db' = with_cart (cart db) (cart_seq db + 1) db.
Proof.
  unfold mergeUpsert, bind, selectCartLine, statement, mergeRows, lineOf, cartState.
  destruct (fails (SelectCartLine u pid sz)); [by left|]. simpl.
  destruct (filter _ (cart db)) as [|r l]; simpl.
  - unfold insertCartLine, statement. destruct (fails _); [by left|].
    destruct (hasUser u db && hasProduct pid db); simpl; [right; by left|right; by right].
  - unfold updateCartQuantity, statement. destruct (fails _); [by left|].
    right. by left.
Qed.

Lemma others_mergeRows u u' e db :
  u' ≠ u → keysFresh (cartState db) →
  cartOf u' (setCart (mergeRows u e (cartState db)) db) = cartOf u' db.
Proof.
  intros Hne [Hnd _]. destruct e as [[pid sz] q]. unfold mergeRows, setCart.
  destruct (lineOf (cartState db).1 u pid sz) as [r|] eqn:Hline; simpl.
  - apply CartMerge.lineOf_elem in Hline as (Hr & Hu & _).
    by apply (others_update u).
  - by apply (others_append u).
Qed.

Lemma mergeUpsert_steps fails u pid sz q : cartSteps u (mergeUpsert fails u pid sz q).
Proof.
  intros db. destruct (mergeUpsert_cases fails u pid sz q db) as [->|[->| ->]].
  - apply cartStep_refl.
  - split; [apply sameButCart_with_cart|]. intros Hk. split.
    + rewrite CartMerge.cartState_setCart. by apply CartMerge.keysFresh_mergeRows.
    + intros u' Hu'. by apply others_mergeRows.
  - split; [apply sameButCart_with_cart|]. intros Hk. split; [by apply keysFresh_seq|done].
Qed.

Lemma syncSizes_steps fails u pid sizes : cartSteps u (syncSizes fails u pid sizes).
Proof.
  induction sizes as [|[sz q] sizes IH]; simpl; [apply cartSteps_ret|].
  destruct (q <=? 0); [done|].
  apply cartSteps_bind; [apply mergeUpsert_steps|done].
Qed.

Lemma syncProducts_steps fails u items : cartSteps u (syncProducts fails u items).
Proof.
  induction items as [|[key sizes] items IH]; simpl; [apply cartSteps_ret|].
  destruct (Js.parseInt key) as [pid|]; [|done].
  apply cartSteps_bind; [apply cartSteps_read|].
  intros [|p ps]; [done|].
  apply cartSteps_bind; [apply syncSizes_steps|done].
Qed.

Lemma saveSizes_steps fails u pid sizes : cartSteps u (saveSizes fails u pid sizes).
Proof.
  induction sizes as [|[sz q] sizes IH]; simpl; [apply cartSteps_ret|].
  destruct (0 <? q); [|done].
  apply cartSteps_bind; [apply insertCartLine_steps|done].
Qed.

Lemma saveProducts_steps fails u items : cartSteps u (saveProducts fails u items).
Proof.
  induction items as [|[key sizes] items IH]; simpl; [apply cartSteps_ret|].
  destruct (Js.parseInt key) as [pid|]; [|done].
  apply cartSteps_bind; [apply saveSizes_steps|done].
Qed.

(** The frame of a handler: the request's owner is the only one whose
    cart lines may change. *)
Lemma handler_frame (h : Handler) req db :
  (∀ u, ownerOf req = Some u → cartStep u db (h req db).2) →
  (ownerOf req = None → (h req db).2 = db) →
  sameButCart db (h req db).2
  ∧ (keysFresh (cartState db) →
     keysFresh (cartState (h req db).2)
     ∧ ∀ u', ownerOf req ≠ Some u' → cartOf u' (h req db).2 = cartOf u' db).
Proof.
  intros Hsome Hnone. destruct (ownerOf req) as [u|].
  - destruct (Hsome u eq_refl) as [Hs Hk]. split; [done|]. intros Hf.
    destruct (Hk Hf) as [Hf' Ho]. split; [done|]. intros u' Hu'. apply Ho. congruence.
  - rewrite Hnone by done. split; [apply sameButCart_refl|]. by intros Hf.
Qed.

Lemma getUserCart_step fails req db :
  (∀ u, ownerOf req = Some u → cartStep u db (getUserCart fails req db).2)
  ∧ (ownerOf req = None → (getUserCart fails req db).2 = db).
Proof.
  unfold getUserCart, ownerOf. rewrite tryCatch_store.
  destruct (Js.asTruthy _) as [u|]; split; try done.
  intros ? [= <-].
  apply (cartSteps_bind u); [apply cartSteps_read|]. intros rows. apply cartSteps_ret.
Qed.

Lemma syncCart_step fails req db :
  (∀ u, ownerOf req = Some u → cartStep u db (syncCart fails req db).2)
  ∧ (ownerOf req = None → (syncCart fails req db).2 = db).
Proof.
  unfold syncCart, ownerOf. rewrite tryCatch_store.
  destruct (Js.asTruthy _) as [u|]; split; try done.
  intros ? [= <-].
  destruct (body_cartItems req) as [| |items]; try apply cartStep_refl.
  apply (cartSteps_bind u); [apply syncProducts_steps|]. intros _.
  apply cartSteps_bind; [apply cartSteps_read|]. intros rows. apply cartSteps_ret.
Qed.

Lemma saveCart_step fails req db :
  (∀ u, ownerOf req = Some u → cartStep u db (saveCart fails req db).2)
  ∧ (ownerOf req = None → (saveCart fails req db).2 = db).
Proof.
  unfold saveCart, ownerOf. rewrite tryCatch_store.
  destruct (Js.asTruthy _) as [u|]; split; try done.
  intros ? [= <-].
  destruct (body_cartItems req) as [| |items]; try apply cartStep_refl.
  apply (cartSteps_bind u); [apply deleteCartOfUser_steps|]. intros _.
  apply cartSteps_bind; [apply saveProducts_steps|]. intros _. apply cartSteps_ret.
Qed.

Lemma clearCart_step fails req db :
  (∀ u, ownerOf req = Some u → cartStep u db (clearCart fails req db).2)
  ∧ (ownerOf req = None → (clearCart fails req db).2 = db).
Proof.
  unfold clearCart, ownerOf. rewrite tryCatch_store.
  destruct (Js.asTruthy _) as [u|]; split; try done.
  intros ? [= <-].
  apply (cartSteps_bind u); [apply deleteCartOfUser_steps|]. intros _. apply cartSteps_ret.
Qed.

(** X14.  The four cart handlers, whatever the request and whatever the
    store rejects, leave users, products, orders and order lines alone;
    and on a cart table whose row ids are distinct and below the serial
    they keep that property and leave the cart lines of every owner other
    than the one the request acts for exactly as they were, in content
    and order. *)
Theorem cart_handlers_frame fails req db :
  let frame (h : Handler) :=
    sameButCart db (h req db).2
    ∧ (keysFresh (cartState db) →
       keysFresh (cartState (h req db).2)
       ∧ ∀ u', ownerOf req ≠ Some u' → cartOf u' (h req db).2 = cartOf u' db) in
  frame (getUserCart fails) ∧ frame (syncCart fails)
  ∧ frame (saveCart fails) ∧ frame (clearCart fails).
Proof.
  cbv beta zeta. split; [|split; [|split]].
  - destruct (getUserCart_step fails req db) as [H1 H2]. by apply handler_frame.
  - destruct (syncCart_step fails req db) as [H1 H2]. by apply handler_frame.
  - destruct (saveCart_step fails req db) as [H1 H2]. by apply handler_frame.
  - destruct (clearCart_step fails req db) as [H1 H2]. by apply handler_frame.
Qed.

Lemma cart_handlers_frame_witness :
  let req := request (Some 2) None (CartItemsObject [("1", [("M", 3)])]) None None in
  cartOf 1 (saveCart noFaults req shop).2 = cartOf 1 shop
  ∧ cartOf 1 (syncCart noFaults req shop).2 = cartOf 1 shop.
Proof.
  cbv zeta.
  destruct (cart_handlers_frame noFaults
              (request (Some 2) None (CartItemsObject [("1", [("M", 3)])]) None None)
              shop) as (_ & [_ Hsync] & [_ Hsave] & _).
  destruct (Hsave CartSync.shop_keysFresh) as [_ Ho].
  destruct (Hsync CartSync.shop_keysFresh) as [_ Ho'].
  split; [apply Ho|apply Ho']; vm_compute; discriminate.
Defined.

End CartFrame.

(** ** What getUserCart shows, and syncing or saving it back *)
Module CartView.
Import Schema Http Spec MergeModel CartController Fixtures Basics Derived.

Lemma lookup_default_inner (m : gmap string (gmap string Z)) K s :
  default ∅ (m !! K) !! s = lookup2 m K s.
Proof. unfold lookup2. destruct (m !! K); [done|]. simpl. apply lookup_empty. Qed.

Lemma lookup2_putLine m r k s :
  lookup2 (putLine m r) k s
  = if decide (frontendKey r = (k, s))
    then (if String.eqb s "__proto__" then lookup2 m k s else Some (c_quantity r))
    else lookup2 m k s.
Proof.
  unfold putLine, frontendKey.
  set (K := Js.toString (c_productId r)). set (S := Js.orStr (c_size r) "default").
  destruct (decide (K = k)) as [<-|Hk].
  - unfold lookup2 at 1. rewrite lookup_insert_eq. simpl.
    destruct (decide (S = s)) as [<-|Hs].
    + rewrite decide_True by done.
      destruct (String.eqb S "__proto__"); [apply lookup_default_inner|].
      by rewrite lookup_insert_eq.
    + rewrite decide_False by congruence.
      destruct (String.eqb S "__proto__"); [apply lookup_default_inner|].
      rewrite lookup_insert_ne by done. apply lookup_default_inner.
  - unfold lookup2. rewrite lookup_insert_ne by done. by rewrite decide_False by congruence.
Qed.

(** The mapping built by the loop of getUserCart, read entry by entry:
    nothing under the label [__proto__], and elsewhere the quantity of the
    last row filed there. *)
Lemma toFrontend_lookup rows k s :
  lookup2 (toFrontend rows) k s
  = if String.eqb s "__proto__" then None else shown rows k s.
Proof.
  unfold toFrontend, shown. induction rows as [|r rows IH] using rev_ind.
  - simpl. unfold lookup2. rewrite lookup_empty. by destruct (String.eqb _ _).
  - rewrite foldl_snoc, lookup2_putLine, filter_app, filter_cons, filter_nil, IH.
    destruct (String.eqb s "__proto__"); [by destruct (decide _)|].
    destruct (decide (frontendKey r = (k, s))).
    + by rewrite last_snoc.
    + by rewrite app_nil_r.
Qed.

Lemma filter_iff_in {A} (P Q : A → Prop) `{!∀ x, Decision (P x), !∀ x, Decision (Q x)}
    (l : list A) :
  (∀ x, x ∈ l → P x ↔ Q x) → filter P l = filter Q l.
Proof.
  induction l as [|x l IH]; intros Hiff; [done|].
  rewrite !filter_cons. rewrite IH by (intros y Hy; apply Hiff; by right).
  destruct (decide (P x)) as [Hp|Hp], (decide (Q x)) as [Hq|Hq]; try done.
  - exfalso. apply Hq. apply Hiff; [left|done].
  - exfalso. apply Hp. apply Hiff; [left|done].
Qed.

Lemma last_head_same {A} (l : list A) :
  (∀ x y, x ∈ l → y ∈ l → x = y) → last l = head l.
Proof.
  intros H. destruct l as [|x l]; [done|]. change (head (x :: l)) with (Some x).
  destruct (last (x :: l)) as [y|] eqn:E.
  - f_equal. apply H; [by apply last_Some_elem_of|left].
  - by apply last_None in E.
Qed.

(** Under [linesUnique] a row of the owner is filed under the key of its
    product and its own size label. *)
Lemma frontendKey_line u rows r pid sz :
  linesUnique u rows → r ∈ rows → c_userId r = u →
  frontendKey r = (Js.toString pid, sz) ↔ c_productId r = pid ∧ c_size r = Some sz.
Proof.
  intros [Hsz _] Hr Hu. destruct (Hsz r Hr Hu) as (sz0 & Hs & Hne).
  unfold frontendKey. rewrite Hs. simpl.
  assert (String.eqb sz0 EmptyString = false) as -> by by apply String.eqb_neq.
  split.
  - intros [= Hk ->]. split; [|done].
    pose proof (ProductKeys.parseInt_pretty (c_productId r)) as Hp.
    rewrite Hk, ProductKeys.parseInt_pretty in Hp. by injection Hp.
  - intros [-> [= ->]]. done.
Qed.

Lemma shown_quantityOf u rows pid sz :
  linesUnique u rows →
  shown (filter (fun r => c_userId r = u) rows) (Js.toString pid) sz
  = quantityOf rows u pid sz.
Proof.
  intros Hun. unfold shown, quantityOf, lineOf. f_equal.
  rewrite list_filter_filter.
  assert (filter (fun r => frontendKey r = (Js.toString pid, sz) ∧ c_userId r = u) rows
          = filter (fun r => c_userId r = u ∧ c_productId r = pid ∧ c_size r = Some sz) rows)
    as ->.
  { apply filter_iff_in. intros r Hr. split.
    - intros [Hk Hu]. split; [done|]. by apply (frontendKey_line u rows).
    - intros [Hu Hl]. split; [|done]. by apply (frontendKey_line u rows). }
  apply last_head_same. intros x y Hx Hy.
  apply list_elem_of_filter in Hx as [(Hxu & Hxp & Hxs) Hx].
  apply list_elem_of_filter in Hy as [(Hyu & Hyp & Hys) Hy].
  destruct Hun as [_ Huniq]. apply Huniq; congruence.
Qed.

(** X17.  getUserCart never changes the store, and the mapping of a 200
    answer holds nothing under the size label [__proto__], which an
    object literal does not take as an entry, and under a product key and
    any other size label the quantity of the last row of the owner that is
    filed there, in the order the select returns the rows: rows are filed
    under the decimal form of their product id and under their size, a
    NULL or empty size under the label default; a key or label under
    which no row is filed is absent. *)
Theorem getUserCart_shows fails req db :
  let run := getUserCart fails req db in
  run.2 = db
  ∧ (status run.1 = 200 →
     ∃ u m, ownerOf req = Some u ∧ data run.1 = CartData m
            ∧ ∀ k s, lookup2 m k s
                     = if String.eqb s "__proto__" then None
                       else shown (cartOf u db) k s).
Proof.
  cbv zeta. unfold getUserCart, tryCatch, ownerOf.
  destruct (Js.asTruthy _) as [u|]; simpl; [|done].
  unfold bind, selectCartOfUser, statement. destruct (fails _); simpl; [done|].
  split; [done|]. intros _. eexists u, _. split_and!; [done|done|].
  intros k s. apply toFrontend_lookup.
Qed.

(** X18.  When the owner's stored lines all carry a non-empty size and no
    two of them have the same product and size, the mapping getUserCart
    returns is the stored cart but for a line of size [__proto__]: under
    the key of a product id and any other size it holds the stored
    quantity of that line, and nothing where no line is stored; under
    [__proto__] it holds nothing, whether such a line is stored or not. *)
Theorem getUserCart_shows_stored_quantities fails req db u :
  ownerOf req = Some u → linesUnique u (cart db) →
  status (getUserCart fails req db).1 = 200 →
  ∃ m, data (getUserCart fails req db).1 = CartData m
       ∧ ∀ pid sz, lookup2 m (Js.toString pid) sz
                   = if String.eqb sz "__proto__" then None
                     else quantityOf (cart db) u pid sz.
Proof.
  intros Hown Hun. unfold getUserCart, tryCatch. unfold ownerOf in Hown. rewrite Hown.
  unfold bind, selectCartOfUser, statement. destruct (fails _); simpl; [done|].
  intros _. eexists. split; [done|]. intros pid sz.
  rewrite toFrontend_lookup. by rewrite shown_quantityOf.
Qed.

Lemma shop_linesUnique : linesUnique 1 (cart shop).
Proof.
  split.
  - intros r Hr _. apply list_elem_of_singleton in Hr as ->. by exists "S".
  - intros r r' Hr Hr' _ _ _ _.
    apply list_elem_of_singleton in Hr as ->. by apply list_elem_of_singleton in Hr' as ->.
Qed.

Lemma getUserCart_shows_stored_quantities_witness :
  ∃ m, data (getUserCart noFaults (request None (Some 1) CartItemsMissing None None) shop).1
       = CartData m
       ∧ ∀ pid sz, lookup2 m (Js.toString pid) sz
                   = if String.eqb sz "__proto__" then None
                     else quantityOf (cart shop) 1 pid sz.
Proof.
  apply getUserCart_shows_stored_quantities;
    [reflexivity|exact shop_linesUnique|reflexivity].
Defined.

Lemma positiveSizes_elem pid sizes e :
  e ∈ positiveSizes pid sizes ↔ ∃ sz q, e = (pid, sz, q) ∧ (sz, q) ∈ sizes ∧ 0 < q.
Proof.
  unfold positiveSizes. rewrite list_elem_of_fmap. split.
  - intros ([sz q] & -> & Hin). apply list_elem_of_filter in Hin as [Hq Hin].
    by exists sz, q.
  - intros (sz & q & -> & Hin & Hq). exists (sz, q). split; [done|].
    by apply list_elem_of_filter.
Qed.

Lemma validEntries_elem catalog items pid sz q :
  (pid, sz, q) ∈ validEntries catalog items →
  ∃ key sizes, (key, sizes) ∈ items ∧ Js.parseInt key = Some pid
               ∧ (sz, q) ∈ sizes ∧ 0 < q.
Proof.
  induction items as [|[key sizes] items IH]; simpl; [by intros ?%elem_of_nil|].
  assert (Hrest : (pid, sz, q) ∈ validEntries catalog items →
                  ∃ key' sizes', (key', sizes') ∈ (key, sizes) :: items
                                 ∧ Js.parseInt key' = Some pid
                                 ∧ (sz, q) ∈ sizes' ∧ 0 < q).
  { intros H. destruct (IH H) as (k' & s' & Hin & Hrest). exists k', s'.
    split; [by right|done]. }
  destruct (Js.parseInt key) as [pid'|] eqn:Hp; [|done].
  destruct (findById catalog pid'); [|done].
  intros [Hin|Hin]%elem_of_app; [|by apply Hrest].
  apply positiveSizes_elem in Hin as (sz' & q' & [= -> -> ->] & Hin & Hq).
  exists key, sizes. split; [left|done].
Qed.

(** X19.  Reading the cart and syncing it back changes nothing: when no
    statement is rejected, the owner is a stored user, the cart table has
    a primary key and the owner's lines are unique with non-empty sizes,
    a sync whose snapshot is read off the mapping getUserCart returned
    (any part of it, in any order) leaves the store as it is and answers
    with that same mapping. *)
Theorem syncCart_of_own_cart req req' db u m items :
  ownerOf req = Some u → ownerOf req' = Some u →
  hasUser u db = true → keysFresh (cartState db) → linesUnique u (cart db) →
  data (getUserCart noFaults req db).1 = CartData m →
  body_cartItems req' = CartItemsObject items → readOff m items →
  syncCart noFaults req' db
  = (okMessage 200 "Cart synced successfully" (CartData m), db).
Proof.
  intros Hown Hown' Hu Hk Hun Hget Hitems Hread.
  assert (Hm : m = toFrontend (filter (fun r => c_userId r = u) (cart db))).
  { revert Hget. unfold getUserCart, tryCatch. unfold ownerOf in Hown. rewrite Hown.
    unfold bind, selectCartOfUser, statement. simpl. by intros [= <-]. }
  pose proof (CartMerge.syncCart_noFaults req' db u items Hown' Hitems Hu) as Hrun.
  cbv zeta in Hrun. rewrite Hrun.
  rewrite CartMerge.mergeAll_settled; [|done|].
  - by rewrite CartMerge.setCart_cartState, Hm.
  - intros pid sz q Hin. exists q. split; [|lia].
    apply validEntries_elem in Hin as (key & sizes & Hkey & Hp & Hsz & Hq).
    specialize (Hread key sizes sz q Hkey Hsz).
    rewrite Hm, toFrontend_lookup in Hread.
    destruct (String.eqb sz "__proto__"); [done|].
    assert (Hkey' : key = Js.toString pid).
    { unfold shown in Hread.
      destruct (last _) as [r|] eqn:Hlast; [|done].
      apply last_Some_elem_of, list_elem_of_filter in Hlast as [[= Hk' _] _].
      pose proof (ProductKeys.parseInt_pretty (c_productId r)) as Hr.
      rewrite Hk', Hp in Hr. injection Hr as ->. done. }
    rewrite Hkey' in Hread. by rewrite shown_quantityOf in Hread.
Qed.

Lemma syncCart_of_own_cart_witness :
  let req := request None (Some 1) CartItemsMissing None None in
  let req' := request None (Some 1) (CartItemsObject [("1", [("S", 1)])]) None None in
  syncCart noFaults req' shop
  = (okMessage 200 "Cart synced successfully"
       (CartData (toFrontend (cartOf 1 shop))), shop).
Proof.
  cbv zeta.
  apply (syncCart_of_own_cart (request None (Some 1) CartItemsMissing None None) _ shop 1
           (toFrontend (cartOf 1 shop)) [("1", [("S", 1)])]);
    try reflexivity; try exact CartSync.shop_keysFresh; try exact shop_linesUnique.
  intros key sizes sz q Hk Hs.
  apply list_elem_of_singleton in Hk as [= -> ->].
  apply list_elem_of_singleton in Hs as [= -> ->].
  vm_compute. reflexivity.
Defined.

End CartView.

(** ** Replacing and clearing the cart *)
Module CartReplace.
Import Schema Http Spec MergeModel CartController Fixtures Basics Derived.

Lemma filter_owner_deleted u (rows : list CartRow) :
  filter (fun r => c_userId r = u) (filter (fun r => c_userId r ≠ u) rows) = [].
Proof.
  rewrite list_filter_filter. induction rows as [|x l IH]; [done|].
  rewrite filter_cons, IH. by rewrite decide_False by (by intros [? ?]).
Qed.









(** X21.  clearCart, whatever the store rejects: after a 200 answer the
    owner has no line left, the lines of the others are the table as it
    was without the owner's, and a getUserCart that follows returns the
    empty mapping; after any other answer the store is as it was. *)
Theorem clearCart_empties fails req db :
  let run := clearCart fails req db in
  (status run.1 = 200 →
   ∃ u, ownerOf req = Some u
        ∧ cart run.2 = filter (fun r => c_userId r ≠ u) (cart db)
        ∧ cartOf u run.2 = []
        ∧ (getUserCart noFaults req run.2).1
          = {| status := 200; success := true; message := None;
               data := CartData ∅ |})
  ∧ (status run.1 ≠ 200 → run.2 = db).
Proof.
  cbv zeta. unfold clearCart, tryCatch, ownerOf.
  destruct (Js.asTruthy _) as [u|] eqn:Hown; simpl; [|done].
  unfold bind, deleteCartOfUser, statement. destruct (fails _); simpl; [done|].
  split; [|done]. intros _. exists u.
  pose proof (filter_owner_deleted u (cart db)) as Hempty.
  split_and!; [done|done|exact Hempty|].
  unfold getUserCart, tryCatch. rewrite Hown.
  unfold bind, selectCartOfUser, statement. simpl. by rewrite Hempty.
Qed.

End CartReplace.

(** ** Primary keys *)
Module Keys.
Import Schema Http Spec MergeModel CartController OrderController Queries.
Import Fixtures Basics Derived.

Lemma preserves_ret {A} I (a : A) : preserves I (ret a).
Proof. by intros db H. Qed.

Lemma preserves_bind {A B} I (m : M A) (k : A → M B) :
  preserves I m → (∀ a, preserves I (k a)) → preserves I (bind m k).
Proof.
  intros Hm Hk db H. unfold bind. specialize (Hm db H).
  destruct (m db) as [[a|e] db1]; simpl in *; [|done]. by apply Hk.
Qed.

Lemma preserves_statement {A} I fails op (run : M A) :
  preserves I run → preserves I (statement fails op run).
Proof. intros Hr db H. unfold statement. destruct (fails op); [done|by apply Hr]. Qed.

Lemma preserves_promiseAll {A} I (ms : list (M A)) :
  Forall (preserves I) ms → preserves I (promiseAll ms).
Proof.
  induction 1 as [|m ms Hm _ IH]; [by intros db H|].
  intros db H. simpl. specialize (Hm db H).
  destruct (m db) as [[a|e] db1]; simpl in *.
  - specialize (IH db1 Hm). by destruct (promiseAll ms db1) as [[l|e] db2].
  - by apply IH.
Qed.

Lemma preserves_tryCatch I msg body :
  preserves I body → ∀ db, I db → I (tryCatch msg body db).2.
Proof. intros Hb db H. rewrite CartFrame.tryCatch_store. by apply Hb. Qed.

Lemma keysOk_cart rows seq db :
  keysOk db → keysFresh (rows, seq) → keysOk (with_cart rows seq db).
Proof. by intros [_ Ho] Hk. Qed.

Lemma keysOk_appendOrder o db :
  o_id o = orders_seq db →
  keysOk db → keysOk (with_orders (orders db ++ [o]) (orders_seq db + 1) db).
Proof.
  intros Hid [Hc (Hnd & Hlt & Hi)]. split; [done|]. split_and!; simpl; [| |apply Hi..].
  - rewrite fmap_app. apply NoDup_app. split_and!; [done| |apply NoDup_singleton].
    intros i Hin Hin'. simpl in Hin'. apply list_elem_of_singleton in Hin' as ->.
    apply list_elem_of_fmap in Hin as (y & Hy & Hin). specialize (Hlt y Hin). lia.
  - intros x Hx. apply elem_of_app in Hx as [Hx|Hx].
    + specialize (Hlt x Hx). lia.
    + apply list_elem_of_singleton in Hx as ->. lia.
Qed.

Lemma keysOk_orderSeq db :
  keysOk db → keysOk (with_orders (orders db) (orders_seq db + 1) db).
Proof.
  intros [Hc (Hnd & Hlt & Hi)]. split; [done|]. split_and!; simpl; [done| |apply Hi..].
  intros x Hx. specialize (Hlt x Hx). lia.
Qed.

Lemma keysOk_appendItem l db :
  oi_id l = orderItems_seq db →
  keysOk db → keysOk (with_orderItems (orderItems db ++ [l]) (orderItems_seq db + 1) db).
Proof.
  intros Hid [Hc (Ho1 & Ho2 & Hnd & Hlt)]. split; [done|]. split_and!; simpl; [done|done| |].
  - rewrite fmap_app. apply NoDup_app. split_and!; [done| |apply NoDup_singleton].
    intros i Hin Hin'. simpl in Hin'. apply list_elem_of_singleton in Hin' as ->.
    apply list_elem_of_fmap in Hin as (y & Hy & Hin). specialize (Hlt y Hin). lia.
  - intros x Hx. apply elem_of_app in Hx as [Hx|Hx].
    + specialize (Hlt x Hx). lia.
    + apply list_elem_of_singleton in Hx as ->. lia.
Qed.

Lemma keysOk_itemSeq db :
  keysOk db → keysOk (with_orderItems (orderItems db) (orderItems_seq db + 1) db).
Proof.
  intros [Hc (Ho1 & Ho2 & Hnd & Hlt)]. split; [done|]. split_and!; simpl; [done|done|done|].
  intros x Hx. specialize (Hlt x Hx). lia.
Qed.

Lemma keysOk_updateOrders (f : Order → Order) db :
  (∀ o, o_id (f o) = o_id o) →
  keysOk db → keysOk (with_orders (f <$> orders db) (orders_seq db) db).
Proof.
  intros Hf [Hc (Hnd & Hlt & Hi)]. split; [done|]. split_and!; simpl; [| |apply Hi..].
  - rewrite <- list_fmap_compose. erewrite list_fmap_ext; [exact Hnd|].
    intros i o _. simpl. apply Hf.
  - intros x Hx. apply list_elem_of_fmap in Hx as (y & -> & Hy). rewrite Hf. by apply Hlt.
Qed.

Lemma selectProductById_keys fails pid : preserves keysOk (selectProductById fails pid).
Proof. apply preserves_statement. by intros db H. Qed.

Lemma insertOrder_keys fails userId total address guest :
  preserves keysOk (insertOrder fails userId total address guest).
Proof.
  apply preserves_statement. intros db H.
  destruct (match userId with Some u => hasUser u db | None => true end); simpl.
  - by apply keysOk_appendOrder.
  - by apply keysOk_orderSeq.
Qed.

Lemma insertOrderItem_keys fails orderId pid q unitPrice sz :
  preserves keysOk (insertOrderItem fails orderId pid q unitPrice sz).
Proof.
  apply preserves_statement. intros db H.
  destruct (hasOrder orderId db && hasProduct pid db); simpl.
  - by apply keysOk_appendItem.
  - by apply keysOk_itemSeq.
Qed.

Lemma deleteCartOfUser_keys fails u : preserves keysOk (deleteCartOfUser fails u).
Proof.
  apply preserves_statement. intros db H. simpl. apply keysOk_cart; [done|].
  apply CartFrame.keysFresh_filter. apply H.
Qed.

Lemma assemble_keys fails items acc : preserves keysOk (assemble fails items acc).
Proof.
  revert acc. induction items as [|[key sizes] items IH]; intros acc; simpl;
    [apply preserves_ret|].
  destruct (Js.parseInt key) as [pid|]; [|apply IH].
  apply preserves_bind; [apply selectProductById_keys|].
  intros [|p ps]; [apply IH|].
  destruct (negb _); [apply preserves_ret|apply IH].
Qed.

Lemma assembleAndCommit_keys fails userId guest items a :
  preserves keysOk (assembleAndCommit fails userId guest items a).
Proof.
  unfold assembleAndCommit. apply preserves_bind; [apply assemble_keys|].
  intros [early|[total staged]]; [apply preserves_ret|].
  destruct (bool_decide _); [apply preserves_ret|].
  apply preserves_bind; [apply insertOrder_keys|].
  intros [|o os]; [apply preserves_ret|].
  apply preserves_bind.
  { apply preserves_promiseAll. apply Forall_fmap, Forall_forall. intros it _.
    apply insertOrderItem_keys. }
  intros rows. apply preserves_bind; [|intros _; apply preserves_ret].
  destruct (Js.asTruthy userId); [apply deleteCartOfUser_keys|apply preserves_ret].
Qed.

Lemma createOrder_keys fails req db : keysOk db → keysOk (createOrder fails req db).2.
Proof.
  unfold createOrder. apply preserves_tryCatch.
  destruct (_ && _); [apply preserves_ret|].
  destruct (guestInfoIncomplete _); [apply preserves_ret|].
  destruct (body_cartItems req); try apply preserves_ret.
  destruct (body_shippingAddress req); [|apply preserves_ret].
  apply assembleAndCommit_keys.
Qed.

Lemma cartHandler_keys (h : Handler) req db :
  sameButCart db (h req db).2
  ∧ (keysFresh (cartState db) → keysFresh (cartState (h req db).2)
     ∧ ∀ u', ownerOf req ≠ Some u' → cartOf u' (h req db).2 = cartOf u' db) →
  keysOk db → keysOk (h req db).2.
Proof.
  intros [(_ & _ & Ho & Hos & Hi & His) Hk] [Hc Hord]. split; [by apply Hk|].
  unfold orderKeysFresh. by rewrite Ho, Hos, Hi, His.
Qed.

(** X22.  Primary keys stay primary keys.  If the row ids of the cart,
    orders and order_items tables are distinct and below the serial of
    their table, they still are after getUserCart, syncCart, saveCart,
    clearCart, createOrder, updateOrderStatus or updatePaymentStatus,
    whatever the request and whatever the store rejects, the failed
    inserts that spend a serial included. *)
Theorem primary_keys_stay_unique fails failsQ ps req db :
  keysOk db →
  keysOk (getUserCart fails req db).2 ∧ keysOk (syncCart fails req db).2
  ∧ keysOk (saveCart fails req db).2 ∧ keysOk (clearCart fails req db).2
  ∧ keysOk (createOrder fails req db).2
  ∧ keysOk (updateOrderStatus fails req db).2
  ∧ keysOk (updatePaymentStatus failsQ ps req db).2.
Proof.
  intros H. split_and!.
  - apply cartHandler_keys; [|done].
    destruct (CartFrame.getUserCart_step fails req db). by apply CartFrame.handler_frame.
  - apply cartHandler_keys; [|done].
    destruct (CartFrame.syncCart_step fails req db). by apply CartFrame.handler_frame.
  - apply cartHandler_keys; [|done].
    destruct (CartFrame.saveCart_step fails req db). by apply CartFrame.handler_frame.
  - apply cartHandler_keys; [|done].
    destruct (CartFrame.clearCart_step fails req db). by apply CartFrame.handler_frame.
  - by apply createOrder_keys.
  - destruct (OrderUpdates.updateOrderStatus_cases fails req db) as [[-> _]|Hc]; [done|].
    destruct Hc as (id & st & _ & _ & _ & _ & -> & _).
    apply keysOk_updateOrders; [|done]. intros o. by destruct (decide _).
  - destruct (OrderUpdates.updatePaymentStatus_cases failsQ ps req db) as [[-> _]|Hc];
      [done|].
    destruct Hc as (id & st & _ & _ & _ & _ & -> & _).
    apply keysOk_updateOrders; [|done]. intros o. by destruct (decide _).
Qed.

Lemma shopWithOrder_keysOk : keysOk shopWithOrder.
Proof.
  split; [split|split_and!]; simpl.
  - apply NoDup_singleton.
  - intros r ->%list_elem_of_singleton. simpl. lia.
  - apply NoDup_singleton.
  - intros o ->%list_elem_of_singleton. simpl. lia.
  - apply NoDup_singleton.
  - intros l ->%list_elem_of_singleton. simpl. lia.
Qed.

Lemma primary_keys_stay_unique_witness :
  let req := {| body_userId := Some 7; user_id := None;
                body_cartItems := CartItemsObject [("1", [("M", 2)]); ("9", [("S", 1)])];
                body_shippingAddress := Some accra; body_guestInfo := None;
                body_status := Some "cancelled"; params_id := Some "1" |} in
  keysOk (saveCart noFaults req shopWithOrder).2
  ∧ keysOk (createOrder noFaults req shopWithOrder).2.
Proof.
  cbv zeta.
  destruct (primary_keys_stay_unique noFaults noQueryFaults (Some "paid")
              {| body_userId := Some 7; user_id := None;
                 body_cartItems := CartItemsObject [("1", [("M", 2)]); ("9", [("S", 1)])];
                 body_shippingAddress := Some accra; body_guestInfo := None;
                 body_status := Some "cancelled"; params_id := Some "1" |}
              shopWithOrder shopWithOrder_keysOk)
    as (_ & _ & Hsave & _ & Hcreate & _).
  by split.
Defined.

End Keys.

(** ** The order history *)
Module OrderHistory.
Import Schema Http Spec OrderController Queries Fixtures Basics Derived.

#[local] Arguments Js.truthyStr : simpl never.

(** Reads issued together: the store stays, and when all are fulfilled
    the results are those of the reads, in order. *)
Lemma promiseAll_reads {A B} (f : A → M B) (g : A → DB → B) (l : list A) db :
  (∀ x d, (f x d).2 = d ∧ ∀ b, (f x d).1 = Ok b → b = g x d) →
  (promiseAll (f <$> l) db).2 = db
  ∧ ∀ rows, (promiseAll (f <$> l) db).1 = Ok rows → rows = (fun x => g x db) <$> l.
Proof.
  intros Hf. induction l as [|x l [IHs IHr]]; simpl; [by split; [|intros ? [= <-]]|].
  destruct (Hf x db) as [Hs Hr].
  destruct (f x db) as [[b|e] db1]; simpl in *; subst db1.
  - destruct (promiseAll _ db) as [[rows|e] db1]; simpl in *; subst db1.
    + split; [done|]. intros ? [= <-]. by rewrite (IHr rows eq_refl), (Hr b eq_refl).
    + by split.
  - by split.
Qed.

Lemma view_read failsQ o d :
  let m := (let* items := selectItemsOfOrder failsQ (o_id o) in
            ret {| ov_order := o; ov_items := items |}) in
  (m d).2 = d ∧ ∀ b, (m d).1 = Ok b → b = orderView d o.
Proof.
  cbv zeta. unfold bind, selectItemsOfOrder, query.
  destruct (failsQ _); simpl; [by split|]. split; [done|]. by intros ? [= <-].
Qed.

Lemma filter_none {A} (P : A → Prop) `{!∀ x, Decision (P x)} (l : list A) :
  (∀ x, x ∈ l → ¬ P x) → filter P l = [].
Proof.
  induction l as [|x l IH]; intros Hn; [done|].
  rewrite filter_cons, decide_False by (apply Hn; left).
  apply IH. intros y Hy. apply Hn. by right.
Qed.

Lemma filter_unique_id (P : Order → Prop) `{!∀ o, Decision (P o)} (l : list Order) o :
  NoDup (o_id <$> l) → o ∈ l → P o →
  filter (fun x => o_id x = o_id o ∧ P x) l = [o].
Proof.
  intros Hnd Hin Hp. induction l as [|x l IH]; [by apply elem_of_nil in Hin|].
  rewrite fmap_cons in Hnd. apply NoDup_cons in Hnd as [Hx Hnd].
  rewrite filter_cons. apply elem_of_cons in Hin as [->|Hin].
  - rewrite decide_True by done. f_equal.
    apply filter_none. intros y Hy [Hid _].
    apply Hx. rewrite <- Hid. apply list_elem_of_fmap. by exists y.
  - rewrite decide_False; [by apply IH|].
    intros [Hid _]. apply Hx. rewrite Hid. apply list_elem_of_fmap. by exists o.
Qed.

(** What getUserOrders answers with. *)
Lemma getUserOrders_run failsQ newestFirst req db :
  ∃ r, getUserOrders failsQ newestFirst req db = (r, db)
       ∧ (rp_status r = 200 →
          ∃ u, ownerOf req = Some u
               ∧ let views := orderView db
                                <$> newestFirst (filter (fun o => o_userId o = Some u)
                                                   (orders db)) in
                 rp_data r = Some {| ol_count := length views; ol_data := views |}).
Proof.
  unfold getUserOrders, tryCatchReply, ownerOf.
  destruct (Js.asTruthy _) as [u|]; simpl; [|by eexists].
  unfold bind at 1. unfold selectOrdersOfUser, query.
  destruct (failsQ (SelectOrdersOfUser u)); simpl; [by eexists|].
  set (l := newestFirst _).
  destruct (promiseAll_reads
              (fun order => let* items := selectItemsOfOrder failsQ (o_id order) in
                            ret {| ov_order := order; ov_items := items |})
              (fun o d => orderView d o) l db) as [Hs Hr].
  { intros x d. apply view_read. }
  unfold bind at 1.
  destruct (promiseAll _ db) as [[rows|e] db1]; simpl in *; subst db1; [|by eexists].
  eexists. split; [done|]. intros _. exists u. split; [done|].
  simpl. by rewrite (Hr rows eq_refl).
Qed.

(** X23.  getUserOrders never changes the store, and a 200 answer lists
    exactly the stored orders of the requesting user, each once, in the
    order the database sorts them: no guest order and no order of another
    user is listed, [count] is their number, and each comes with the item
    rows of its own lines. *)
Theorem getUserOrders_lists_own_orders failsQ newestFirst req db :
  (∀ l, newestFirst l ≡ₚ l) →
  let run := getUserOrders failsQ newestFirst req db in
  run.2 = db
  ∧ (rp_status run.1 = 200 →
     ∃ u views,
       ownerOf req = Some u
       ∧ rp_data run.1 = Some {| ol_count := length views; ol_data := views |}
       ∧ ov_order <$> views ≡ₚ filter (fun o => o_userId o = Some u) (orders db)
       ∧ Forall (fun v => o_userId (ov_order v) = Some u ∧ ov_order v ∈ orders db
                          ∧ ov_items v = itemsOf db (o_id (ov_order v))) views).
Proof.
  intros Hperm. cbv zeta.
  destruct (getUserOrders_run failsQ newestFirst req db) as (r & -> & Hr). simpl.
  split; [done|]. intros H200. destruct (Hr H200) as (u & Hown & Hdata).
  cbv zeta in Hdata. eexists u, _. split_and!; [done|exact Hdata| |].
  - rewrite <- list_fmap_compose. simpl.
    erewrite list_fmap_ext; [rewrite list_fmap_id; apply Hperm|]. by intros i o _.
  - apply Forall_fmap, Forall_forall. intros o Ho. simpl.
    rewrite Hperm in Ho. apply list_elem_of_filter in Ho as [Hu Ho]. done.
Qed.

Lemma getUserOrders_lists_own_orders_witness :
  let run := getUserOrders noQueryFaults reverse
               (request None (Some 1) CartItemsMissing None None) shopWithOrder in
  run.2 = shopWithOrder
  ∧ (rp_status run.1 = 200 →
     ∃ u views,
       Some 1 = Some u
       ∧ rp_data run.1 = Some {| ol_count := length views; ol_data := views |}
       ∧ ov_order <$> views
         ≡ₚ filter (fun o => o_userId o = Some u) (orders shopWithOrder)
       ∧ Forall (fun v => o_userId (ov_order v) = Some u
                          ∧ ov_order v ∈ orders shopWithOrder
                          ∧ ov_items v = itemsOf shopWithOrder (o_id (ov_order v)))
           views).
Proof.
  apply (getUserOrders_lists_own_orders noQueryFaults reverse
           (request None (Some 1) CartItemsMissing None None) shopWithOrder).
  intros l. apply reverse_Permutation.
Defined.

(** X24.  The history and the single-order view agree.  When no statement
    is rejected and order ids are distinct, every entry of a 200 answer
    of getUserOrders is exactly what getOrderById returns to the same
    user for the id of that entry, written as the decimal form of the
    number. *)
Theorem getUserOrders_agrees_with_getOrderById failsQ newestFirst req db v views n :
  (∀ l, newestFirst l ≡ₚ l) → NoDup (o_id <$> orders db) →
  rp_data (getUserOrders failsQ newestFirst req db).1
  = Some {| ol_count := n; ol_data := views |} →
  v ∈ views →
  getOrderById noQueryFaults (withId req (Js.toString (o_id (ov_order v)))) db
  = (found v, db).
Proof.
  intros Hperm Hnd Hdata Hv.
  assert (H200 : rp_status (getUserOrders failsQ newestFirst req db).1 = 200).
  { revert Hdata. unfold getUserOrders, tryCatchReply.
    destruct (Js.asTruthy _); simpl; [|done].
    unfold bind. destruct (selectOrdersOfUser _ _ _ _) as [[l|e] db1]; [|done].
    destruct (promiseAll _ _) as [[rows|e] db2]; [|done]. done. }
  destruct (getUserOrders_run failsQ newestFirst req db) as (r & Hrun & Hr).
  rewrite Hrun in H200, Hdata. simpl in H200, Hdata.
  destruct (Hr H200) as (u & Hown & Hd). cbv zeta in Hd.
  rewrite Hd in Hdata. injection Hdata as _ <-.
  apply list_elem_of_fmap in Hv as (o & -> & Ho).
  rewrite Hperm in Ho. apply list_elem_of_filter in Ho as [Hu Ho]. simpl.
  unfold getOrderById, tryCatchReply. simpl.
  unfold ownerOf in Hown. rewrite Hown.
  pose proof (ProductKeys.parseInt_pretty (o_id o)) as Hp.
  rewrite (OrderStatus.parseInt_truthy _ _ Hp). simpl. rewrite Hp.
  unfold bind, selectOrderOfUser, selectItemsOfOrder, query, noQueryFaults.
  rewrite (filter_unique_id (fun x => o_userId x = Some u) (orders db) o Hnd Ho Hu).
  done.
Qed.

Lemma getUserOrders_agrees_with_getOrderById_witness :
  getOrderById noQueryFaults
    (withId (request None (Some 1) CartItemsMissing None None) "1") shopWithOrder
  = (found (orderView shopWithOrder delivered1), shopWithOrder).
Proof.
  apply (getUserOrders_agrees_with_getOrderById noQueryFaults reverse
           (request None (Some 1) CartItemsMissing None None) shopWithOrder
           (orderView shopWithOrder delivered1) [orderView shopWithOrder delivered1] 1%nat).
  - intros l. apply reverse_Permutation.
  - vm_compute. apply NoDup_singleton.
  - reflexivity.
  - left.
Defined.

End OrderHistory.

(** ** Entries that are passed over *)
Module SkippedEntries.
Import Schema Http Spec MergeModel CartController OrderController Fixtures Basics Derived.

Lemma syncProducts_sizes fails u items1 key sizes sizes' items2 db :
  (∀ pid d, syncSizes fails u pid sizes d = syncSizes fails u pid sizes' d) →
  syncProducts fails u (items1 ++ (key, sizes) :: items2) db
  = syncProducts fails u (items1 ++ (key, sizes') :: items2) db.
Proof.
  intros Hs. revert db. induction items1 as [|[k s] items1 IH]; intros db; simpl.
  - destruct (Js.parseInt key) as [pid|]; [|done]. unfold bind.
    destruct (selectProductById fails pid db) as [[[|p ps]|e] db1]; [done| |done].
    by rewrite Hs.
  - destruct (Js.parseInt k) as [pid|]; [|apply IH]. unfold bind.
    destruct (selectProductById fails pid db) as [[[|p ps]|e] db1]; [apply IH| |done].
    destruct (syncSizes fails u pid s db1) as [[[]|e] db2]; [apply IH|done].
Qed.

Lemma saveProducts_sizes fails u items1 key sizes sizes' items2 db :
  (∀ pid d, saveSizes fails u pid sizes d = saveSizes fails u pid sizes' d) →
  saveProducts fails u (items1 ++ (key, sizes) :: items2) db
  = saveProducts fails u (items1 ++ (key, sizes') :: items2) db.
Proof.
  intros Hs. revert db. induction items1 as [|[k s] items1 IH]; intros db; simpl.
  - destruct (Js.parseInt key) as [pid|]; [|done]. unfold bind. by rewrite Hs.
  - destruct (Js.parseInt k) as [pid|]; [|apply IH]. unfold bind.
    destruct (saveSizes fails u pid s db) as [[[]|e] db1]; [apply IH|done].
Qed.

Lemma assemble_sizes fails items1 key sizes sizes' items2 acc db :
  (∀ pid unitPrice a, stageSizes pid unitPrice sizes a = stageSizes pid unitPrice sizes' a) →
  assemble fails (items1 ++ (key, sizes) :: items2) acc db
  = assemble fails (items1 ++ (key, sizes') :: items2) acc db.
Proof.
  intros Hs. revert acc db. induction items1 as [|[k s] items1 IH]; intros acc db; simpl.
  - destruct (Js.parseInt key) as [pid|]; [|done]. unfold bind.
    destruct (selectProductById fails pid db) as [[[|p ps]|e] db1]; [done| |done].
    by rewrite Hs.
  - destruct (Js.parseInt k) as [pid|]; [|apply IH]. unfold bind.
    destruct (selectProductById fails pid db) as [[[|p ps]|e] db1]; [apply IH| |done].
    destruct (negb _); [done|apply IH].
Qed.

Lemma ownerOf_withCart req items : ownerOf (withCart req items) = ownerOf req.
Proof. done. Qed.

(** X25.  A size entry whose quantity is zero or negative is passed over
    by all three operations that read a snapshot: with the entry or
    without it, syncCart, saveCart and createOrder give the same answer
    and leave the same store, whatever the store rejects. *)
Theorem nonpositive_quantity_is_skipped fails req db items1 key before sz q after items2 :
  q ≤ 0 →
  let withEntry := withCart req (items1 ++ (key, before ++ (sz, q) :: after) :: items2) in
  let without := withCart req (items1 ++ (key, before ++ after) :: items2) in
  syncCart fails withEntry db = syncCart fails without db
  ∧ saveCart fails withEntry db = saveCart fails without db
  ∧ createOrder fails withEntry db = createOrder fails without db.
Proof.
  intros Hq. cbv zeta. split_and!.
  - unfold syncCart, tryCatch. simpl.
    destruct (Js.asTruthy _) as [u|]; [|done]. unfold bind.
    by rewrite (syncProducts_sizes fails u items1 key _ (before ++ after))
      by (intros pid d; by apply InvalidEntries.syncSizes_nonpositive).
  - unfold saveCart, tryCatch. simpl.
    destruct (Js.asTruthy _) as [u|]; [|done]. unfold bind.
    destruct (deleteCartOfUser fails u db) as [[[]|e] db1]; [|done].
    by rewrite (saveProducts_sizes fails u items1 key _ (before ++ after))
      by (intros pid d; by apply InvalidEntries.saveSizes_nonpositive).
  - unfold createOrder, tryCatch. simpl.
    destruct (_ && _); [done|]. destruct (guestInfoIncomplete _); [done|].
    destruct (body_shippingAddress req) as [a|]; [|done].
    unfold assembleAndCommit, bind.
    by rewrite (assemble_sizes fails items1 key _ (before ++ after))
      by (intros pid unitPrice acc; by apply InvalidEntries.stageSizes_nonpositive).
Qed.

Lemma nonpositive_quantity_is_skipped_witness :
  let req := request None (Some 1) CartItemsMissing (Some accra) None in
  syncCart noFaults (withCart req [("1", [("S", 2); ("M", 0)])]) shop
  = syncCart noFaults (withCart req [("1", [("S", 2)])]) shop
  ∧ createOrder noFaults (withCart req [("1", [("S", 2); ("M", 0)])]) shop
    = createOrder noFaults (withCart req [("1", [("S", 2)])]) shop.
Proof.
  cbv zeta.
  destruct (nonpositive_quantity_is_skipped noFaults
              (request None (Some 1) CartItemsMissing (Some accra) None) shop
              [] "1" [("S", 2)] "M" 0 [] []) as (Hsync & _ & Hcreate); [lia|].
  by split.
Defined.

(** X26.  A product entry whose key does not parse, or parses to an id
    the catalog does not have, is passed over by syncCart and createOrder
    when no statement is rejected: with the entry or without it they give
    the same answer and leave the same store. *)
Theorem unknown_product_is_skipped req db items1 key sizes items2 :
  (∀ pid, Js.parseInt key = Some pid → findById (products db) pid = None) →
  let withEntry := withCart req (items1 ++ (key, sizes) :: items2) in
  let without := withCart req (items1 ++ items2) in
  syncCart noFaults withEntry db = syncCart noFaults without db
  ∧ createOrder noFaults withEntry db = createOrder noFaults without db.
Proof.
  intros Hkey. cbv zeta. split.
  - unfold syncCart, tryCatch. simpl.
    destruct (Js.asTruthy _) as [u|]; [|done]. unfold bind.
    by rewrite InvalidEntries.syncProducts_unknown.
  - unfold createOrder, tryCatch. simpl.
    destruct (_ && _); [done|]. destruct (guestInfoIncomplete _); [done|].
    destruct (body_shippingAddress req) as [a|]; [|done].
    unfold assembleAndCommit, bind.
    by rewrite InvalidEntries.assemble_unknown.
Qed.

Lemma unknown_product_is_skipped_witness :
  let req := request None (Some 1) CartItemsMissing (Some accra) None in
  syncCart noFaults (withCart req [("1", [("S", 2)]); ("9", [("M", 1)])]) shop
  = syncCart noFaults (withCart req [("1", [("S", 2)])]) shop
  ∧ createOrder noFaults (withCart req [("1", [("S", 2)]); ("9", [("M", 1)])]) shop
    = createOrder noFaults (withCart req [("1", [("S", 2)])]) shop.
Proof.
  cbv zeta.
  apply (unknown_product_is_skipped
           (request None (Some 1) CartItemsMissing (Some accra) None) shop
           [("1", [("S", 2)])] "9" [("M", 1)] []).
  intros pid [= <-]. reflexivity.
Defined.

End SkippedEntries.

(** ** syncCart, whichever row the lookup returns *)
Module SyncLines.
Import Schema Http Spec MergeModel CartController Fixtures Basics Derived.


Lemma first_row_legal : AnyRow.legalLimit (take 1).
Proof. split; [done|]. intros [|x l] Hl; [done|]. exists x. split; [left|done]. Qed.

Lemma fewest_legal : AnyRow.legalLimit AnyRow.fewest.
Proof.
  split; [done|]. intros l Hl. induction l as [|x l IH]; [done|]. simpl.
  destruct (decide (l = [])) as [->|Hne].
  - exists x. split; [left|done].
  - destruct (IH Hne) as (z & Hz & ->).
    destruct (c_quantity x <=? c_quantity z);
      [exists x; split; [left|done] | exists z; split; [by right|done]].
Qed.















Lemma cartGrows_refl rows : cartGrows rows rows.
Proof. intros r Hr. exists r. split_and!; [done..|lia]. Qed.

Lemma cartGrows_trans r1 r2 r3 : cartGrows r1 r2 → cartGrows r2 r3 → cartGrows r1 r3.
Proof.
  intros H12 H23 r Hr.
  destruct (H12 r Hr) as (r' & Hr' & Hi & Hu & Hp & Hs & Hq).
  destruct (H23 r' Hr') as (r'' & Hr'' & Hi' & Hu' & Hp' & Hs' & Hq').
  exists r''. split_and!; [done|congruence..|lia].
Qed.

Lemma cartGrows_append rows x : cartGrows rows (rows ++ [x]).
Proof.
  intros r Hr. exists r. split_and!; [|done..|lia]. apply elem_of_app. by left.
Qed.

Lemma cartGrows_update (rows : list CartRow) r q :
  NoDup (c_id <$> rows) → r ∈ rows →
  cartGrows rows (keepLarger (c_id r) (Z.max (c_quantity r) q) <$> rows).
Proof.
  intros Hnd Hr x Hx. exists (keepLarger (c_id r) (Z.max (c_quantity r) q) x).
  split_and!.
  - apply list_elem_of_fmap. by exists x.
  - apply CartMerge.keepLarger_id.
  - apply CartMerge.keepLarger_userId.
  - apply CartMerge.keepLarger_productId.
  - apply CartMerge.keepLarger_size.
  - unfold keepLarger. destruct (decide (c_id x = c_id r)) as [E|]; [|lia].
    assert (x = r) as -> by by eapply CartMerge.same_id_same_row.
    simpl. lia.
Qed.

Lemma keysFresh_update rows seq id m :
  keysFresh (rows, seq) → keysFresh (keepLarger id m <$> rows, seq).
Proof.
  intros [Hnd Hlt]. simpl in *. split; simpl.
  - rewrite <- list_fmap_compose. erewrite list_fmap_ext; [exact Hnd|].
    intros i x _. simpl. apply CartMerge.keepLarger_id.
  - intros x Hx. apply list_elem_of_fmap in Hx as (y & -> & Hy).
    rewrite CartMerge.keepLarger_id. by apply Hlt.
Qed.

(** What the upsert can leave behind, whichever row the lookup returns:
    nothing new, a stored row raised, a row appended, or a serial
    spent. *)
Lemma mergeUpsert_any_cases fails limit1 u pid sz q db :
  AnyRow.legalLimit limit1 →
  let db' := (AnyRow.mergeUpsert fails limit1 u pid sz q db).2 in
  db' = db
  ∨ (∃ r, r ∈ cart db
          ∧ db' = with_cart (keepLarger (c_id r) (Z.max (c_quantity r) q) <$> cart db)
                    (cart_seq db) db)
  ∨ db' = with_cart (cart db ++ [{| c_id := cart_seq db; c_userId := u;
                                    c_productId := pid; c_quantity := q;
                                    c_size := Some sz |}]) (cart_seq db + 1) db
  ∨ db' = with_cart (cart db) (cart_seq db + 1) db.
Proof.
  intros [Hnil Hsome]. cbv zeta.
  unfold AnyRow.mergeUpsert, bind, AnyRow.selectCartLine, statement.
  destruct (fails (SelectCartLine u pid sz)); [by left|]. simpl.
  set (l := filter _ (cart db)).
  destruct (decide (l = [])) as [E|Hne].
  - rewrite E, Hnil. unfold insertCartLine, statement. destruct (fails _); [by left|].
    destruct (hasUser u db && hasProduct pid db); simpl;
      [right; right; by left|right; right; by right].
  - destruct (Hsome l Hne) as (r & Hr & ->).
    unfold updateCartQuantity, statement. destruct (fails _); [by left|].
    right. left. exists r. split; [|done].
    subst l. by apply list_elem_of_filter in Hr as [_ ?].
Qed.

Lemma growing_ret {A} (a : A) : growing (ret a).
Proof. intros db Hk. split; [done|apply cartGrows_refl]. Qed.

Lemma growing_bind {A B} (m : M A) (k : A → M B) :
  growing m → (∀ a, growing (k a)) → growing (bind m k).
Proof.
  intros Hm Hk db Hf. unfold bind. specialize (Hm db Hf).
  destruct (m db) as [[a|e] db1]; simpl in *; [|done].
  destruct Hm as [Hf1 Hg1]. destruct (Hk a db1 Hf1) as [Hf2 Hg2].
  split; [done|]. by eapply cartGrows_trans.
Qed.

Lemma growing_read {A} fails op (f : DB → A) :
  growing (statement fails op (fun db => (Ok (f db), db))).
Proof.
  intros db Hk. unfold statement.
  destruct (fails op); simpl; (split; [done|apply cartGrows_refl]).
Qed.

Lemma mergeUpsert_growing fails limit1 u pid sz q :
  AnyRow.legalLimit limit1 → growing (AnyRow.mergeUpsert fails limit1 u pid sz q).
Proof.
  intros Hl db Hk.
  destruct (mergeUpsert_any_cases fails limit1 u pid sz q db Hl)
    as [->|[(r & Hr & ->)|[->| ->]]].
  - split; [done|apply cartGrows_refl].
  - split; [by apply keysFresh_update|]. apply cartGrows_update; [apply Hk|done].
  - split; [by apply CartFrame.keysFresh_append|apply cartGrows_append].
  - split; [by apply CartFrame.keysFresh_seq|apply cartGrows_refl].
Qed.

Lemma syncSizes_growing fails limit1 u pid sizes :
  AnyRow.legalLimit limit1 → growing (AnyRow.syncSizes fails limit1 u pid sizes).
Proof.
  intros Hl. induction sizes as [|[sz q] sizes IH]; simpl; [apply growing_ret|].
  destruct (q <=? 0); [done|].
  apply growing_bind; [by apply mergeUpsert_growing|done].
Qed.

Lemma syncProducts_growing fails limit1 u items :
  AnyRow.legalLimit limit1 → growing (AnyRow.syncProducts fails limit1 u items).
Proof.
  intros Hl. induction items as [|[key sizes] items IH]; simpl; [apply growing_ret|].
  destruct (Js.parseInt key) as [pid|]; [|done].
  apply growing_bind; [apply growing_read|].
  intros [|p ps]; [done|].
  apply growing_bind; [by apply syncSizes_growing|done].
Qed.

(** X15.  syncCart never loses anything, even when it stops halfway and
    even where several lines have the same owner, product and size: on a
    cart table whose row ids are distinct and below the serial, whatever
    the request, whatever the store rejects and whichever row [limit(1)]
    returns, every row stored before is stored after, with its id, owner,
    product and size, and a quantity that is at least what it was. *)
Theorem syncCart_never_loses fails limit1 req db :
  AnyRow.legalLimit limit1 → keysFresh (cartState db) →
  cartGrows (cart db) (cart (AnyRow.syncCart fails limit1 req db).2).
Proof.
  intros Hl Hk. unfold AnyRow.syncCart. rewrite CartFrame.tryCatch_store.
  destruct (Js.asTruthy _) as [u|]; [|apply cartGrows_refl].
  destruct (body_cartItems req) as [| |items]; try apply cartGrows_refl.
  refine (proj2 (growing_bind (AnyRow.syncProducts fails limit1 u items) _ _ _ db Hk)).
  - by apply syncProducts_growing.
  - intros _. apply growing_bind; [apply growing_read|]. intros rows. apply growing_ret.
Qed.

Lemma syncCart_never_loses_witness :
  let req := request None (Some 1)
               (CartItemsObject [("1", [("S", 0); ("M", 2)]); ("9", [("M", 1)])])
               None None in
  cartGrows (cart shop)
    (cart (AnyRow.syncCart (failCartDeleteOf 1) AnyRow.fewest req shop).2).
Proof.
  apply syncCart_never_loses; [exact fewest_legal|exact CartSync.shop_keysFresh].
Defined.

(** ** The largest quantity of a line, duplicates or not *)
















End SyncLines.
